(** * jpeg_date: a shallow embedding of [jpeg_date.py] and its properties

    The development follows the Python module function by function;
    where a fragment of a function is given a name of its own, its
    comment gives the lines it stands for.

    Python values are modelled as follows:
    - [int] as [Z]; [str] as [string] (paths are compared by character
      code, as Python compares [str]);
    - [datetime.datetime] (naive) as a record of its seven integer fields,
      built only through the validating constructor [datetime_new];
    - exceptions as a result type [Ok | Raise], with [try_except] for the
      [except (...)] clauses of the source and [SystemExit] for
      [sys.exit];
    - the file system as a tree of directories and files, threaded through
      a state monad together with the text written by [print].

    What is assumed of the libraries and of the machine:
    - the tree holds regular files and directories only (no links, no
      special files), a directory can always be listed, and paths are
      resolved from the root of the tree, which is also the working
      directory;
    - a library call raises only the exceptions given in its model
      ([Image.open], [Image.save], [os] calls: [OSError]; [piexif]:
      [OSError], [ValueError]; [strptime]: [ValueError]; [replace]:
      [ValueError], and [OverflowError] for a year or month that does
      not fit a C [int]; [timestamp]: [ValueError]);
    - opening or reading a file changes nothing in the file system;
    - times of files are whole microseconds since the epoch, and the
      two local-time conversions of [datetime] are given by the
      machine: [fromtimestamp] as a total function, [timestamp] as a
      partial one;
    - [strftime] writes the year as the C library of Linux does. *)

From Stdlib Require Import ZArith List String Ascii Bool Lia.
From Stdlib Require Import Sorting.Sorted Sorting.Permutation Sorting.Mergesort.
From Stdlib Require Import Structures.Orders.
Import ListNotations.

Set Warnings "-register-all".

Local Open Scope string_scope.
Local Open Scope Z_scope.

(* ================================================================== *)
(** ** Exceptions *)

(** The subclasses of [OSError] that the modelled library calls raise. *)
Inductive os_error : Type :=
| FileNotFoundError
| NotADirectoryError
| IsADirectoryError
| FileExistsError
| PermissionError
| UnidentifiedImageError.

(** Reasons carried by a [ValueError]. *)
Inductive value_error : Type :=
| YearOutOfRange
| MonthOutOfRange
| DayOutOfRange
| TimeFieldOutOfRange
| FormatMismatch
| NoPathSpecified.

Inductive exn : Type :=
| OSError (k : os_error) (path : string)
| ValueError (why : value_error)
| OverflowError
| KeyError
| ImportError
| SystemExit (code : Z).

Inductive result (A : Type) : Type :=
| Ok (a : A)
| Raise (e : exn).
Arguments Ok {A} a.
Arguments Raise {A} e.

Definition is_OSError (e : exn) : bool :=
  match e with OSError _ _ => true | _ => false end.
Definition is_ValueError (e : exn) : bool :=
  match e with ValueError _ => true | _ => false end.
Definition is_KeyError (e : exn) : bool :=
  match e with KeyError => true | _ => false end.
Definition is_ImportError (e : exn) : bool :=
  match e with ImportError => true | _ => false end.
Definition is_OverflowError (e : exn) : bool :=
  match e with OverflowError => true | _ => false end.

(** Sequencing of pure fallible computations (no state involved). *)
Definition rbind {A B} (r : result A) (k : A -> result B) : result B :=
  match r with Ok a => k a | Raise e => Raise e end.

(* ================================================================== *)
(** ** [datetime.datetime] *)

Record datetime : Type := mkdatetime {
  year : Z; month : Z; day : Z;
  hour : Z; minute : Z; second : Z; microsecond : Z
}.

Definition MINYEAR : Z := 1.
Definition MAXYEAR : Z := 9999.

Definition _is_leap (y : Z) : bool :=
  (y mod 4 =? 0) && (negb (y mod 100 =? 0) || (y mod 400 =? 0)).

Definition _DAYS_IN_MONTH : list Z :=
  [-1; 31; 28; 31; 30; 31; 30; 31; 31; 30; 31; 30; 31].

Definition _days_in_month (y m : Z) : Z :=
  if (m =? 2) && _is_leap y then 29
  else nth (Z.to_nat m) _DAYS_IN_MONTH (-1).

Definition in_range (lo x hi : Z) : bool := (lo <=? x) && (x <=? hi).

Definition _check_date_fields (y m d : Z) : result unit :=
  if negb (in_range MINYEAR y MAXYEAR) then Raise (ValueError YearOutOfRange)
  else if negb (in_range 1 m 12) then Raise (ValueError MonthOutOfRange)
  else if negb (in_range 1 d (_days_in_month y m))
       then Raise (ValueError DayOutOfRange)
  else Ok tt.

Definition _check_time_fields (h mi s us : Z) : result unit :=
  if negb (in_range 0 h 23) then Raise (ValueError TimeFieldOutOfRange)
  else if negb (in_range 0 mi 59) then Raise (ValueError TimeFieldOutOfRange)
  else if negb (in_range 0 s 59) then Raise (ValueError TimeFieldOutOfRange)
  else if negb (in_range 0 us 999999) then Raise (ValueError TimeFieldOutOfRange)
  else Ok tt.

(** The constructor [datetime(year, month, day, hour, minute, second,
    microsecond)]: every field is range-checked. *)
Definition datetime_new (y m d h mi s us : Z) : result datetime :=
  rbind (_check_date_fields y m d) (fun _ =>
  rbind (_check_time_fields h mi s us) (fun _ =>
  Ok (mkdatetime y m d h mi s us))).

(** The integers that fit a C [int]. *)
Definition c_int (n : Z) : bool := in_range (-2147483648) n 2147483647.

Definition keyword_fits (keyword : option Z) : bool :=
  match keyword with Some n => c_int n | None => true end.

(** [self.replace(year=..., month=...)]: the keywords given are first
    converted to C [int]s, which raises [OverflowError] for one that
    does not fit; a keyword left out keeps the field of [self]; the new
    object goes through the constructor. *)
Definition replace (self : datetime) (new_year new_month : option Z)
  : result datetime :=
  if keyword_fits new_year && keyword_fits new_month then
    let y := match new_year with Some y => y | None => year self end in
    let m := match new_month with Some m => m | None => month self end in
    datetime_new y m (day self) (hour self) (minute self) (second self)
                 (microsecond self)
  else Raise OverflowError.

(** The objects Python can hold: those the constructor accepts. *)
Definition valid_datetime (t : datetime) : Prop :=
  datetime_new (year t) (month t) (day t) (hour t) (minute t) (second t)
               (microsecond t) = Ok t.

(** Lines 88-91 of [modify_image_datetime] (the same four lines are
    repeated at 208-211 in [process_folder] and at 357-360 in [main]):
    [[
      if new_month is not None:
          new_datetime = current_datetime.replace(year=new_year, month=new_month)
      else:
          new_datetime = current_datetime.replace(year=new_year)
    ]] *)
Definition new_datetime (current_datetime : datetime) (new_year : Z)
           (new_month : option Z) : result datetime :=
  match new_month with
  | Some m => replace current_datetime (Some new_year) (Some m)
  | None => replace current_datetime (Some new_year) None
  end.

(** The month the substitution aims at. *)
Definition target_month (t : datetime) (new_month : option Z) : Z :=
  match new_month with Some m => m | None => month t end.

(* ================================================================== *)
(** ** [str] operations and [os.path] (posixpath) *)

Definition slash : ascii := "/"%char.
Definition dot : ascii := "."%char.

(** [s[n:]] and [s[:n]] for an index [0 <= n]. *)
Fixpoint str_drop (n : nat) (s : string) : string :=
  match n, s with
  | O, _ => s
  | S n', String _ s' => str_drop n' s'
  | S _, EmptyString => EmptyString
  end.

Fixpoint str_take (n : nat) (s : string) : string :=
  match n, s with
  | O, _ => EmptyString
  | S n', String a s' => String a (str_take n' s')
  | S _, EmptyString => EmptyString
  end.

(** [s[a:b]] for [0 <= a <= b]. *)
Definition slice (s : string) (a b : Z) : string :=
  str_take (Z.to_nat (b - a)) (str_drop (Z.to_nat a) s).

(** [s.rfind(c)]: the highest index of [c] in [s], or [-1]. *)
Fixpoint rfind (c : ascii) (s : string) : Z :=
  match s with
  | EmptyString => -1
  | String a s' =>
      let r := rfind c s' in
      if 0 <=? r then r + 1
      else if Ascii.eqb a c then 0 else -1
  end.

Definition startswith_slash (s : string) : bool :=
  match s with String a _ => Ascii.eqb a slash | EmptyString => false end.

Fixpoint endswith_slash (s : string) : bool :=
  match s with
  | EmptyString => false
  | String a EmptyString => Ascii.eqb a slash
  | String _ s' => endswith_slash s'
  end.

(** [s.split('/')]: never empty; [''.split('/') == ['']]. *)
Fixpoint split_slash (s : string) : list string :=
  match s with
  | EmptyString => [EmptyString]
  | String a s' =>
      if Ascii.eqb a slash then EmptyString :: split_slash s'
      else match split_slash s' with
           | h :: t => String a h :: t
           | [] => [String a EmptyString]
           end
  end.

(** [s.rstrip('/')]. *)
Fixpoint rstrip_slash (s : string) : string :=
  match s with
  | EmptyString => EmptyString
  | String a s' =>
      match rstrip_slash s' with
      | EmptyString => if Ascii.eqb a slash then EmptyString
                       else String a EmptyString
      | r => String a r
      end
  end.

Fixpoint all_slashes (s : string) : bool :=
  match s with
  | EmptyString => true
  | String a s' => Ascii.eqb a slash && all_slashes s'
  end.

(** [os.path.join(a, b)]. *)
Definition join (a b : string) : string :=
  if startswith_slash b then b
  else if (a =? "")%string || endswith_slash a then a ++ b
  else a ++ "/" ++ b.

(** [os.path.basename(p)]. *)
Definition basename (p : string) : string :=
  let i := rfind slash p + 1 in
  str_drop (Z.to_nat i) p.

(** [os.path.dirname(p)]. *)
Definition dirname (p : string) : string :=
  let i := rfind slash p + 1 in
  let head := str_take (Z.to_nat i) p in
  if negb (head =? "")%string && negb (all_slashes head)
  then rstrip_slash head else head.

(** The [while] loop of [genericpath._splitext], which skips the leading
    dots of the file name; [n] counts the iterations left, that is
    [dotIndex - filenameIndex]. *)
Fixpoint _splitext_loop (p : string) (dotIndex : Z) (n : nat)
         (filenameIndex : Z) : string * string :=
  match n with
  | O => (p, EmptyString)
  | S n' =>
      if negb (slice p filenameIndex (filenameIndex + 1) =? ".")%string
      then (str_take (Z.to_nat dotIndex) p, str_drop (Z.to_nat dotIndex) p)
      else _splitext_loop p dotIndex n' (filenameIndex + 1)
  end.

(** [os.path.splitext(p)]. *)
Definition splitext (p : string) : string * string :=
  let sepIndex := rfind slash p in
  let dotIndex := rfind dot p in
  if sepIndex <? dotIndex then
    let filenameIndex := sepIndex + 1 in
    _splitext_loop p dotIndex (Z.to_nat (dotIndex - filenameIndex))
                   filenameIndex
  else (p, EmptyString).

(** The loop of [posixpath.normpath] over the components of an absolute
    path ([initial_slashes] is true): [new_comps] is kept reversed. *)
Fixpoint _normpath_loop (comps : list string) (new_comps : list string)
  : list string :=
  match comps with
  | [] => rev new_comps
  | comp :: rest =>
      if (comp =? "")%string || (comp =? ".")%string
      then _normpath_loop rest new_comps
      else if negb (comp =? "..")%string
              || match new_comps with
                 | top :: _ => (top =? "..")%string
                 | [] => false
                 end
      then _normpath_loop rest (comp :: new_comps)
      else _normpath_loop rest (tl new_comps)
  end.

(** The non-empty components of [os.path.abspath(path)]; the working
    directory of the process is the root of the modelled tree. *)
Definition abspath_list (path : string) : list string :=
  _normpath_loop (split_slash (join "/" path)) [].

Fixpoint commonprefix_len (l1 l2 : list string) : nat :=
  match l1, l2 with
  | a :: l1', b :: l2' =>
      if (a =? b)%string then S (commonprefix_len l1' l2') else O
  | _, _ => O
  end.

(** [os.path.relpath(path, start)]. *)
Definition relpath (path start : string) : result string :=
  if (path =? "")%string then Raise (ValueError NoPathSpecified)
  else
    let start_list := abspath_list start in
    let path_list := abspath_list path in
    let i := commonprefix_len start_list path_list in
    let rel_list :=
      (repeat ".." (List.length start_list - i)%nat ++ skipn i path_list)%list in
    match rel_list with
    | [] => Ok "."
    | a :: p => Ok (fold_left join p a)
    end.

(* ================================================================== *)
(** ** [strptime] and [strftime] for the EXIF format
       ["%Y:%m:%d %H:%M:%S"] *)

Definition digit_of (c : ascii) : option Z :=
  let n := Z.of_N (N_of_ascii c) in
  if in_range 48 n 57 then Some (n - 48) else None.

(** The characters matched by the regular expression [\s] on a [str],
    among the code points up to 255: the ASCII white space, the four
    separators 28-31, NEXT LINE (133) and NO-BREAK SPACE (160). *)
Definition is_space (c : ascii) : bool :=
  let n := Z.of_N (N_of_ascii c) in
  in_range 9 n 13 || in_range 28 n 32 || (n =? 133) || (n =? 160).

(** One or two leading digits of the text, when present. *)
Definition one_digit (s : string) : option (Z * string) :=
  match s with
  | String a r => match digit_of a with Some x => Some (x, r) | None => None end
  | EmptyString => None
  end.

Definition two_digits (s : string) : option (Z * Z * string) :=
  match one_digit s with
  | Some (x, r) =>
      match one_digit r with Some (y, r') => Some (x, y, r') | None => None end
  | None => None
  end.

(** A field of the pattern: its alternatives are tried in order, the
    first one that matches is taken. [two x y] accepts a two-digit
    alternative, [one x] the one-digit alternative. *)
Definition field (two : Z -> Z -> bool) (one : Z -> bool) (s : string)
  : option (Z * string) :=
  match two_digits s with
  | Some (x, y, r) =>
      if two x y then Some (10 * x + y, r)
      else if one x then one_digit s else None
  | None =>
      match one_digit s with
      | Some (x, r) => if one x then Some (x, r) else None
      | None => None
      end
  end.

(** [%Y] is [\d\d\d\d]. *)
Definition field_Y (s : string) : option (Z * string) :=
  match two_digits s with
  | Some (a, b, r) =>
      match two_digits r with
      | Some (c, d, r') => Some (1000 * a + 100 * b + 10 * c + d, r')
      | None => None
      end
  | None => None
  end.

(** [%m] is [1[0-2]|0[1-9]|[1-9]]. *)
Definition field_m : string -> option (Z * string) :=
  field (fun x y => ((x =? 1) && (y <=? 2)) || ((x =? 0) && (1 <=? y)))
        (fun x => 1 <=? x).

(** [%d] is [3[0-1]|[1-2]\d|0[1-9]|[1-9]| [1-9]]. *)
Definition field_d (s : string) : option (Z * string) :=
  match s with
  | String " " r =>
      match one_digit r with
      | Some (x, r') => if 1 <=? x then Some (x, r') else None
      | None => None
      end
  | _ =>
      field (fun x y => ((x =? 3) && (y <=? 1)) || in_range 1 x 2
                        || ((x =? 0) && (1 <=? y)))
            (fun x => 1 <=? x) s
  end.

(** [%H] is [2[0-3]|[0-1]\d|\d]. *)
Definition field_H : string -> option (Z * string) :=
  field (fun x y => ((x =? 2) && (y <=? 3)) || (x <=? 1)) (fun _ => true).

(** [%M] is [[0-5]\d|\d]. *)
Definition field_M : string -> option (Z * string) :=
  field (fun x _ => x <=? 5) (fun _ => true).

(** [%S] is [6[0-1]|[0-5]\d|\d]. *)
Definition field_S : string -> option (Z * string) :=
  field (fun x y => ((x =? 6) && (y <=? 1)) || (x <=? 5)) (fun _ => true).

Definition colon (s : string) : option string :=
  match s with String ":" r => Some r | _ => None end.

Fixpoint skip_spaces (s : string) : string :=
  match s with
  | String a r => if is_space a then skip_spaces r else s
  | EmptyString => s
  end.

(** The blank of the format stands for [\s+]. *)
Definition spaces (s : string) : option string :=
  match s with
  | String a r => if is_space a then Some (skip_spaces r) else None
  | EmptyString => None
  end.

Definition obind {A B} (o : option A) (k : A -> option B) : option B :=
  match o with Some a => k a | None => None end.

(** The six numbers of a text that matches the pattern entirely. *)
Definition match_exif_format (value : string)
  : option (Z * Z * Z * Z * Z * Z) :=
  obind (field_Y value) (fun '(y, s) =>
  obind (colon s) (fun s =>
  obind (field_m s) (fun '(m, s) =>
  obind (colon s) (fun s =>
  obind (field_d s) (fun '(d, s) =>
  obind (spaces s) (fun s =>
  obind (field_H s) (fun '(h, s) =>
  obind (colon s) (fun s =>
  obind (field_M s) (fun '(mi, s) =>
  obind (colon s) (fun s =>
  obind (field_S s) (fun '(sec, s) =>
  match s with
  | EmptyString => Some (y, m, d, h, mi, sec)
  | _ => None
  end))))))))))).

(** [datetime.strptime(value, "%Y:%m:%d %H:%M:%S")]. *)
Definition strptime (value : string) : result datetime :=
  match match_exif_format value with
  | Some (y, m, d, h, mi, sec) => datetime_new y m d h mi sec 0
  | None => Raise (ValueError FormatMismatch)
  end.

Definition digit_char (n : Z) : ascii :=
  ascii_of_N (Z.to_N (48 + n mod 10)).

Definition pad2 (n : Z) : string :=
  String (digit_char (n / 10)) (String (digit_char n) EmptyString).

Definition pad4 (n : Z) : string := (pad2 (n / 100) ++ pad2 n)%string.

(** [%Y] of [strftime], as the C library (glibc) writes it: the decimal
    digits of the year without padding, so a year below 1000 takes
    fewer than four characters. *)
Definition year_digits (y : Z) : string :=
  if y <? 10 then String (digit_char y) EmptyString
  else if y <? 100 then pad2 y
  else if y <? 1000 then String (digit_char (y / 100)) (pad2 y)
  else pad4 y.

(** [t.strftime("%Y:%m:%d %H:%M:%S")]. *)
Definition strftime (t : datetime) : string :=
  (year_digits (year t) ++ ":" ++ pad2 (month t) ++ ":" ++ pad2 (day t) ++ " "
   ++ pad2 (hour t) ++ ":" ++ pad2 (minute t) ++ ":" ++ pad2 (second t))%string.

(* ================================================================== *)
(** ** Local time

    [datetime.fromtimestamp] and [datetime.timestamp] depend on the time
    zone of the machine; they are a parameter of the model (see
    [platform] below). File times are kept in microseconds since the
    epoch. The conversions for a machine on UTC are given here.

    [datetime.timestamp] is partial: to settle a repeated local hour it
    converts the time one day earlier as well, and raises [ValueError]
    (year out of range) when that leaves the years 1-9999. On UTC this
    happens for the times of 1 January of year 1. *)

Definition days_from_civil (y m d : Z) : Z :=
  let y' := if m <=? 2 then y - 1 else y in
  let era := y' / 400 in
  let yoe := y' - era * 400 in
  let mp := if 2 <? m then m - 3 else m + 9 in
  let doy := (153 * mp + 2) / 5 + d - 1 in
  let doe := yoe * 365 + yoe / 4 - yoe / 100 + doy in
  era * 146097 + doe - 719468.

Definition civil_from_days (z : Z) : Z * Z * Z :=
  let z' := z + 719468 in
  let era := z' / 146097 in
  let doe := z' - era * 146097 in
  let yoe := (doe - doe / 1460 + doe / 36524 - doe / 146096) / 365 in
  let doy := doe - (365 * yoe + yoe / 4 - yoe / 100) in
  let mp := (5 * doy + 2) / 153 in
  let d := doy - (153 * mp + 2) / 5 + 1 in
  let m := if mp <? 10 then mp + 3 else mp - 9 in
  ((if m <=? 2 then yoe + era * 400 + 1 else yoe + era * 400), m, d).

Definition utc_fromtimestamp (us : Z) : datetime :=
  let secs := us / 1000000 in
  let '(y, m, d) := civil_from_days (secs / 86400) in
  let sod := secs mod 86400 in
  mkdatetime y m d (sod / 3600) ((sod mod 3600) / 60) (sod mod 60)
             (us mod 1000000).

Definition utc_timestamp (t : datetime) : Z :=
  ((days_from_civil (year t) (month t) (day t) * 86400
    + hour t * 3600 + minute t * 60 + second t) * 1000000) + microsecond t.

Definition utc_datetime_timestamp (t : datetime) : option Z :=
  if (year t =? 1) && (month t =? 1) && (day t =? 1) then None
  else Some (utc_timestamp t).

(* ================================================================== *)
(** ** The file system *)

(** What the image library sees in a file: the format it identifies and
    the text tags of the two EXIF directories the program touches
    ([exif_0th]: the main directory, read by [Image.getexif()] and
    addressed by piexif as ['0th']; [exif_Exif]: piexif's ['Exif']). *)
Record image : Type := mkimage {
  format : string;
  exif_0th : list (Z * string);
  exif_Exif : list (Z * string)
}.

(** A regular file. [content] is [None] when no image plugin
    identifies the bytes (a corrupt or foreign file). *)
Record file : Type := mkfile {
  can_read : bool;
  can_write : bool;
  content : option image;
  atime : Z;
  mtime : Z
}.

Inductive node : Type :=
| File (f : file)
| Dir (entries : list (string * node)).

Fixpoint assoc (name : string) (es : list (string * node)) : option node :=
  match es with
  | [] => None
  | (n, x) :: es' => if (n =? name)%string then Some x else assoc name es'
  end.

(** Replace the entry called [name], or add it at the end. *)
Fixpoint set_assoc (name : string) (x : node) (es : list (string * node))
  : list (string * node) :=
  match es with
  | [] => [(name, x)]
  | (n, y) :: es' =>
      if (n =? name)%string then (n, x) :: es'
      else (n, y) :: set_assoc name x es'
  end.

(** A position in the tree: the node reached and, for each directory
    entered on the way, the name taken there and that directory's
    entries (innermost first). *)
Record cursor : Type := mkcursor {
  above : list (string * list (string * node));
  here : node
}.

Inductive io (A : Type) : Type :=
| Done (a : A)
| Errno (k : os_error).
Arguments Done {A} a.
Arguments Errno {A} k.

Definition go_up (z : cursor) : cursor :=
  match above z with
  | [] => z
  | (name, es) :: up => mkcursor up (Dir (set_assoc name (here z) es))
  end.

(** Resolution of one path component. *)
Definition step (c : string) (z : cursor) : io cursor :=
  match here z with
  | File _ => Errno NotADirectoryError
  | Dir es =>
      if (c =? "")%string || (c =? ".")%string then Done z
      else if (c =? "..")%string then Done (go_up z)
      else match assoc c es with
           | Some child => Done (mkcursor ((c, es) :: above z) child)
           | None => Errno FileNotFoundError
           end
  end.

Fixpoint locate (cs : list string) (z : cursor) : io cursor :=
  match cs with
  | [] => Done z
  | c :: cs' =>
      match step c z with
      | Done z' => locate cs' z'
      | Errno k => Errno k
      end
  end.

(** The tree with the node under the cursor put back. *)
Fixpoint rebuild (up : list (string * list (string * node))) (x : node)
  : node :=
  match up with
  | [] => x
  | (name, es) :: up' => rebuild up' (Dir (set_assoc name x es))
  end.

(** The node a path names. Paths are resolved from the root of the tree,
    which is also the working directory; the empty path names nothing. *)
Definition lookup (root : node) (path : string) : io node :=
  if (path =? "")%string then Errno FileNotFoundError
  else match locate (split_slash path) (mkcursor [] root) with
       | Done z => Done (here z)
       | Errno k => Errno k
       end.

Definition is_dir_node (x : node) : bool :=
  match x with Dir _ => true | File _ => false end.

Definition dirnames (es : list (string * node)) : list string :=
  map fst (filter (fun e => is_dir_node (snd e)) es).

Definition filenames (es : list (string * node)) : list string :=
  map fst (filter (fun e => negb (is_dir_node (snd e))) es).

(** The triples [(root, dirs, files)] that [os.walk] yields for the node
    reached as [top], top-down: the directory itself, then each
    sub-directory in listing order, scanned as [join top name]. A node
    that cannot be scanned yields nothing ([os.walk] ignores the error
    of [scandir], its [onerror] being [None]). *)
Fixpoint walk_node (top : string) (x : node)
  : list (string * list string * list string) :=
  match x with
  | File _ => []
  | Dir es =>
      (top, dirnames es, filenames es)
      :: (fix below (l : list (string * node)) :=
            match l with
            | [] => []
            | (name, child) :: l' =>
                (walk_node (join top name) child ++ below l')%list
            end) es
  end.

(** A file is named by the last component of its path; this splits the
    components into those of the directory and the name. *)
Definition split_last (cs : list string) : list string * string :=
  (removelast cs, last cs EmptyString).

Definition plain_name (c : string) : bool :=
  negb ((c =? "")%string || (c =? ".")%string || (c =? "..")%string).

(** Create or replace the regular file at [path]: [change] receives the
    file found there, if any, and says what to store. *)
Definition write_file (root : node) (path : string)
           (change : option file -> io file) : io node :=
  if (path =? "")%string then Errno FileNotFoundError
  else
    let '(dir_cs, name) := split_last (split_slash path) in
    if negb (plain_name name) then Errno IsADirectoryError
    else match locate dir_cs (mkcursor [] root) with
         | Errno k => Errno k
         | Done z =>
             match here z with
             | File _ => Errno NotADirectoryError
             | Dir es =>
                 match assoc name es with
                 | Some (Dir _) => Errno IsADirectoryError
                 | Some (File f) =>
                     match change (Some f) with
                     | Done f' =>
                         Done (rebuild (above z) (Dir (set_assoc name (File f') es)))
                     | Errno k => Errno k
                     end
                 | None =>
                     match change None with
                     | Done f' =>
                         Done (rebuild (above z) (Dir (set_assoc name (File f') es)))
                     | Errno k => Errno k
                     end
                 end
             end
         end.

(** [os.makedirs(path, exist_ok=True)]: every missing directory on the
    way is created; a regular file on the way or at the end is an
    error. *)
Fixpoint makedirs_from (cs : list string) (z : cursor) : io node :=
  match cs with
  | [] =>
      match here z with
      | Dir _ => Done (rebuild (above z) (here z))
      | File _ => Errno FileExistsError
      end
  | c :: cs' =>
      match here z with
      | File _ => Errno NotADirectoryError
      | Dir es =>
          if (c =? "")%string || (c =? ".")%string then makedirs_from cs' z
          else if (c =? "..")%string then makedirs_from cs' (go_up z)
          else match assoc c es with
               | Some child =>
                   makedirs_from cs' (mkcursor ((c, es) :: above z) child)
               | None =>
                   makedirs_from cs'
                     (mkcursor ((c, set_assoc c (Dir []) es) :: above z) (Dir []))
               end
      end
  end.

Definition makedirs (root : node) (path : string) : io node :=
  if (path =? "")%string then Errno FileNotFoundError
  else makedirs_from (split_slash path) (mkcursor [] root).

(* ================================================================== *)
(** ** The machine, the output and the state monad *)

(** What the program prints, one constructor per [print] of the source
    (the line is given); values formatted into the text are kept as
    values. *)
Inductive message : Type :=
| NoDateTimeFound                                   (* 58 *)
| ErrorReadingImageDatetime (e : exn)               (* 61 *)
| UsingFileModificationTime (t : datetime)          (* 85 *)
| OriginalDatetime (t : datetime)                   (* 93 *)
| NewDatetime (t : datetime)                        (* 94 *)
| WarningNotJPEG (fmt : string)                     (* 107 *)
| ErrorModifyingImageDatetime (e : exn)             (* 110 *)
| UpdatedFileModificationTime (t : datetime)        (* 117 *)
| ErrorUpdatingFileModificationTime (e : exn)       (* 119 *)
| ExifUpdated                                       (* 141 *)
| PiexifNotInstalled                                (* 144 *)
| UsingBasicPIL                                     (* 145 *)
| ErrorWithPiexif (e : exn)                         (* 147 *)
| NoJpegFilesFound (recursive : bool) (folder : string)   (* 195 *)
| FoundJpegFiles (n : Z) (folder : string)          (* 198 *)
| ProcessingRecursively                             (* 200 *)
| DryRunModeBatch                                   (* 203 *)
| DryRunItem (i : Z) (name : string)                (* 205 *)
| DryRunChange (current new : datetime)             (* 212 *)
| NoExifDatetimeFound                               (* 214, 363 *)
| WouldProcess (n : Z)                              (* 215 *)
| Processing (i n : Z) (name : string)              (* 222 *)
| SuccessfullyProcessed                             (* 247 *)
| FailedToProcess                                   (* 250 *)
| ErrorProcessing (path : string) (e : exn)         (* 254 *)
| Summary                                           (* 256 *)
| TotalFiles (n : Z)                                (* 257 *)
| SuccessfullyProcessedCount (n : Z)                (* 258 *)
| Errors (n : Z)                                    (* 259 *)
| PathNotFound (path : string)                      (* 280 *)
| MonthMustBeBetween1And12                          (* 284 *)
| YearSeemsUnrealistic                              (* 288 *)
| NoJpegFilesFoundIn (path : string)                (* 299 *)
| FoundJpegFilesList (n : Z)                        (* 302 *)
| ShowDatetime (name : string) (t : datetime)       (* 306 *)
| ShowFileTime (name : string) (t : datetime)       (* 310 *)
| NotAJpegFile (path : string)                      (* 314, 350 *)
| CurrentImageDatetime (t : datetime)               (* 319 *)
| CurrentFileModificationTime (t : datetime)        (* 323 *)
| CompletedWithErrors (errors total : Z)            (* 343 *)
| AllProcessed (n : Z)                              (* 346 *)
| DryRunModeSingle                                  (* 354 *)
| WouldChange (current new : datetime)              (* 361 *)
| ModifiedSuccessfully                              (* 369 *)
| FailedToModify.                                   (* 371 *)

(** The part of the machine the program cannot change: its time zone
    (the two local-time conversions of [datetime], over microseconds
    since the epoch; [timestamp] gives [None] where
    [datetime.timestamp] raises [ValueError]), whether [import piexif]
    succeeds, and the time a written file is stamped with. *)
Record platform : Type := mkplatform {
  fromtimestamp : Z -> datetime;
  timestamp : datetime -> option Z;
  piexif_installed : bool;
  clock : Z
}.

Record world : Type := mkworld {
  machine : platform;
  fs : node;
  stdout : list message
}.

Definition M (A : Type) : Type := world -> result A * world.

Definition ret {A} (a : A) : M A := fun w => (Ok a, w).

Definition bind {A B} (m : M A) (k : A -> M B) : M B :=
  fun w => match m w with
           | (Ok a, w') => k a w'
           | (Raise e, w') => (Raise e, w')
           end.

Definition raise {A} (e : exn) : M A := fun w => (Raise e, w).

(** A pure fallible computation run inside the monad. *)
Definition lift {A} (r : result A) : M A := fun w => (r, w).

Notation "x <- m ;; k" := (bind m (fun x => k))
  (at level 61, m at next level, right associativity).
Notation "' pat <- m ;; k" := (bind m (fun x => match x with pat => k end))
  (at level 61, pat pattern, m at next level, right associativity).
Notation "m ;;; k" := (bind m (fun _ => k))
  (at level 61, right associativity).

(** [try: body  except ...: handler]. [handlers e] is the body of the
    first [except] clause that matches [e], or [None] when no clause
    matches and [e] propagates. *)
Definition try_except {A} (body : M A) (handlers : exn -> option (M A)) : M A :=
  fun w => match body w with
           | (Ok a, w') => (Ok a, w')
           | (Raise e, w') =>
               match handlers e with
               | Some h => h w'
               | None => (Raise e, w')
               end
           end.

Definition print (m : message) : M unit :=
  fun w => (Ok tt, mkworld (machine w) (fs w) (stdout w ++ [m])%list).

(** A library call that only reads the file system. *)
Definition reading {A} (f : platform -> node -> result A) : M A :=
  fun w => (f (machine w) (fs w), w).

(** A library call that may change the file system. *)
Definition writing (f : platform -> node -> result node) : M unit :=
  fun w => match f (machine w) (fs w) with
           | Ok root' => (Ok tt, mkworld (machine w) root' (stdout w))
           | Raise e => (Raise e, w)
           end.

Definition of_io {A} (path : string) (r : io A) : result A :=
  match r with Done a => Ok a | Errno k => Raise (OSError k path) end.

(** [for x in l: s = body(x, s)]. *)
Fixpoint for_fold {A S} (l : list A) (s : S) (body : A -> S -> M S) : M S :=
  match l with
  | [] => ret s
  | x :: l' => s' <- body x s ;; for_fold l' s' body
  end.

Definition for_each {A} (l : list A) (body : A -> M unit) : M unit :=
  for_fold l tt (fun x _ => body x).

(** [enumerate(l, start)]. *)
Fixpoint enumerate {A} (l : list A) (start : Z) : list (Z * A) :=
  match l with
  | [] => []
  | x :: l' => (start, x) :: enumerate l' (start + 1)
  end.

Definition len {A} (l : list A) : Z := Z.of_nat (List.length l).

(* ================================================================== *)
(** ** The library calls of the program *)

(** [Image.open(path)]: a missing, unreadable or unidentified file is an
    [OSError]. *)
Definition Image_open (path : string) : M image :=
  reading (fun _ root =>
    match lookup root path with
    | Errno k => Raise (OSError k path)
    | Done (Dir _) => Raise (OSError IsADirectoryError path)
    | Done (File f) =>
        if negb (can_read f) then Raise (OSError PermissionError path)
        else match content f with
             | Some img => Ok img
             | None => Raise (OSError UnidentifiedImageError path)
             end
    end).

(** [PIL.ExifTags.TAGS], abridged to tags of the main directory; no
    other tag of the full table is named ["DateTime"]. *)
Definition TAGS : list (Z * string) :=
  [ (270, "ImageDescription"); (271, "Make"); (272, "Model");
    (274, "Orientation"); (305, "Software"); (306, "DateTime");
    (315, "Artist"); (33432, "Copyright"); (34665, "ExifOffset");
    (36867, "DateTimeOriginal"); (36868, "DateTimeDigitized") ].

(** [TAGS.get(tag, tag) == name]: an unknown tag stays a number, which
    equals no text. *)
Definition tag_name_is (tag : Z) (name : string) : bool :=
  match find (fun e => fst e =? tag) TAGS with
  | Some (_, n) => (n =? name)%string
  | None => false
  end.

(** [os.path.getmtime(path)]; the program asks only for regular files. *)
Definition os_path_getmtime (path : string) : M Z :=
  reading (fun _ root =>
    match lookup root path with
    | Done (File f) => Ok (mtime f)
    | Done (Dir _) => Raise (OSError IsADirectoryError path)
    | Errno k => Raise (OSError k path)
    end).

Definition os_path_exists (path : string) : M bool :=
  reading (fun _ root =>
    match lookup root path with Done _ => Ok true | Errno _ => Ok false end).

Definition os_path_isdir (path : string) : M bool :=
  reading (fun _ root =>
    match lookup root path with Done (Dir _) => Ok true | _ => Ok false end).

Definition isfile_in (root : node) (path : string) : bool :=
  match lookup root path with Done (File _) => true | _ => false end.

Definition os_path_isfile (path : string) : M bool :=
  reading (fun _ root => Ok (isfile_in root path)).

(** [os.listdir(path)]. *)
Definition os_listdir (path : string) : M (list string) :=
  reading (fun _ root =>
    match lookup root path with
    | Done (Dir es) => Ok (map fst es)
    | Done (File _) => Raise (OSError NotADirectoryError path)
    | Errno k => Raise (OSError k path)
    end).

(** [list(os.walk(top))]. *)
Definition os_walk (top : string)
  : M (list (string * list string * list string)) :=
  reading (fun _ root =>
    match lookup root top with
    | Done x => Ok (walk_node top x)
    | Errno _ => Ok []
    end).

(** [image.save(output_path, format='JPEG', quality=95)]: the file is
    created or replaced by a fresh JPEG encoding, which carries no EXIF
    directory since none is passed to [save]. *)
Definition Image_save (output_path : string) : M unit :=
  writing (fun mach root =>
    of_io output_path
      (write_file root output_path (fun old =>
         match old with
         | Some f =>
             if can_write f
             then Done (mkfile (can_read f) true
                               (Some (mkimage "JPEG" [] [])) (atime f) (clock mach))
             else Errno PermissionError
         | None =>
             Done (mkfile true true (Some (mkimage "JPEG" [] []))
                          (clock mach) (clock mach))
         end))).

(** [d[key] = value] on a dictionary kept as an association list. *)
Fixpoint dict_set (key : Z) (value : string) (d : list (Z * string))
  : list (Z * string) :=
  match d with
  | [] => [(key, value)]
  | (k, v) :: d' =>
      if k =? key then (k, value) :: d' else (k, v) :: dict_set key value d'
  end.

(** [piexif.load(path)]: the two directories of a JPEG file;
    [InvalidImageDataError] is a [ValueError]. *)
Definition piexif_load (path : string)
  : M (list (Z * string) * list (Z * string)) :=
  reading (fun _ root =>
    match lookup root path with
    | Errno k => Raise (OSError k path)
    | Done (Dir _) => Raise (OSError IsADirectoryError path)
    | Done (File f) =>
        if negb (can_read f) then Raise (OSError PermissionError path)
        else match content f with
             | Some img =>
                 if (format img =? "JPEG")%string
                 then Ok (exif_0th img, exif_Exif img)
                 else Raise (ValueError FormatMismatch)
             | None => Raise (ValueError FormatMismatch)
             end
    end).

(** [piexif.insert(piexif.dump(exif_dict), path)]. *)
Definition piexif_insert (exif_dict : list (Z * string) * list (Z * string))
           (path : string) : M unit :=
  writing (fun mach root =>
    of_io path
      (write_file root path (fun old =>
         match old with
         | Some f =>
             if negb (can_read f && can_write f) then Errno PermissionError
             else match content f with
                  | Some img =>
                      Done (mkfile (can_read f) (can_write f)
                              (Some (mkimage (format img) (fst exif_dict)
                                             (snd exif_dict)))
                              (atime f) (clock mach))
                  | None => Errno UnidentifiedImageError
                  end
         | None => Errno FileNotFoundError
         end))).

(** [os.utime(path, (a, m))]; the times of directories are not kept. *)
Definition os_utime (path : string) (a m : Z) : M unit :=
  writing (fun _ root =>
    match lookup root path with
    | Errno k => Raise (OSError k path)
    | Done (Dir _) => Ok root
    | Done (File _) =>
        of_io path
          (write_file root path (fun old =>
             match old with
             | Some f => Done (mkfile (can_read f) (can_write f) (content f) a m)
             | None => Errno FileNotFoundError
             end))
    end).

(** [os.makedirs(path, exist_ok=True)]. *)
Definition os_makedirs (path : string) : M unit :=
  writing (fun _ root => of_io path (makedirs root path)).

(* ================================================================== *)
(** ** The program: [jpeg_date.py] *)

(** [get_image_datetime(image_path)], lines 46-62. *)
Definition get_image_datetime (image_path : string) : M (option datetime) :=
  try_except
    (image <- Image_open image_path ;;
     let exif_data := exif_0th image in
     match find (fun item => tag_name_is (fst item) "DateTime") exif_data with
     | Some (_, value) =>
         t <- lift (strptime value) ;;
         ret (Some t)
     | None =>
         print NoDateTimeFound ;;;
         ret None
     end)
    (fun e =>
       if is_OSError e || is_ValueError e || is_KeyError e
       then Some (print (ErrorReadingImageDatetime e) ;;; ret None)
       else None).

(** [update_exif_with_piexif(image_path, new_datetime)], lines 124-147. *)
Definition update_exif_with_piexif (image_path : string) (new_dt : datetime)
  : M unit :=
  try_except
    (installed <- reading (fun mach _ => Ok (piexif_installed mach)) ;;
     (if installed then ret tt else raise ImportError) ;;;
     exif_dict <- piexif_load image_path ;;
     let datetime_str := strftime new_dt in
     let d0 := dict_set 306 datetime_str (fst exif_dict) in
     let dE := dict_set 36868 datetime_str
                 (dict_set 36867 datetime_str (snd exif_dict)) in
     piexif_insert (d0, dE) image_path ;;;
     print ExifUpdated)
    (fun e =>
       if is_ImportError e
       then Some (print PiexifNotInstalled ;;; print UsingBasicPIL)
       else if is_ValueError e || is_KeyError e || is_OSError e
       then Some (print (ErrorWithPiexif e))
       else None).

(** [new_datetime.timestamp()], line 115: the conversion of the
    machine, which raises [ValueError] where it has no result. *)
Definition datetime_timestamp (t : datetime) : M Z :=
  reading (fun mach _ =>
    match timestamp mach t with
    | Some new_timestamp => Ok new_timestamp
    | None => Raise (ValueError YearOutOfRange)
    end).

(** The source timestamp of [modify_image_datetime], lines 79-85: the
    EXIF date, or else the modification time of the file. *)
Definition current_datetime_of (image_path : string) : M datetime :=
  current_datetime <- get_image_datetime image_path ;;
  match current_datetime with
  | Some t => ret t
  | None =>
      file_time <- os_path_getmtime image_path ;;
      t <- reading (fun mach _ => Ok (fromtimestamp mach file_time)) ;;
      print (UsingFileModificationTime t) ;;;
      ret t
  end.

(** [modify_image_datetime(image_path, new_year, new_month, output_path)],
    lines 65-121. The first [try] yields [None] where the source
    returns [False] from its handler. *)
Definition modify_image_datetime (image_path : string) (new_year : Z)
           (new_month : option Z) (output_path : option string) : M bool :=
  r <- try_except
         (image <- Image_open image_path ;;
          current_datetime <- current_datetime_of image_path ;;
          new_dt <- lift (new_datetime current_datetime new_year new_month) ;;
          print (OriginalDatetime current_datetime) ;;;
          print (NewDatetime new_dt) ;;;
          let output_path :=
            match output_path with Some p => p | None => image_path end in
          (if (format image =? "JPEG")%string
           then Image_save output_path ;;;
                update_exif_with_piexif output_path new_dt
           else print (WarningNotJPEG (format image))) ;;;
          ret (Some (new_dt, output_path)))
         (fun e =>
            if is_OSError e || is_ValueError e
            then Some (print (ErrorModifyingImageDatetime e) ;;; ret None)
            else None) ;;
  match r with
  | None => ret false
  | Some (new_dt, output_path) =>
      try_except
        (new_timestamp <- datetime_timestamp new_dt ;;
         os_utime output_path new_timestamp new_timestamp ;;;
         print (UpdatedFileModificationTime new_dt))
        (fun e =>
           if is_OSError e
           then Some (print (ErrorUpdatingFileModificationTime e))
           else None) ;;;
      ret true
  end.

Definition jpeg_extensions : list string := [".jpg"; ".jpeg"; ".JPG"; ".JPEG"].

(** [is_jpeg_file(file_path)], lines 150-153. *)
Definition is_jpeg_file (file_path : string) : bool :=
  existsb (String.eqb (snd (splitext file_path))) jpeg_extensions.

(** Python compares [str] lexicographically by character code. *)
Module StringOrder <: TotalLeBool.
Definition t := string.
Definition leb (a b : string) : bool := String.leb a b.
Lemma leb_total : forall a b, leb a b = true \/ leb b a = true.
Proof. intros a b. apply String.leb_total. Qed.
End StringOrder.

Module StringSort := Sort StringOrder.

(** [sorted(l)] for a list of [str]. *)
Definition sorted (l : list string) : list string := StringSort.sort l.

(** The paths [find_jpeg_files] collects before sorting, lines 160-172. *)
Definition collect_recursive
           (walked : list (string * list string * list string)) : list string :=
  flat_map (fun '(root, _, files) =>
              filter is_jpeg_file (map (join root) files)) walked.

Definition collect_flat (root : node) (folder_path : string)
           (listing : list string) : list string :=
  filter (fun file_path => isfile_in root file_path && is_jpeg_file file_path)
         (map (join folder_path) listing).

(** [find_jpeg_files(folder_path, recursive)], lines 156-174. *)
Definition find_jpeg_files (folder_path : string) (recursive : bool)
  : M (list string) :=
  if recursive then
    walked <- os_walk folder_path ;;
    ret (sorted (collect_recursive walked))
  else
    listing <- os_listdir folder_path ;;
    jpeg_files <- reading (fun _ root =>
                    Ok (collect_flat root folder_path listing)) ;;
    ret (sorted jpeg_files).

(** The body of the dry-run loop of [process_folder], lines 205-214. *)
Definition dry_run_item (new_year : Z) (new_month : option Z)
           (item : Z * string) : M unit :=
  let '(i, file_path) := item in
  print (DryRunItem i (basename file_path)) ;;;
  current_dt <- get_image_datetime file_path ;;
  match current_dt with
  | Some t =>
      new_dt <- lift (new_datetime t new_year new_month) ;;
      print (DryRunChange t new_dt)
  | None => print NoExifDatetimeFound
  end.

(** Truth value of an optional text: [None] and [''] are false. *)
Definition truthy (s : option string) : option string :=
  match s with
  | Some EmptyString => None
  | other => other
  end.

(** Where a file of the batch is written, lines 225-240: [None] stands
    for the file itself; with an output folder, the folder and the
    sub-directories of the mirrored path are created. *)
Definition output_path_for (folder_path : string)
           (output_folder : option string) (recursive : bool)
           (file_path : string) : M (option string) :=
  match truthy output_folder with
  | Some out =>
      os_makedirs out ;;;
      if recursive then
        rel_path <- lift (relpath file_path folder_path) ;;
        let output_path := join out rel_path in
        os_makedirs (dirname output_path) ;;;
        ret (Some output_path)
      else ret (Some (join out (basename file_path)))
  | None => ret None
  end.

(** The body of the processing loop of [process_folder], lines 222-254;
    the state is [(success_count, error_count)]. *)
Definition process_item (folder_path : string) (new_year : Z)
           (new_month : option Z) (output_folder : option string)
           (recursive : bool) (total : Z) (item : Z * string)
           (counts : Z * Z) : M (Z * Z) :=
  let '(i, file_path) := item in
  let '(success_count, error_count) := counts in
  print (Processing i total (basename file_path)) ;;;
  try_except
    (output_path <-
       output_path_for folder_path output_folder recursive file_path ;;
     success <- modify_image_datetime file_path new_year new_month output_path ;;
     if success
     then print SuccessfullyProcessed ;;; ret (success_count + 1, error_count)
     else print FailedToProcess ;;; ret (success_count, error_count + 1))
    (fun e =>
       if is_OSError e || is_ValueError e
       then Some (print (ErrorProcessing file_path e) ;;;
                  ret (success_count, error_count + 1))
       else None).

(** [process_folder(folder_path, new_year, new_month, output_folder,
    recursive, dry_run)], lines 177-261; the result is
    [(success_count, error_count, total_files)]. *)
Definition process_folder (folder_path : string) (new_year : Z)
           (new_month : option Z) (output_folder : option string)
           (recursive dry_run : bool) : M (Z * Z * Z) :=
  jpeg_files <- find_jpeg_files folder_path recursive ;;
  match jpeg_files with
  | [] =>
      print (NoJpegFilesFound recursive folder_path) ;;;
      ret (0, 0, 0)
  | _ =>
      print (FoundJpegFiles (len jpeg_files) folder_path) ;;;
      (if recursive then print ProcessingRecursively else ret tt) ;;;
      if dry_run then
        print DryRunModeBatch ;;;
        for_each (enumerate jpeg_files 1) (dry_run_item new_year new_month) ;;;
        print (WouldProcess (len jpeg_files)) ;;;
        ret (0, 0, len jpeg_files)
      else
        '(success_count, error_count) <-
          for_fold (enumerate jpeg_files 1) (0, 0)
                   (process_item folder_path new_year new_month output_folder
                                 recursive (len jpeg_files)) ;;
        print Summary ;;;
        print (TotalFiles (len jpeg_files)) ;;;
        print (SuccessfullyProcessedCount success_count) ;;;
        print (Errors error_count) ;;;
        ret (success_count, error_count, len jpeg_files)
  end.

(** The parsed command line. *)
Record arguments : Type := mkarguments {
  arg_path : string;
  arg_new_year : Z;
  arg_new_month : option Z;
  arg_output : option string;
  arg_show_current : bool;
  arg_recursive : bool;
  arg_dry_run : bool
}.

Definition sys_exit {A} (code : Z) : M A := raise (SystemExit code).

(** The display of one file under [--show-current], lines 304-310 and
    317-323. *)
Definition show_current_datetime (file_path : string)
           (found : datetime -> message) (fallback : datetime -> message)
  : M unit :=
  current_dt <- get_image_datetime file_path ;;
  match current_dt with
  | Some t => print (found t)
  | None =>
      file_time <- os_path_getmtime file_path ;;
      t <- reading (fun mach _ => Ok (fromtimestamp mach file_time)) ;;
      print (fallback t)
  end.

(** [main()], lines 264-372, from the parsed arguments on. *)
Definition main (args : arguments) : M unit :=
  present <- os_path_exists (arg_path args) ;;
  (if negb present
   then print (PathNotFound (arg_path args)) ;;; sys_exit 1 else ret tt) ;;;
  (match arg_new_month args with
   | Some m => if negb (in_range 1 m 12)
               then print MonthMustBeBetween1And12 ;;; sys_exit 1 else ret tt
   | None => ret tt
   end) ;;;
  (if (arg_new_year args <? 1900) || (2100 <? arg_new_year args)
   then print YearSeemsUnrealistic ;;; sys_exit 1 else ret tt) ;;;
  is_folder <- os_path_isdir (arg_path args) ;;
  if arg_show_current args then
    (if is_folder then
       jpeg_files <- find_jpeg_files (arg_path args) (arg_recursive args) ;;
       match jpeg_files with
       | [] => print (NoJpegFilesFoundIn (arg_path args)) ;;; sys_exit 1
       | _ =>
           print (FoundJpegFilesList (len jpeg_files)) ;;;
           for_each jpeg_files (fun file_path =>
             show_current_datetime file_path
               (ShowDatetime (basename file_path))
               (ShowFileTime (basename file_path)))
       end
     else
       (if negb (is_jpeg_file (arg_path args))
        then print (NotAJpegFile (arg_path args)) ;;; sys_exit 1 else ret tt) ;;;
       show_current_datetime (arg_path args)
         CurrentImageDatetime CurrentFileModificationTime) ;;;
    sys_exit 0
  else if is_folder then
    '(success_count, error_count, total_files) <-
      process_folder (arg_path args) (arg_new_year args) (arg_new_month args)
                     (arg_output args) (arg_recursive args) (arg_dry_run args) ;;
    (if arg_dry_run args then sys_exit 0 else ret tt) ;;;
    if 0 <? error_count
    then print (CompletedWithErrors error_count total_files) ;;; sys_exit 1
    else print (AllProcessed success_count)
  else
    (if negb (is_jpeg_file (arg_path args))
     then print (NotAJpegFile (arg_path args)) ;;; sys_exit 1 else ret tt) ;;;
    if arg_dry_run args then
      print DryRunModeSingle ;;;
      current_dt <- get_image_datetime (arg_path args) ;;
      match current_dt with
      | Some t =>
          new_dt <- lift (new_datetime t (arg_new_year args) (arg_new_month args)) ;;
          print (WouldChange t new_dt)
      | None => print NoExifDatetimeFound
      end ;;;
      sys_exit 0
    else
      success <- modify_image_datetime (arg_path args) (arg_new_year args)
                   (arg_new_month args) (arg_output args) ;;
      if success then print ModifiedSuccessfully
      else print FailedToModify ;;; sys_exit 1.

(* ================================================================== *)
(** ** Vocabulary of the properties *)

(** The requested year is one a [datetime] can hold, the target month is
    a month, and the day of [T] exists in the target month. *)
Definition valid_substitution (T : datetime) (Y : Z) (M_ : option Z) : Prop :=
  MINYEAR <= Y <= MAXYEAR /\
  1 <= target_month T M_ <= 12 /\
  1 <= day T <= _days_in_month Y (target_month T M_).

Definition may_17_2019 : datetime := mkdatetime 2019 5 17 10 0 0 0.


(** [s.lower()] on the letters A-Z. *)
Definition ascii_lower (c : ascii) : ascii :=
  let n := N_of_ascii c in
  if (65 <=? n)%N && (n <=? 90)%N then ascii_of_N (n + 32) else c.

Fixpoint lower (s : string) : string :=
  match s with
  | EmptyString => EmptyString
  | String a s' => String (ascii_lower a) (lower s')
  end.

(** The extension matches [.jpg] or [.jpeg] whatever the case of its
    letters. *)
Definition extension_matches_ignoring_case (path : string) : bool :=
  existsb (String.eqb (lower (snd (splitext path)))) [".jpg"; ".jpeg"].


(** [w'] differs from [w] by printed text only: same machine, same file
    system, the output of [w] followed by more. *)
Definition unchanged (w w' : world) : Prop :=
  machine w' = machine w /\ fs w' = fs w /\
  exists out, stdout w' = (stdout w ++ out)%list.

(** A computation that only reads and prints, whatever its outcome. *)
Definition read_only {A} (m : M A) : Prop :=
  forall w, unchanged w (snd (m w)).

(** A computation whose exceptions all satisfy [P]. *)
Definition raises_only {A} (P : exn -> bool) (m : M A) : Prop :=
  forall w e, fst (m w) = Raise e -> P e = true.

Definition no_exception (e : exn) : bool := false.
Definition os_or_value_error (e : exn) : bool := is_OSError e || is_ValueError e.
(** The year and the month given both fit a C [int]. *)
Definition fits_c_int (new_year : Z) (new_month : option Z) : bool :=
  c_int new_year && keyword_fits new_month.

(** What [replace] raises for the year and month given: [OverflowError]
    when one of them does not fit a C [int], [ValueError] otherwise. *)
Definition replace_error (new_year : Z) (new_month : option Z) (e : exn)
  : bool :=
  if fits_c_int new_year new_month then is_ValueError e
  else is_OverflowError e.

(** The [OverflowError] of a year or month that does not fit. *)
Definition overflow_of (new_year : Z) (new_month : option Z) (e : exn)
  : bool :=
  is_OverflowError e && negb (fits_c_int new_year new_month).


(** A computation whose returned values all satisfy [P]. *)
Definition returns_only {A} (P : A -> Prop) (m : M A) : Prop :=
  forall w a, fst (m w) = Ok a -> P a.


(** [w] with more printed text. *)
Definition printed (w : world) (out : list message) : world :=
  mkworld (machine w) (fs w) (stdout w ++ out)%list.

(** The program may have written files: same machine, the output of
    [w] followed by more. *)
Definition extends (w w' : world) : Prop :=
  machine w' = machine w /\ exists out, stdout w' = (stdout w ++ out)%list.

Definition steady {A} (m : M A) : Prop := forall w, extends w (snd (m w)).

(** The main EXIF directory has no [DateTime] tag. *)
Definition no_datetime_field (img : image) : Prop :=
  find (fun item => tag_name_is (fst item) "DateTime") (exif_0th img) = None.

(** [path] names a regular file that cannot be opened as an image: the
    process may not read it, or no image format is recognised in it. *)
Definition unreadable_or_corrupt (w : world) (path : string) : Prop :=
  exists f, lookup (fs w) path = Done (File f) /\
            (can_read f = false \/ content f = None).

(** Nothing is found at [path]. *)
Definition does_not_exist (w : world) (path : string) : Prop :=
  exists k, lookup (fs w) path = Errno k.

(* ================================================================== *)
(** ** A machine for the examples *)

(** A machine on UTC with piexif installed. *)
Definition example_machine : platform :=
  mkplatform utc_fromtimestamp utc_datetime_timestamp true 1700000000000000.

Definition jpeg_dated (date : string) : node :=
  File (mkfile true true
          (Some (mkimage "JPEG" [(271, "Canon"); (306, date)] [(36867, date)]))
          1558087200000000 1558087200000000).

(** A JPEG whose metadata has no [DateTime] tag, last modified on
    2019-05-17 10:00:00 UTC. *)
Definition jpeg_undated : node :=
  File (mkfile true true (Some (mkimage "JPEG" [(271, "Canon")] []))
          1558087200000000 1558087200000000).

(** A file whose bytes are no image. *)
Definition corrupt_file : node :=
  File (mkfile true true None 1558087200000000 1558087200000000).

Definition example_root : node :=
  Dir [ ("a.jpg", jpeg_dated "2019:05:17 10:00:00");
        ("broken.jpg", corrupt_file);
        ("plain.jpg", jpeg_undated);
        ("leap", Dir [ ("later.jpg", jpeg_dated "2021:03:05 09:30:00");
                       ("feb29.jpg", jpeg_dated "2020:01:29 08:00:00") ]);
        ("trip", Dir [ ("3.jpeg", jpeg_dated "2017:01:01 00:00:00");
                       ("notes.txt", corrupt_file);
                       ("1.jpg", jpeg_dated "2019:05:17 10:00:00");
                       ("2.jpg", jpeg_dated "2018:12:31 23:59:59") ]);
        ("photos", Dir [ ("b.JPG", jpeg_dated "2018:07:04 12:00:00");
                         ("notes.txt", corrupt_file);
                         ("c.jpeg", jpeg_undated);
                         ("e.Jpg", jpeg_undated);
                         ("x.jpg", Dir []);
                         ("sub", Dir [ ("d.jpg", jpeg_dated "2017:11:30 23:59:59");
                                       ("readme.md", corrupt_file) ]) ]) ].

Definition example_world : world := mkworld example_machine example_root [].


Fixpoint has_slash (s : string) : bool :=
  match s with
  | EmptyString => false
  | String a s' => Ascii.eqb a slash || has_slash s'
  end.

(** The names a directory can hold: not empty, not [.] or [..], and
    without a slash. *)
Definition entry_name_ok (name : string) : bool :=
  plain_name name && negb (has_slash name).

(** The entries of a directory have distinct names that a directory can
    hold. *)
Definition listing_ok (es : list (string * node)) : Prop :=
  NoDup (map fst es) /\ Forall (fun e => entry_name_ok (fst e) = true) es.

(** The regular files at any depth below the node reached as [top],
    each named by the path that leads to it from [top]. *)
Fixpoint files_below (top : string) (x : node) : list string :=
  match x with
  | File _ => []
  | Dir es =>
      (fix each (l : list (string * node)) : list string :=
         match l with
         | [] => []
         | (name, child) :: l' =>
             (match child with
              | File _ => [join top name]
              | Dir _ => files_below (join top name) child
              end ++ each l')%list
         end) es
  end.

(** The files of a folder with entries [es], reached as [folder]: its
    direct children, or all the files below it. *)
Definition files_in (recursive : bool) (folder : string)
           (es : list (string * node)) : list string :=
  if recursive then files_below folder (Dir es)
  else map (join folder) (filenames es).

(** The order of [str], as a relation. *)
Definition path_le (a b : string) : Prop := String.leb a b = true.


(** A test for [listing_ok]. *)
Fixpoint distinct (l : list string) : bool :=
  match l with
  | [] => true
  | x :: l' => negb (existsb (String.eqb x) l') && distinct l'
  end.

Definition listing_okb (es : list (string * node)) : bool :=
  distinct (map fst es) && forallb (fun e => entry_name_ok (fst e)) es.


(** The dry run can show the change for [path]: the reader finds no
    date, or the transform of the date it finds succeeds. *)
Definition dry_run_safe (w : world) (Y : Z) (M_ : option Z) (path : string)
  : Prop :=
  match fst (get_image_datetime path w) with
  | Ok (Some t) => exists t', new_datetime t Y M_ = Ok t'
  | _ => True
  end.


(** Every character of the text is a dot (so for the empty text). *)
Fixpoint all_dots (s : string) : bool :=
  match s with
  | EmptyString => true
  | String a s' => Ascii.eqb a dot && all_dots s'
  end.

(** [len(s)] for a text. *)
Definition slen (s : string) : Z := Z.of_nat (String.length s).


(* ================================================================== *)
(** ** A second machine for the examples *)

(** A JPEG whose [DateTime] text is not in the EXIF format. *)
Definition jpeg_garbled : node :=
  File (mkfile true true
          (Some (mkimage "JPEG" [(306, "2019-05-17 10:00:00")] []))
          1558087200000000 1558087200000000).

(** A PNG image under a JPEG name, dated like an EXIF file. *)
Definition png_dated (date : string) : node :=
  File (mkfile true true (Some (mkimage "PNG" [(306, date)] []))
          1558087200000000 1558087200000000).

(** A JPEG the process may read and not write. *)
Definition jpeg_locked (date : string) : node :=
  File (mkfile true false
          (Some (mkimage "JPEG" [(306, date)] []))
          1558087200000000 1558087200000000).

Definition second_root : node :=
  Dir [ ("garbled.jpg", jpeg_garbled);
        ("scan.jpg", png_dated "2019:05:17 10:00:00");
        ("locked.jpg", jpeg_locked "2019:05:17 10:00:00");
        ("notes.txt", corrupt_file);
        ("empty", Dir []);
        ("docs", Dir [ ("readme.md", corrupt_file); ("todo.txt", corrupt_file) ]);
        ("album", Dir [ ("z.jpg", jpeg_dated "2016:08:09 07:06:05");
                        ("a.JPG", jpeg_dated "2015:01:02 03:04:05");
                        ("day1", Dir [ ("m.jpeg", jpeg_dated "2014:12:31 23:59:59");
                                       ("deep", Dir [ ("q.jpg", jpeg_undated) ]) ]);
                        ("cover.png", corrupt_file) ]) ].

Definition second_world : world := mkworld example_machine second_root [].

(** The same files on a machine where [import piexif] fails. *)
Definition machine_without_piexif : platform :=
  mkplatform utc_fromtimestamp utc_datetime_timestamp false 1700000000000000.

Definition world_without_piexif : world :=
  mkworld machine_without_piexif second_root [].


(** No component of the path is [..]. *)
Definition no_dotdot (path : string) : bool :=
  forallb (fun c => negb (c =? "..")%string) (split_slash path).

(** The month and the year of the command line pass the checks of
    [main], lines 283-289. *)
Definition month_ok (args : arguments) : Prop :=
  match arg_new_month args with
  | Some m => 1 <= m <= 12
  | None => True
  end.

Definition year_ok (args : arguments) : Prop :=
  1900 <= arg_new_year args <= 2100.

(** The command line is rejected by [main] with the given line, in the
    order of the checks: the path, the month, the year, and for a path
    that is not a folder the extension of its name. *)
Inductive rejected (args : arguments) (root : node) : message -> Prop :=
| rejected_path (k : os_error) :
    lookup root (arg_path args) = Errno k ->
    rejected args root (PathNotFound (arg_path args))
| rejected_month (x : node) (m : Z) :
    lookup root (arg_path args) = Done x ->
    arg_new_month args = Some m -> ~ 1 <= m <= 12 ->
    rejected args root MonthMustBeBetween1And12
| rejected_year (x : node) :
    lookup root (arg_path args) = Done x -> month_ok args ->
    ~ year_ok args ->
    rejected args root YearSeemsUnrealistic
| rejected_name (f : file) :
    lookup root (arg_path args) = Done (File f) -> month_ok args ->
    year_ok args -> is_jpeg_file (arg_path args) = false ->
    rejected args root (NotAJpegFile (arg_path args)).



(** The text [os.path.join] puts before a relative name: the folder
    and, unless the folder is empty or ends with one, a slash. *)
Definition dir_prefix (folder : string) : string :=
  if (folder =? "")%string || endswith_slash folder then folder
  else (folder ++ "/")%string.

(** Every directory of the tree has entries with distinct names that a
    directory can hold. *)
Fixpoint tree_ok (x : node) : bool :=
  match x with
  | File _ => true
  | Dir es =>
      listing_okb es &&
      (fix all (l : list (string * node)) : bool :=
         match l with
         | [] => true
         | (_, child) :: l' => tree_ok child && all l'
         end) es
  end.

(** The regular files at any depth below a node, each given by the
    chain of entry names that leads to it. *)
Fixpoint chains_below (x : node) : list (list string) :=
  match x with
  | File _ => []
  | Dir es =>
      (fix each (l : list (string * node)) : list (list string) :=
         match l with
         | [] => []
         | (name, child) :: l' =>
             (match child with
              | File _ => [[name]]
              | Dir _ => map (cons name) (chains_below child)
              end ++ each l')%list
         end) es
  end.

(** The same folder with its two entries listed in the other order. *)
Definition reordered_root : node :=
  Dir [ ("a.jpg", jpeg_dated "2019:05:17 10:00:00");
        ("leap", Dir [ ("feb29.jpg", jpeg_dated "2020:01:29 08:00:00");
                       ("later.jpg", jpeg_dated "2021:03:05 09:30:00") ]) ].

Definition reordered_world : world := mkworld example_machine reordered_root [].

(** A path component that names the directory it is met in. *)
Definition noop_component (c : string) : bool :=
  (c =? "")%string || (c =? ".")%string.

Definition strip (cs : list string) : list string :=
  filter (fun c => negb (noop_component c)) cs.

(** The components of a path that name entries: two paths without [..]
    with the same components lead to the same entry. *)
Definition components (path : string) : list string :=
  strip (split_slash path).

(** Resolution of components without [..], from a node down. *)
Fixpoint resolve (cs : list string) (x : node) : io node :=
  match cs with
  | [] => Done x
  | c :: cs' =>
      match x with
      | File _ => Errno NotADirectoryError
      | Dir es =>
          if noop_component c then resolve cs' x
          else match assoc c es with
               | Some child => resolve cs' child
               | None => Errno FileNotFoundError
               end
      end
  end.

(** The tree in which the directory reached by [cs] has [x'] as its
    entry [name]. *)
Fixpoint put (cs : list string) (name : string) (x' : node) (x : node) : node :=
  match cs with
  | [] =>
      match x with
      | Dir es => Dir (set_assoc name x' es)
      | File _ => x
      end
  | c :: cs' =>
      match x with
      | File _ => x
      | Dir es =>
          if noop_component c then put cs' name x' x
          else match assoc c es with
               | Some child => Dir (set_assoc c (put cs' name x' child) es)
               | None => x
               end
      end
  end.

(** The entry [name] of the directory reached by [cs] is no directory. *)
Definition entry_not_dir (cs : list string) (name : string) (x : node) : Prop :=
  forall es sub, resolve cs x = Done (Dir es) -> assoc name es <> Some (Dir sub).

(** Every regular file of [root] that none of [paths] leads to is found
    unchanged in [root']. *)
Definition kept (paths : list string) (root root' : node) : Prop :=
  forall q g,
    no_dotdot q = true ->
    (forall p, In p paths -> components p <> components q) ->
    lookup root q = Done (File g) -> lookup root' q = Done (File g).

(** A computation that, whatever its outcome, leaves alone the regular
    files that none of [paths] leads to. *)
Definition keeps_files_outside {A} (paths : list string) (m : M A) : Prop :=
  forall w, kept paths (fs w) (fs (snd (m w))).

(** The tree after [os.makedirs] along components without [..]: every
    missing directory on the way is added, nothing else is changed. *)
Fixpoint mkd (cs : list string) (x : node) : node :=
  match cs with
  | [] => x
  | c :: cs' =>
      match x with
      | File _ => x
      | Dir es =>
          if noop_component c then mkd cs' x
          else match assoc c es with
               | Some child => Dir (set_assoc c (mkd cs' child) es)
               | None =>
                   Dir (set_assoc c (mkd cs' (Dir []))
                                  (set_assoc c (Dir []) es))
               end
      end
  end.

(** A relative path that [os.path.join] extends by a slash and a name. *)
Definition relative_ok (s : string) : Prop :=
  s <> "" /\ startswith_slash s = false /\ endswith_slash s = false.

(** A computation that, whatever its outcome, leaves the regular file
    at [q] as it is. *)
Definition keeps_file {A} (q : string) (m : M A) : Prop :=
  forall w g,
    lookup (fs w) q = Done (File g) ->
    lookup (fs (snd (m w))) q = Done (File g).




(** [d.get(key)] on a dictionary kept as an association list. *)
Definition dict_get (key : Z) (d : list (Z * string)) : option string :=
  match find (fun e => fst e =? key) d with
  | Some (_, v) => Some v
  | None => None
  end.

(* ================================================================== *)
(** * Properties *)

(** ** The date transform *)

Section DateTransform.

Variables (T : datetime) (Y : Z) (M_ : option Z).

Lemma in_range_true lo x hi : in_range lo x hi = true <-> lo <= x <= hi.
Proof. unfold in_range. rewrite andb_true_iff, !Z.leb_le. tauto. Qed.

Lemma in_range_false lo x hi : in_range lo x hi = false <-> ~ lo <= x <= hi.
Proof.
  rewrite <- in_range_true. destruct (in_range lo x hi); split; congruence.
Qed.

Lemma c_int_true n : c_int n = true <-> -2147483648 <= n <= 2147483647.
Proof. apply in_range_true. Qed.

Lemma new_datetime_unfold :
  new_datetime T Y M_ =
  if c_int Y && keyword_fits M_
  then datetime_new Y (target_month T M_) (day T) (hour T) (minute T)
                    (second T) (microsecond T)
  else Raise OverflowError.
Proof. destruct M_; reflexivity. Qed.

(** With a year and a month that fit a C [int] the transform is the
    constructor on the substituted fields. *)
Lemma new_datetime_fits :
  c_int Y = true -> keyword_fits M_ = true ->
  new_datetime T Y M_ =
  datetime_new Y (target_month T M_) (day T) (hour T) (minute T) (second T)
               (microsecond T).
Proof. intros HY HM. now rewrite new_datetime_unfold, HY, HM. Qed.

Lemma new_datetime_returns T' :
  new_datetime T Y M_ = Ok T' ->
  datetime_new Y (target_month T M_) (day T) (hour T) (minute T) (second T)
               (microsecond T) = Ok T'.
Proof.
  rewrite new_datetime_unfold. now destruct (c_int Y && keyword_fits M_).
Qed.

(** A year and a target month in the range of the calendar fit a C
    [int]. *)
Lemma calendar_fits :
  MINYEAR <= Y <= MAXYEAR -> 1 <= target_month T M_ <= 12 ->
  c_int Y = true /\ keyword_fits M_ = true.
Proof.
  unfold MINYEAR, MAXYEAR. intros HY HM. split.
  - apply c_int_true. lia.
  - destruct M_ as [m|]; [|reflexivity]. apply c_int_true. cbn in HM. lia.
Qed.

Lemma valid_time_fields :
  valid_datetime T ->
  _check_time_fields (hour T) (minute T) (second T) (microsecond T) = Ok tt.
Proof.
  unfold valid_datetime, datetime_new, rbind. intros H.
  destruct (_check_date_fields _ _ _); [|discriminate].
  destruct (_check_time_fields _ _ _ _) as [[]|]; [reflexivity|discriminate].
Qed.

Lemma check_date_fields_ok y m d :
  MINYEAR <= y <= MAXYEAR -> 1 <= m <= 12 -> 1 <= d <= _days_in_month y m ->
  _check_date_fields y m d = Ok tt.
Proof.
  intros Hy Hm Hd. unfold _check_date_fields.
  apply in_range_true in Hy, Hm, Hd. now rewrite Hy, Hm, Hd.
Qed.

(** The transform succeeds on a valid substitution and yields the
    record with the two fields replaced. *)
Lemma new_datetime_ok :
  valid_datetime T -> valid_substitution T Y M_ ->
  new_datetime T Y M_ =
  Ok (mkdatetime Y (target_month T M_) (day T) (hour T) (minute T)
                 (second T) (microsecond T)).
Proof.
  intros HT (Hy & Hm & Hd).
  destruct (calendar_fits Hy Hm) as [HcY HcM].
  rewrite (new_datetime_fits HcY HcM).
  unfold datetime_new.
  rewrite (check_date_fields_ok _ _ _ Hy Hm Hd), (valid_time_fields HT).
  reflexivity.
Qed.

(** Whatever the transform returns has the day and the time of day of
    its source, the requested year and the target month. *)
Lemma new_datetime_fields T' :
  new_datetime T Y M_ = Ok T' ->
  T' = mkdatetime Y (target_month T M_) (day T) (hour T) (minute T)
                  (second T) (microsecond T).
Proof.
  intros H. apply new_datetime_returns in H. revert H.
  unfold datetime_new, rbind.
  destruct (_check_date_fields _ _ _); [|discriminate].
  destruct (_check_time_fields _ _ _ _); [|discriminate].
  congruence.
Qed.

(** The result of the transform is a fixed point of the transform, and
    an error of the transform is what the composition gives too. *)
Lemma new_datetime_twice :
  rbind (new_datetime T Y M_) (fun T' => new_datetime T' Y M_)
  = new_datetime T Y M_.
Proof.
  destruct (new_datetime T Y M_) as [T'|e] eqn:E; [|reflexivity].
  cbn. pose proof (new_datetime_fields _ E) as ->.
  rewrite <- E. rewrite !new_datetime_unfold.
  destruct M_; reflexivity.
Qed.

(** A day that the target month does not have makes the transform
    raise [ValueError]. *)
Lemma new_datetime_overflow :
  MINYEAR <= Y <= MAXYEAR -> 1 <= target_month T M_ <= 12 ->
  _days_in_month Y (target_month T M_) < day T ->
  new_datetime T Y M_ = Raise (ValueError DayOutOfRange).
Proof.
  intros Hy Hm Hd.
  destruct (calendar_fits Hy Hm) as [HcY HcM].
  rewrite (new_datetime_fits HcY HcM).
  unfold datetime_new, _check_date_fields.
  apply in_range_true in Hy, Hm. rewrite Hy, Hm. cbn.
  assert (in_range 1 (day T) (_days_in_month Y (target_month T M_)) = false)
    as -> by (apply in_range_false; lia).
  reflexivity.
Qed.

End DateTransform.


(* ================================================================== *)
(** ** The file classifier *)

Lemma str_take_drop n s : (str_take n s ++ str_drop n s)%string = s.
Proof.
  revert s. induction n as [|n IH]; intros s; [reflexivity|].
  destruct s as [|a s]; [reflexivity|]. cbn. now rewrite IH.
Qed.

Lemma _splitext_loop_app p dotIndex n i :
  (fst (_splitext_loop p dotIndex n i) ++ snd (_splitext_loop p dotIndex n i))%string
  = p.
Proof.
  revert i. induction n as [|n IH]; intros i; cbn.
  - clear. induction p; cbn; congruence.
  - destruct (negb _); [apply str_take_drop | apply IH].
Qed.

(** [splitext] cuts the path in two: root and extension. *)
Lemma splitext_app p : (fst (splitext p) ++ snd (splitext p))%string = p.
Proof.
  unfold splitext. destruct (_ <? _).
  - apply _splitext_loop_app.
  - cbn. clear. induction p; cbn; congruence.
Qed.

Lemma existsb_eqb_In (x : string) (l : list string) :
  existsb (String.eqb x) l = true <-> In x l.
Proof.
  rewrite existsb_exists. split.
  - intros (y & Hy & E). apply String.eqb_eq in E. now subst.
  - intros H. exists x. split; [assumption | apply String.eqb_refl].
Qed.

(** The classifier accepts exactly the four spellings of its set. *)
Lemma is_jpeg_file_spec p :
  is_jpeg_file p = true <-> In (snd (splitext p)) jpeg_extensions.
Proof. apply existsb_eqb_In. Qed.

(* ================================================================== *)
(** ** The extension of a path *)

Lemma rfind_bounds c s : -1 <= rfind c s < slen s.
Proof.
  unfold slen. induction s as [|a s IH]; cbn [rfind String.length]; [lia|].
  destruct (0 <=? rfind c s) eqn:E; [apply Z.leb_le in E; lia|].
  destruct (Ascii.eqb a c); lia.
Qed.

(** The last occurrence in a concatenation is in the second part when
    there is one there, in the first part otherwise. *)
Lemma rfind_app c a b :
  rfind c (a ++ b) =
  if 0 <=? rfind c b then slen a + rfind c b else rfind c a.
Proof.
  unfold slen. induction a as [|x a IH]; cbn [String.append rfind String.length].
  - destruct (0 <=? rfind c b) eqn:E; [lia|].
    apply Z.leb_gt in E. pose proof (rfind_bounds c b). lia.
  - rewrite IH. destruct (0 <=? rfind c b) eqn:E.
    + apply Z.leb_le in E.
      assert ((0 <=? Z.of_nat (String.length a) + rfind c b) = true) as ->
        by (apply Z.leb_le; lia).
      lia.
    + reflexivity.
Qed.

Lemma length_app (a b : string) :
  String.length (a ++ b) = (String.length a + String.length b)%nat.
Proof. induction a as [|x a IH]; cbn; [reflexivity | now rewrite IH]. Qed.

Lemma str_drop_app a b : str_drop (String.length a) (a ++ b) = b.
Proof. induction a as [|x a IH]; cbn; [now destruct b | exact IH]. Qed.

Lemma str_take_app a b : str_take (String.length a) (a ++ b) = a.
Proof. induction a as [|x a IH]; cbn; [reflexivity | now rewrite IH]. Qed.

Lemma str_drop_app_le n a b :
  (n <= String.length a)%nat -> str_drop n (a ++ b) = (str_drop n a ++ b)%string.
Proof.
  revert a. induction n as [|n IH]; intros a H; [now destruct a|].
  destruct a as [|x a]; cbn in *; [lia|]. apply IH. lia.
Qed.

Lemma str_take_all s : str_take (String.length s) s = s.
Proof. induction s as [|x s IH]; cbn; [reflexivity | now rewrite IH]. Qed.

Lemma str_take_app_le n a b :
  (n <= String.length a)%nat -> str_take n (a ++ b) = str_take n a.
Proof.
  revert a. induction n as [|n IH]; intros a H; [reflexivity|].
  destruct a as [|x a]; cbn in *; [lia|]. now rewrite IH by lia.
Qed.

Lemma length_str_drop n s :
  String.length (str_drop n s) = (String.length s - n)%nat.
Proof.
  revert s. induction n as [|n IH]; intros s; cbn; [lia|].
  destruct s as [|x s]; cbn; [reflexivity | apply IH].
Qed.

(** The loop of [splitext] looks for a character that is not a dot
    among the [n] characters from [filenameIndex] on. *)
Lemma _splitext_loop_spec p dotIndex n i :
  (i + n <= String.length p)%nat ->
  _splitext_loop p dotIndex n (Z.of_nat i) =
  if all_dots (str_take n (str_drop i p)) then (p, EmptyString)
  else (str_take (Z.to_nat dotIndex) p, str_drop (Z.to_nat dotIndex) p).
Proof.
  revert i. induction n as [|n IH]; intros i H; [reflexivity|].
  cbn [_splitext_loop]. unfold slice.
  replace (Z.of_nat i + 1 - Z.of_nat i) with 1 by lia.
  rewrite Nat2Z.id. change (Z.to_nat 1) with 1%nat.
  pose proof (length_str_drop i p) as Hlen.
  destruct (str_drop i p) as [|a r] eqn:E; cbn [String.length] in Hlen; [lia|].
  assert (Hr : r = str_drop (S i) p).
  { clear - E. revert p E. induction i as [|i IH]; intros p E.
    - cbn in E. subst. reflexivity.
    - destruct p as [|x p]; [discriminate|]. cbn in E. cbn. now apply IH. }
  cbn [str_take all_dots].
  replace (Z.of_nat i + 1) with (Z.of_nat (S i)) by lia.
  rewrite IH by lia. rewrite <- Hr.
  destruct (Ascii.eqb a dot) eqn:Ea.
  - apply Ascii.eqb_eq in Ea. subst a. reflexivity.
  - assert ((String a "" =? ".")%string = false) as ->.
    { apply String.eqb_neq. intros [= ->]. now rewrite Ascii.eqb_refl in Ea. }
    reflexivity.
Qed.

Lemma basename_eq stem :
  basename stem = str_drop (Z.to_nat (rfind slash stem + 1)) stem.
Proof. reflexivity. Qed.

Lemma jpeg_extension_shape ext :
  In ext jpeg_extensions ->
  rfind dot ext = 0 /\ rfind slash ext = -1 /\ ext <> EmptyString.
Proof.
  unfold jpeg_extensions. cbn.
  intros [<-|[<-|[<-|[<-|[]]]]]; repeat split; discriminate.
Qed.

(** The extension of [stem ++ ext], for [ext] a dot followed by
    letters: it is [ext] when the last component of [stem] has a
    character that is not a dot, and empty otherwise. *)
Lemma splitext_stem_ext stem ext :
  rfind dot ext = 0 -> rfind slash ext = -1 ->
  splitext (stem ++ ext) =
  if all_dots (basename stem) then ((stem ++ ext)%string, EmptyString)
  else (stem, ext).
Proof.
  intros Hdot Hslash. unfold splitext.
  rewrite (rfind_app slash), (rfind_app dot), Hdot, Hslash. cbn [Z.leb Z.compare].
  rewrite Z.add_0_r. pose proof (rfind_bounds slash stem) as Hb.
  assert ((rfind slash stem <? slen stem) = true) as -> by (apply Z.ltb_lt; lia).
  set (k := Z.to_nat (rfind slash stem + 1)).
  replace (rfind slash stem + 1) with (Z.of_nat k) by (unfold k; lia).
  assert (Hk : (k <= String.length stem)%nat) by (unfold k, slen in *; lia).
  replace (Z.to_nat (slen stem - Z.of_nat k))
    with (String.length stem - k)%nat by (unfold slen; lia).
  rewrite _splitext_loop_spec
    by (rewrite length_app; lia).
  rewrite str_drop_app_le by assumption.
  rewrite str_take_app_le by (rewrite length_str_drop; lia).
  rewrite <- (length_str_drop k stem), str_take_all.
  rewrite basename_eq. fold k.
  unfold slen. rewrite Nat2Z.id, str_take_app, str_drop_app. reflexivity.
Qed.

(** The paths the classifier accepts: a stem whose last component has a
    character that is not a dot, followed by one of the four
    extensions. *)
Lemma is_jpeg_file_shape p :
  is_jpeg_file p = true <->
  exists stem ext, p = (stem ++ ext)%string /\ In ext jpeg_extensions /\
                   all_dots (basename stem) = false.
Proof.
  split.
  - intros H. apply is_jpeg_file_spec in H.
    exists (fst (splitext p)), (snd (splitext p)).
    split; [symmetry; apply splitext_app|]. split; [exact H|].
    destruct (jpeg_extension_shape _ H) as (Hd & Hs & Hne).
    pose proof (splitext_stem_ext (fst (splitext p)) (snd (splitext p)) Hd Hs) as E.
    rewrite splitext_app in E.
    destruct (all_dots (basename (fst (splitext p)))); [|reflexivity].
    exfalso. apply Hne. now rewrite E.
  - intros (stem & ext & -> & Hin & Hnd).
    destruct (jpeg_extension_shape _ Hin) as (Hd & Hs & _).
    apply is_jpeg_file_spec. rewrite (splitext_stem_ext stem ext Hd Hs), Hnd.
    exact Hin.
Qed.

(** C8, as the code has it. The classifier is a total function of the
    path alone (it reads no state and returns a [bool] on every input);
    it returns true exactly when the extension given by
    [os.path.splitext] is one of [.jpg], [.jpeg], [.JPG], [.JPEG], the
    all-lower-case and all-upper-case spellings, that is, exactly on the
    paths that end with one of the four after a last component that is
    not made of dots only; every path it accepts matches [.jpg] or
    [.jpeg] when case is ignored. *)
Theorem C8_classifier_accepts_four_spellings (p : string) :
  (is_jpeg_file p = true <->
   snd (splitext p) = ".jpg" \/ snd (splitext p) = ".jpeg" \/
   snd (splitext p) = ".JPG" \/ snd (splitext p) = ".JPEG") /\
  (is_jpeg_file p = true <->
   exists stem ext, p = (stem ++ ext)%string /\
     (ext = ".jpg" \/ ext = ".jpeg" \/ ext = ".JPG" \/ ext = ".JPEG") /\
     all_dots (basename stem) = false) /\
  (is_jpeg_file p = true -> extension_matches_ignoring_case p = true) /\
  (fst (splitext p) ++ snd (splitext p))%string = p.
Proof.
  split; [|split; [|split]].
  - rewrite is_jpeg_file_spec. unfold jpeg_extensions. cbn.
    intuition congruence.
  - rewrite is_jpeg_file_shape. unfold jpeg_extensions. cbn.
    split; intros (stem & ext & E & Hin & Hnd); exists stem, ext;
      (split; [exact E|]); (split; [|exact Hnd]); intuition congruence.
  - rewrite is_jpeg_file_spec. unfold jpeg_extensions, extension_matches_ignoring_case.
    cbn. intros [H|[H|[H|[H|[]]]]]; rewrite <- H; reflexivity.
  - apply splitext_app.
Qed.

(** A mixed-case extension matches when case is ignored and is not
    accepted. *)
Lemma C8_counterexample :
  ~ (is_jpeg_file "photo.Jpg" = true <->
     extension_matches_ignoring_case "photo.Jpg" = true).
Proof. intros [_ H]. specialize (H eq_refl). discriminate. Qed.

(* ================================================================== *)
(** ** Reasoning about computations *)

Lemma unchanged_refl w : unchanged w w.
Proof. repeat split. exists []. now rewrite app_nil_r. Qed.

Lemma unchanged_trans w1 w2 w3 :
  unchanged w1 w2 -> unchanged w2 w3 -> unchanged w1 w3.
Proof.
  intros (Hm & Hf & o1 & Ho1) (Hm' & Hf' & o2 & Ho2).
  repeat split; try congruence.
  exists (o1 ++ o2)%list. rewrite Ho2, Ho1. now rewrite app_assoc.
Qed.

Lemma read_only_ret A (a : A) : read_only (ret a).
Proof. intros w. apply unchanged_refl. Qed.

Lemma read_only_raise A e : read_only (@raise A e).
Proof. intros w. apply unchanged_refl. Qed.

Lemma read_only_lift A (r : result A) : read_only (lift r).
Proof. intros w. apply unchanged_refl. Qed.

Lemma read_only_reading A (f : platform -> node -> result A) :
  read_only (reading f).
Proof. intros w. apply unchanged_refl. Qed.

Lemma read_only_print m : read_only (print m).
Proof. intros w. repeat split. now exists [m]. Qed.

Lemma read_only_bind A B (m : M A) (k : A -> M B) :
  read_only m -> (forall a, read_only (k a)) -> read_only (bind m k).
Proof.
  intros Hm Hk w. unfold bind. specialize (Hm w).
  destruct (m w) as [[a|e] w1]; cbn in *; [|assumption].
  eapply unchanged_trans; [eassumption | apply Hk].
Qed.

Lemma read_only_try_except A (body : M A) handlers :
  read_only body ->
  (forall e h, handlers e = Some h -> read_only h) ->
  read_only (try_except body handlers).
Proof.
  intros Hb Hh w. unfold try_except. specialize (Hb w).
  destruct (body w) as [[a|e] w1]; cbn in *; [assumption|].
  destruct (handlers e) as [h|] eqn:E; [|assumption].
  eapply unchanged_trans; [eassumption | apply (Hh _ _ E)].
Qed.

Lemma read_only_for_fold A S (l : list A) (body : A -> S -> M S) :
  (forall x s, read_only (body x s)) ->
  forall s, read_only (for_fold l s body).
Proof.
  intros Hb. induction l as [|x l IH]; intros s; cbn.
  - apply read_only_ret.
  - apply read_only_bind; [apply Hb | intros; apply IH].
Qed.

Lemma read_only_for_each A (l : list A) (body : A -> M unit) :
  (forall x, read_only (body x)) -> read_only (for_each l body).
Proof. intros Hb. apply read_only_for_fold. intros; apply Hb. Qed.

(** Decomposes a goal [read_only m] along the structure of [m]. *)
Ltac read_only_step :=
  match goal with
  | |- read_only (ret _) => apply read_only_ret
  | |- read_only (raise _) => apply read_only_raise
  | |- read_only (sys_exit _) => apply read_only_raise
  | |- read_only (lift _) => apply read_only_lift
  | |- read_only (reading _) => apply read_only_reading
  | |- read_only (print _) => apply read_only_print
  | |- read_only (bind _ _) => apply read_only_bind; [|intros ?]
  | |- read_only (for_each _ _) => apply read_only_for_each; intros ?
  | |- read_only (for_fold _ _ _) => apply read_only_for_fold; intros ? ?
  | |- read_only (try_except _ _) =>
      apply read_only_try_except;
      [| let e := fresh "e" in let h := fresh "h" in let E := fresh "E" in
         intros e h E;
         repeat match type of E with
                | (if ?c then _ else _) = Some _ => destruct c
                end;
         inversion E; subst; clear E ]
  | |- read_only (match ?x with _ => _ end) => destruct x
  | |- read_only (let '(_, _) := ?x in _) => destruct x
  end.

Ltac read_only_tac := repeat read_only_step.

Lemma raises_only_weaken A (P Q : exn -> bool) (m : M A) :
  raises_only P m -> (forall e, P e = true -> Q e = true) -> raises_only Q m.
Proof. intros H HPQ w e E. apply HPQ. eapply H; eassumption. Qed.

Lemma raises_only_ret A P (a : A) : raises_only P (ret a).
Proof. intros w e; cbn; discriminate. Qed.

Lemma raises_only_print P m : raises_only P (print m).
Proof. intros w e; cbn; discriminate. Qed.

Lemma raises_only_raise A (P : exn -> bool) e :
  P e = true -> raises_only P (@raise A e).
Proof. intros H w e'; cbn; congruence. Qed.

Lemma raises_only_lift A (P : exn -> bool) (r : result A) :
  (forall e, r = Raise e -> P e = true) -> raises_only P (lift r).
Proof. intros H w e; cbn. apply H. Qed.

Lemma raises_only_reading A (P : exn -> bool) (f : platform -> node -> result A) :
  (forall mach root e, f mach root = Raise e -> P e = true) ->
  raises_only P (reading f).
Proof. intros H w e; cbn. apply H. Qed.

Lemma raises_only_writing (P : exn -> bool) f :
  (forall mach root e, f mach root = Raise e -> P e = true) ->
  raises_only P (writing f).
Proof.
  intros H w e. unfold writing.
  destruct (f (machine w) (fs w)) eqn:E; cbn; [discriminate|].
  intros [= <-]. eapply H; eassumption.
Qed.

Lemma raises_only_bind A B P (m : M A) (k : A -> M B) :
  raises_only P m -> (forall a, raises_only P (k a)) ->
  raises_only P (bind m k).
Proof.
  intros Hm Hk w e. unfold bind. specialize (Hm w).
  destruct (m w) as [[a|e'] w1]; cbn in *.
  - apply Hk.
  - intros [= <-]. now apply Hm.
Qed.

(** The exceptions of a [try]: those the handlers do not catch and
    those the handlers raise. *)
Lemma raises_only_try_except A (P Q : exn -> bool) (body : M A) handlers :
  raises_only Q body ->
  (forall e, Q e = true ->
     match handlers e with
     | Some h => raises_only P h
     | None => P e = true
     end) ->
  raises_only P (try_except body handlers).
Proof.
  intros Hb Hh w e. unfold try_except. specialize (Hb w).
  destruct (body w) as [[a|e'] w1]; cbn in *; [discriminate|].
  specialize (Hh e' (Hb e' eq_refl)).
  destruct (handlers e') as [h|]; cbn.
  - apply Hh.
  - congruence.
Qed.

Lemma raises_only_for_fold A S P (l : list A) (body : A -> S -> M S) :
  (forall x s, raises_only P (body x s)) ->
  forall s, raises_only P (for_fold l s body).
Proof.
  intros Hb. induction l as [|x l IH]; intros s; cbn.
  - apply raises_only_ret.
  - apply raises_only_bind; [apply Hb | intros; apply IH].
Qed.

(** A computation that raises nothing returns a value. *)
Lemma no_exception_returns A (m : M A) :
  raises_only no_exception m -> forall w, exists a, fst (m w) = Ok a.
Proof.
  intros H w. specialize (H w). destruct (fst (m w)) as [a|e].
  - now exists a.
  - specialize (H e eq_refl). discriminate.
Qed.

Lemma of_io_raises A path (r : io A) e :
  of_io path r = Raise e -> is_OSError e = true.
Proof. destruct r; cbn; [discriminate|]. now intros [= <-]. Qed.

(* ================================================================== *)
(** ** Dry run *)

Lemma read_only_Image_open path : read_only (Image_open path).
Proof. apply read_only_reading. Qed.

Lemma read_only_get_image_datetime path : read_only (get_image_datetime path).
Proof. unfold get_image_datetime, Image_open. read_only_tac. Qed.

Lemma read_only_find_jpeg_files folder recursive :
  read_only (find_jpeg_files folder recursive).
Proof. unfold find_jpeg_files, os_walk, os_listdir. read_only_tac. Qed.

Lemma read_only_dry_run_item Y M_ item : read_only (dry_run_item Y M_ item).
Proof.
  unfold dry_run_item. destruct item as [i file_path].
  repeat (read_only_step || apply read_only_get_image_datetime).
Qed.

Lemma read_only_show_current_datetime path found fallback :
  read_only (show_current_datetime path found fallback).
Proof.
  unfold show_current_datetime, os_path_getmtime.
  repeat (read_only_step || apply read_only_get_image_datetime).
Qed.

Lemma read_only_process_folder_dry_run folder Y M_ out recursive :
  read_only (process_folder folder Y M_ out recursive true).
Proof.
  unfold process_folder.
  repeat (read_only_step || apply read_only_find_jpeg_files
          || apply read_only_dry_run_item).
Qed.

Lemma read_only_main_dry_run path Y M_ out show recursive :
  read_only (main (mkarguments path Y M_ out show recursive true)).
Proof.
  unfold main, os_path_exists, os_path_isdir.
  cbn [arg_path arg_new_year arg_new_month arg_output arg_show_current
       arg_recursive arg_dry_run].
  repeat (read_only_step || apply read_only_find_jpeg_files
          || apply read_only_get_image_datetime
          || apply read_only_show_current_datetime
          || apply read_only_process_folder_dry_run).
Qed.

(** C9. With the dry-run flag set, a batch run ([process_folder]) and a
    run of the command ([main], on a folder or on a single file) leave
    the file system as it was, whatever the outcome, exception included:
    no file is created, and the content, the metadata and the times of
    every file are the same; the run only adds to the printed output. *)
Theorem C9_dry_run_mutates_nothing (folder path : string) (Y : Z)
        (M_ : option Z) (out : option string) (show recursive : bool)
        (w : world) :
  (let w' := snd (process_folder folder Y M_ out recursive true w) in
   fs w' = fs w /\ machine w' = machine w /\
   exists printed, stdout w' = (stdout w ++ printed)%list) /\
  (let w' := snd (main (mkarguments path Y M_ out show recursive true) w) in
   fs w' = fs w /\ machine w' = machine w /\
   exists printed, stdout w' = (stdout w ++ printed)%list).
Proof.
  split; cbv zeta.
  - destruct (read_only_process_folder_dry_run folder Y M_ out recursive w)
      as (Hm & Hf & Ho). auto.
  - destruct (read_only_main_dry_run path Y M_ out show recursive w)
      as (Hm & Hf & Ho). auto.
Qed.

(* ================================================================== *)
(** ** Which exceptions the program lets through *)

Ltac raises_only_step :=
  match goal with
  | |- raises_only _ (ret _) => apply raises_only_ret
  | |- raises_only _ (print _) => apply raises_only_print
  | |- raises_only _ (bind _ _) => apply raises_only_bind; [|intros ?]
  | |- raises_only _ (match ?x with _ => _ end) => destruct x
  | |- raises_only _ (let '(_, _) := ?x in _) => destruct x
  end.

Lemma datetime_new_raises y m d h mi s us e :
  datetime_new y m d h mi s us = Raise e -> is_ValueError e = true.
Proof.
  unfold datetime_new, _check_date_fields, _check_time_fields, rbind.
  repeat match goal with
         | |- context [if ?c then _ else _] => destruct c
         end; cbn; intros [= <-] || discriminate; reflexivity.
Qed.

(** The transform raises [OverflowError] for a year or month that
    does not fit a C [int], and [ValueError] otherwise. *)
Lemma new_datetime_raises T Y M_ e :
  new_datetime T Y M_ = Raise e ->
  if c_int Y && keyword_fits M_ then is_ValueError e = true
  else e = OverflowError.
Proof.
  rewrite new_datetime_unfold. destruct (c_int Y && keyword_fits M_).
  - apply datetime_new_raises.
  - now intros [= <-].
Qed.

Lemma new_datetime_replace_error T Y M_ e :
  new_datetime T Y M_ = Raise e -> replace_error Y M_ e = true.
Proof.
  intros H. apply new_datetime_raises in H. unfold replace_error, fits_c_int.
  destruct (c_int Y && keyword_fits M_); [exact H | now subst e].
Qed.

Lemma replace_error_cases Y M_ e :
  replace_error Y M_ e = true ->
  is_ValueError e = true \/ overflow_of Y M_ e = true.
Proof.
  unfold replace_error, overflow_of. destruct (fits_c_int Y M_); intros H.
  - now left.
  - right. now rewrite H.
Qed.

Lemma overflow_of_inv Y M_ e :
  overflow_of Y M_ e = true -> e = OverflowError /\ fits_c_int Y M_ = false.
Proof.
  unfold overflow_of. intros H. apply andb_true_iff in H as [H1 H2].
  destruct e; try discriminate. split; [reflexivity|].
  now destruct (fits_c_int Y M_).
Qed.

Lemma new_datetime_raises_value T Y M_ e :
  c_int Y = true -> keyword_fits M_ = true ->
  new_datetime T Y M_ = Raise e -> is_ValueError e = true.
Proof.
  intros HY HM H. apply new_datetime_raises in H. now rewrite HY, HM in H.
Qed.

Lemma strptime_raises value e :
  strptime value = Raise e -> is_ValueError e = true.
Proof.
  unfold strptime.
  destruct (match_exif_format value) as [[[[[[y m] d] h] mi] s]|].
  - apply datetime_new_raises.
  - now intros [= <-].
Qed.

Lemma relpath_raises path start e :
  relpath path start = Raise e -> is_ValueError e = true.
Proof.
  unfold relpath. destruct (path =? "")%string; [now intros [= <-]|].
  cbv zeta. destruct (_ ++ _)%list; discriminate.
Qed.

Lemma raises_only_Image_open path : raises_only is_OSError (Image_open path).
Proof.
  apply raises_only_reading. intros _ root e.
  destruct (lookup root path) as [[f|es]|k]; try (now intros [= <-]).
  destruct (negb _); [now intros [= <-]|].
  destruct (content f); [discriminate | now intros [= <-]].
Qed.

Lemma raises_only_getmtime path : raises_only is_OSError (os_path_getmtime path).
Proof.
  apply raises_only_reading. intros _ root e.
  destruct (lookup root path) as [[f|es]|k]; now intros [= <-].
Qed.

Lemma raises_only_piexif_load path :
  raises_only os_or_value_error (piexif_load path).
Proof.
  apply raises_only_reading. intros _ root e.
  destruct (lookup root path) as [[f|es]|k]; try (now intros [= <-]).
  destruct (negb _); [now intros [= <-]|].
  destruct (content f) as [img|]; [|now intros [= <-]].
  destruct (format img =? "JPEG")%string; [discriminate | now intros [= <-]].
Qed.

Lemma raises_only_Image_save path : raises_only is_OSError (Image_save path).
Proof. apply raises_only_writing. intros mach root e. apply of_io_raises. Qed.

Lemma raises_only_piexif_insert d path :
  raises_only is_OSError (piexif_insert d path).
Proof. apply raises_only_writing. intros mach root e. apply of_io_raises. Qed.

Lemma raises_only_makedirs path : raises_only is_OSError (os_makedirs path).
Proof. apply raises_only_writing. intros mach root e. apply of_io_raises. Qed.

Lemma raises_only_utime path a m : raises_only is_OSError (os_utime path a m).
Proof.
  apply raises_only_writing. intros _ root e.
  destruct (lookup root path) as [[f|es]|k]; try (now intros [= <-]).
  apply of_io_raises.
Qed.

Lemma os_error_is_os_or_value e : is_OSError e = true -> os_or_value_error e = true.
Proof. unfold os_or_value_error. intros ->. reflexivity. Qed.

Lemma value_error_is_os_or_value e :
  is_ValueError e = true -> os_or_value_error e = true.
Proof. unfold os_or_value_error. intros ->. apply orb_true_r. Qed.

(** The reader catches every exception of its body: it always returns. *)
Lemma get_image_datetime_never_raises path :
  raises_only no_exception (get_image_datetime path).
Proof.
  unfold get_image_datetime.
  apply raises_only_try_except with (Q := os_or_value_error).
  - apply raises_only_bind.
    + eapply raises_only_weaken;
        [apply raises_only_Image_open | apply os_error_is_os_or_value].
    + intros image. destruct (find _ _) as [[tag value]|].
      * apply raises_only_bind; [|intros; apply raises_only_ret].
        apply raises_only_lift. intros e H.
        apply value_error_is_os_or_value. eapply strptime_raises; eassumption.
      * repeat raises_only_step.
  - intros e He. unfold os_or_value_error in He.
    apply orb_true_iff in He as [-> | ->]; cbn -[print];
      try rewrite orb_true_r; cbn -[print]; repeat raises_only_step.
Qed.

Lemma update_exif_never_raises path t :
  raises_only no_exception (update_exif_with_piexif path t).
Proof.
  unfold update_exif_with_piexif.
  apply raises_only_try_except
    with (Q := fun e => is_ImportError e || os_or_value_error e).
  - apply raises_only_bind; [apply raises_only_reading; discriminate|].
    intros installed. apply raises_only_bind.
    + destruct installed; [apply raises_only_ret | now apply raises_only_raise].
    + intros _. apply raises_only_bind.
      * eapply raises_only_weaken; [apply raises_only_piexif_load|].
        intros e ->. apply orb_true_r.
      * intros d. cbv zeta. apply raises_only_bind; [|intros; apply raises_only_print].
        eapply raises_only_weaken; [apply raises_only_piexif_insert|].
        intros e H. rewrite (os_error_is_os_or_value _ H). apply orb_true_r.
  - intros e He. destruct (is_ImportError e) eqn:EI.
    + repeat raises_only_step.
    + cbn in He. unfold os_or_value_error in He.
      assert (is_ValueError e || is_KeyError e || is_OSError e = true) as ->
        by (apply orb_true_iff in He as [-> | ->]; cbn;
            rewrite ?orb_true_r; reflexivity).
      apply raises_only_print.
Qed.

Lemma raises_only_current_datetime_of path :
  raises_only is_OSError (current_datetime_of path).
Proof.
  unfold current_datetime_of. apply raises_only_bind.
  - eapply raises_only_weaken; [apply get_image_datetime_never_raises|].
    discriminate.
  - intros [t|]; [apply raises_only_ret|].
    apply raises_only_bind; [apply raises_only_getmtime|]. intros file_time.
    apply raises_only_bind; [apply raises_only_reading; discriminate|].
    intros t. repeat raises_only_step.
Qed.

Lemma raises_only_datetime_timestamp t :
  raises_only is_ValueError (datetime_timestamp t).
Proof.
  apply raises_only_reading. intros mach _ e.
  destruct (timestamp mach t); [discriminate | now intros [= <-]].
Qed.

(** What escapes [modify_image_datetime]. Its first [try] catches
    [OSError] and [ValueError], so of the exceptions of [replace] only
    those that are no [ValueError] get out; its second [try] catches
    [OSError] only, so the [ValueError] of [timestamp] gets out. *)
Lemma raises_only_modify_image_datetime_from (P : exn -> bool) path Y M_ out :
  (forall T e, new_datetime T Y M_ = Raise e ->
               is_ValueError e = true \/ P e = true) ->
  (forall e, is_ValueError e = true -> P e = true) ->
  raises_only P (modify_image_datetime path Y M_ out).
Proof.
  intros Hnew HP.
  unfold modify_image_datetime. apply raises_only_bind.
  - apply raises_only_try_except with (Q := fun e => os_or_value_error e || P e).
    + apply raises_only_bind.
      { eapply raises_only_weaken; [apply raises_only_Image_open|].
        intros e H. now rewrite (os_error_is_os_or_value _ H). }
      intros image. apply raises_only_bind.
      { eapply raises_only_weaken; [apply raises_only_current_datetime_of|].
        intros e H. now rewrite (os_error_is_os_or_value _ H). }
      intros cur. apply raises_only_bind.
      { apply raises_only_lift. intros e H.
        destruct (Hnew _ _ H) as [HV | HV].
        - now rewrite (value_error_is_os_or_value _ HV).
        - rewrite HV. apply orb_true_r. }
      intros new_dt. do 2 (apply raises_only_bind; [apply raises_only_print|intros _]).
      cbv zeta. apply raises_only_bind; [|intros; apply raises_only_ret].
      destruct (format image =? "JPEG")%string; [|apply raises_only_print].
      apply raises_only_bind.
      { eapply raises_only_weaken; [apply raises_only_Image_save|].
        intros e H. now rewrite (os_error_is_os_or_value _ H). }
      intros _. eapply raises_only_weaken; [apply update_exif_never_raises|].
      discriminate.
    + intros e He. fold (os_or_value_error e).
      destruct (os_or_value_error e); [repeat raises_only_step | exact He].
  - intros [[new_dt output_path]|]; [|apply raises_only_ret].
    apply raises_only_bind; [|intros; apply raises_only_ret].
    apply raises_only_try_except with (Q := os_or_value_error).
    + apply raises_only_bind.
      { eapply raises_only_weaken;
          [apply raises_only_datetime_timestamp | apply value_error_is_os_or_value]. }
      intros ts. apply raises_only_bind.
      { eapply raises_only_weaken;
          [apply raises_only_utime | apply os_error_is_os_or_value]. }
      intros _. apply raises_only_print.
    + intros e He. destruct (is_OSError e) eqn:EO; [apply raises_only_print|].
      apply HP. unfold os_or_value_error in He. now rewrite EO in He.
Qed.

(** [modify_image_datetime] raises nothing but the [ValueError] of
    [timestamp] and the [OverflowError] of [replace]. *)
Lemma raises_only_modify_image_datetime path Y M_ out :
  raises_only (fun e => is_ValueError e || overflow_of Y M_ e)
    (modify_image_datetime path Y M_ out).
Proof.
  apply raises_only_modify_image_datetime_from.
  - intros T e H. apply new_datetime_replace_error, replace_error_cases in H.
    destruct H as [H | H]; [now left | right]. rewrite H. apply orb_true_r.
  - now intros e ->.
Qed.

(** With a year and a month that fit a C [int], only the [ValueError]
    of [timestamp] is left. *)
Lemma raises_only_modify_image_datetime_fits path Y M_ out :
  c_int Y = true -> keyword_fits M_ = true ->
  raises_only is_ValueError (modify_image_datetime path Y M_ out).
Proof.
  intros HY HM. apply raises_only_modify_image_datetime_from.
  - intros T e H. left. eapply new_datetime_raises_value; eassumption.
  - trivial.
Qed.

(* ================================================================== *)
(** ** The counts of a batch run *)

Lemma returns_only_bind A B (P : B -> Prop) (m : M A) (k : A -> M B) :
  (forall a, returns_only P (k a)) -> returns_only P (bind m k).
Proof.
  intros Hk w b. unfold bind.
  destruct (m w) as [[a|e] w1]; cbn; [apply Hk | discriminate].
Qed.

Lemma returns_only_ret A (P : A -> Prop) (a : A) : P a -> returns_only P (ret a).
Proof. intros H w b [= <-]. exact H. Qed.

Lemma returns_only_try_except A (P : A -> Prop) (body : M A) handlers :
  returns_only P body ->
  (forall e h, handlers e = Some h -> returns_only P h) ->
  returns_only P (try_except body handlers).
Proof.
  intros Hb Hh w a. unfold try_except. specialize (Hb w).
  destruct (body w) as [[a'|e] w1]; cbn in *; [apply Hb|].
  destruct (handlers e) as [h|] eqn:E; cbn; [|discriminate].
  eapply Hh; eassumption.
Qed.

Lemma raises_only_output_path_for folder out recursive file_path :
  raises_only os_or_value_error (output_path_for folder out recursive file_path).
Proof.
  unfold output_path_for.
  destruct (truthy out) as [o|]; [|apply raises_only_ret].
  apply raises_only_bind.
  { eapply raises_only_weaken;
      [apply raises_only_makedirs | apply os_error_is_os_or_value]. }
  intros _. destruct recursive; [|apply raises_only_ret].
  apply raises_only_bind.
  { apply raises_only_lift. intros ex H. apply value_error_is_os_or_value.
    eapply relpath_raises; eassumption. }
  intros rel. cbv zeta.
  apply raises_only_bind; [|intros; apply raises_only_ret].
  eapply raises_only_weaken;
    [apply raises_only_makedirs | apply os_error_is_os_or_value].
Qed.

(** One turn of the processing loop catches [OSError] and
    [ValueError]: what escapes is what [replace] raises besides. *)
Lemma raises_only_process_item_from (P : exn -> bool) folder Y M_ out
      recursive total item counts :
  (forall T e, new_datetime T Y M_ = Raise e ->
               is_ValueError e = true \/ P e = true) ->
  raises_only P (process_item folder Y M_ out recursive total item counts).
Proof.
  intros Hnew.
  unfold process_item. destruct item as [i file_path], counts as [s e].
  apply raises_only_bind; [apply raises_only_print|]. intros _.
  apply raises_only_try_except with (Q := fun e => os_or_value_error e || P e).
  - apply raises_only_bind.
    + eapply raises_only_weaken; [apply raises_only_output_path_for|].
      now intros ex ->.
    + intros output_path. apply raises_only_bind.
      { apply raises_only_modify_image_datetime_from.
        - intros T ex H. destruct (Hnew _ _ H) as [HV | HV]; [now left | right].
          rewrite HV. apply orb_true_r.
        - intros ex H. now rewrite (value_error_is_os_or_value _ H). }
      intros success. repeat raises_only_step.
  - intros ex He. fold (os_or_value_error ex).
    destruct (os_or_value_error ex); [repeat raises_only_step | exact He].
Qed.

(** Only the [OverflowError] of [replace] escapes a turn of the loop. *)
Lemma raises_only_process_item folder Y M_ out recursive total item counts :
  raises_only (overflow_of Y M_)
    (process_item folder Y M_ out recursive total item counts).
Proof.
  apply raises_only_process_item_from. intros T e H.
  apply replace_error_cases. eapply new_datetime_replace_error; eassumption.
Qed.

(** With a year and a month that fit a C [int], nothing does. *)
Lemma process_item_never_raises folder Y M_ out recursive total item counts :
  c_int Y = true -> keyword_fits M_ = true ->
  raises_only no_exception
    (process_item folder Y M_ out recursive total item counts).
Proof.
  intros HY HM. apply raises_only_process_item_from. intros T e H. left.
  eapply new_datetime_raises_value; eassumption.
Qed.

(** One turn of the processing loop adds one to exactly one counter. *)
Lemma returns_only_process_item folder Y M_ out recursive total item s e :
  returns_only (fun c => c = (s + 1, e) \/ c = (s, e + 1))
    (process_item folder Y M_ out recursive total item (s, e)).
Proof.
  unfold process_item. destruct item as [i file_path].
  apply returns_only_bind. intros _.
  apply returns_only_try_except.
  - apply returns_only_bind. intros output_path.
    apply returns_only_bind. intros success.
    destruct success; apply returns_only_bind; intros _;
      apply returns_only_ret; auto.
  - intros ex h E. destruct (_ || _); inversion E; subst.
    apply returns_only_bind; intros _. apply returns_only_ret; auto.
Qed.

Lemma len_cons A (x : A) l : len (x :: l) = 1 + len l.
Proof. unfold len. cbn [List.length]. lia. Qed.

Lemma len_nonneg A (l : list A) : 0 <= len l.
Proof. unfold len. lia. Qed.

Lemma len_enumerate A (l : list A) start : len (enumerate l start) = len l.
Proof.
  revert start. induction l as [|x l IH]; intros start; [reflexivity|].
  cbn [enumerate]. rewrite !len_cons. now rewrite IH.
Qed.

(** When the processing loop returns, its two counters have grown
    together by the number of files. *)
Lemma process_loop_counted folder Y M_ out recursive total items :
  forall s e w s' e',
    fst (for_fold items (s, e)
           (process_item folder Y M_ out recursive total) w) = Ok (s', e') ->
    s' + e' = s + e + len items /\ s <= s' /\ e <= e'.
Proof.
  induction items as [|item items IH]; intros s e w s' e'.
  - cbn. intros [= <- <-]. unfold len; cbn. repeat split; lia.
  - cbn [for_fold]. unfold bind. rewrite len_cons.
    pose proof (returns_only_process_item folder Y M_ out recursive total item
                  s e w) as Hcase.
    destruct (process_item _ _ _ _ _ _ item (s, e) w) as [[c|ex] w1];
      cbn [fst] in Hcase |- *; [|discriminate].
    intros H.
    destruct (Hcase c eq_refl) as [-> | ->];
      apply IH in H; repeat split; lia.
Qed.

(** With a year and a month that fit a C [int] the processing loop
    returns, and its two counters have grown together by the number of
    files. *)
Lemma process_loop_counts folder Y M_ out recursive total items :
  c_int Y = true -> keyword_fits M_ = true ->
  forall s e w, exists s' e',
    fst (for_fold items (s, e)
           (process_item folder Y M_ out recursive total) w) = Ok (s', e') /\
    s' + e' = s + e + len items /\ s <= s' /\ e <= e'.
Proof.
  intros HY HM.
  induction items as [|item items IH]; intros s e w.
  - exists s, e. cbn. unfold len; cbn. repeat split; lia.
  - cbn [for_fold]. unfold bind.
    destruct (no_exception_returns _ _
                (process_item_never_raises folder Y M_ out recursive total item
                   (s, e) HY HM) w)
      as [c Hc].
    pose proof (returns_only_process_item folder Y M_ out recursive total item s e w c Hc) as Hcase.
    destruct (process_item _ _ _ _ _ _ item (s, e) w) as [r w1]. cbn in Hc. subst r.
    rewrite len_cons.
    destruct Hcase as [-> | ->].
    + destruct (IH (s + 1) e w1) as (s' & e' & H1 & H2 & H3 & H4).
      exists s', e'. repeat split; [assumption|lia..].
    + destruct (IH s (e + 1) w1) as (s' & e' & H1 & H2 & H3 & H4).
      exists s', e'. repeat split; [assumption|lia..].
Qed.

(** Discovery on an existing folder returns the sorted collection and
    changes nothing. *)
Lemma find_jpeg_files_existing folder recursive w es :
  lookup (fs w) folder = Done (Dir es) ->
  find_jpeg_files folder recursive w =
  (Ok (sorted (if recursive
               then collect_recursive (walk_node folder (Dir es))
               else collect_flat (fs w) folder (map fst es))), w).
Proof.
  intros H. unfold find_jpeg_files, os_walk, os_listdir, bind, reading, ret.
  destruct recursive; rewrite H; reflexivity.
Qed.

Lemma raises_only_dry_run_item Y M_ item :
  raises_only (replace_error Y M_) (dry_run_item Y M_ item).
Proof.
  unfold dry_run_item. destruct item as [i file_path].
  apply raises_only_bind; [apply raises_only_print|]. intros _.
  apply raises_only_bind.
  - eapply raises_only_weaken; [apply get_image_datetime_never_raises|].
    discriminate.
  - intros [t|]; [|apply raises_only_print].
    apply raises_only_bind; [|intros; apply raises_only_print].
    apply raises_only_lift. intros e. apply new_datetime_replace_error.
Qed.

Lemma bind_ok A B (m : M A) (k : A -> M B) w a w1 :
  m w = (Ok a, w1) -> bind m k w = k a w1.
Proof. intros H. unfold bind. now rewrite H. Qed.

Lemma bind_raise A B (m : M A) (k : A -> M B) w e w1 :
  m w = (Raise e, w1) -> bind m k w = (Raise e, w1).
Proof. intros H. unfold bind. now rewrite H. Qed.

Lemma bind_print B m (k : unit -> M B) w :
  bind (print m) k w = k tt (mkworld (machine w) (fs w) (stdout w ++ [m])).
Proof. reflexivity. Qed.

Lemma bind_ret A B (a : A) (k : A -> M B) w : bind (ret a) k w = k a w.
Proof. reflexivity. Qed.

Lemma process_folder_dry_outcome folder Y M_ out recursive w files :
  find_jpeg_files folder recursive w = (Ok files, w) ->
  fst (process_folder folder Y M_ out recursive true w) = Ok (0, 0, len files) \/
  (exists why, fst (process_folder folder Y M_ out recursive true w)
               = Raise (ValueError why)) \/
  (fst (process_folder folder Y M_ out recursive true w) = Raise OverflowError /\
   fits_c_int Y M_ = false).
Proof.
  intros Hfind. unfold process_folder. rewrite (bind_ok _ _ _ _ _ _ _ Hfind).
  destruct files as [|f files']; [left; reflexivity|].
  set (fl := f :: files'). cbv beta iota. rewrite bind_print.
  match goal with |- context [bind (if recursive then _ else _) ?k ?w0] =>
    assert (exists w1, bind (if recursive then print ProcessingRecursively else ret tt) k w0 = k tt w1) as [w1 ->]
      by (destruct recursive; eexists; reflexivity) end.
  rewrite bind_print.
  match goal with |- context [bind (for_each ?l ?b) ?k ?w0] =>
    pose proof (raises_only_for_fold _ _ (replace_error Y M_) l
                  (fun x _ => b x)
                  (fun x s => raises_only_dry_run_item Y M_ x) tt w0) as Hr;
    fold (for_each l b) in Hr;
    destruct (for_each l b w0) as [[[]|ex] w2] eqn:E
  end.
  - left. rewrite (bind_ok _ _ _ _ _ _ _ E). reflexivity.
  - right. rewrite (bind_raise _ _ _ _ _ _ _ E).
    specialize (Hr ex eq_refl). apply replace_error_cases in Hr as [Hr | Hr].
    + left. destruct ex; try discriminate. eexists; reflexivity.
    + right. apply overflow_of_inv in Hr as [-> Hr]. now split.
Qed.

(** Whatever a run that is no dry run returns, its counters add up to
    the number of files. *)
Lemma process_folder_counted folder Y M_ out recursive w files r :
  find_jpeg_files folder recursive w = (Ok files, w) ->
  fst (process_folder folder Y M_ out recursive false w) = Ok r ->
  exists s e, r = (s, e, len files) /\ s + e = len files /\ 0 <= s /\ 0 <= e.
Proof.
  intros Hfind. unfold process_folder. rewrite (bind_ok _ _ _ _ _ _ _ Hfind).
  destruct files as [|f files'].
  { cbn. intros [= <-]. exists 0, 0. cbn. repeat split; (reflexivity || lia). }
  set (fl := f :: files'). cbv beta iota. rewrite bind_print.
  match goal with |- context [bind (if recursive then _ else _) ?k ?w0] =>
    assert (exists w1, bind (if recursive then print ProcessingRecursively else ret tt) k w0 = k tt w1) as [w1 ->]
      by (destruct recursive; eexists; reflexivity) end.
  pose proof (process_loop_counted folder Y M_ out recursive (len fl)
                (enumerate fl 1) 0 0 w1) as Hloop.
  destruct (for_fold _ _ _ w1) as [[[s' e']|ex] w2] eqn:E.
  - rewrite (bind_ok _ _ _ _ _ _ _ E). unfold ret. cbn [fst]. intros [= <-].
    destruct (Hloop s' e' eq_refl) as (Hsum & Hs & He).
    rewrite len_enumerate in Hsum. exists s', e'.
    repeat split; (reflexivity || lia).
  - rewrite (bind_raise _ _ _ _ _ _ _ E). discriminate.
Qed.

(** What does not return has raised the [OverflowError] of [replace]. *)
Lemma process_folder_raises folder Y M_ out recursive w files e :
  find_jpeg_files folder recursive w = (Ok files, w) ->
  fst (process_folder folder Y M_ out recursive false w) = Raise e ->
  e = OverflowError /\ fits_c_int Y M_ = false.
Proof.
  intros Hfind. unfold process_folder. rewrite (bind_ok _ _ _ _ _ _ _ Hfind).
  destruct files as [|f files']; [discriminate|].
  set (fl := f :: files'). cbv beta iota. rewrite bind_print.
  match goal with |- context [bind (if recursive then _ else _) ?k ?w0] =>
    assert (exists w1, bind (if recursive then print ProcessingRecursively else ret tt) k w0 = k tt w1) as [w1 ->]
      by (destruct recursive; eexists; reflexivity) end.
  pose proof (raises_only_for_fold _ _ (overflow_of Y M_) (enumerate fl 1) _
                (raises_only_process_item folder Y M_ out recursive (len fl))
                (0, 0) w1) as Hr.
  destruct (for_fold _ _ _ w1) as [[[s' e']|ex] w2] eqn:E.
  - rewrite (bind_ok _ _ _ _ _ _ _ E). discriminate.
  - rewrite (bind_raise _ _ _ _ _ _ _ E). cbn [fst]. intros [= <-].
    apply overflow_of_inv. now apply Hr.
Qed.

(** With a year and a month that fit a C [int], it returns. *)
Lemma process_folder_counts folder Y M_ out recursive w files :
  c_int Y = true -> keyword_fits M_ = true ->
  find_jpeg_files folder recursive w = (Ok files, w) ->
  exists s e,
    fst (process_folder folder Y M_ out recursive false w) = Ok (s, e, len files) /\
    s + e = len files /\ 0 <= s /\ 0 <= e.
Proof.
  intros HY HM Hfind. unfold process_folder. rewrite (bind_ok _ _ _ _ _ _ _ Hfind).
  destruct files as [|f files'].
  { exists 0, 0. cbn. repeat split; lia. }
  set (fl := f :: files'). cbv beta iota. rewrite bind_print.
  match goal with |- context [bind (if recursive then _ else _) ?k ?w0] =>
    assert (exists w1, bind (if recursive then print ProcessingRecursively else ret tt) k w0 = k tt w1) as [w1 ->]
      by (destruct recursive; eexists; reflexivity) end.
  destruct (process_loop_counts folder Y M_ out recursive (len fl)
              (enumerate fl 1) HY HM 0 0 w1) as (s' & e' & Hloop & Hsum & Hs & He).
  rewrite len_enumerate in Hsum.
  exists s', e'. split; [|repeat split; lia].
  destruct (for_fold _ _ _ w1) as [r w2] eqn:E. cbn in Hloop. subst r.
  rewrite (bind_ok _ _ _ _ _ _ _ E). reflexivity.
Qed.


(* ================================================================== *)
(** ** Writes keep the machine and the printed text *)

Lemma extends_refl w : extends w w.
Proof. split; [reflexivity|]. exists []. now rewrite app_nil_r. Qed.

Lemma extends_trans w1 w2 w3 : extends w1 w2 -> extends w2 w3 -> extends w1 w3.
Proof.
  intros (Hm & o1 & Ho1) (Hm' & o2 & Ho2). split; [congruence|].
  exists (o1 ++ o2)%list. rewrite Ho2, Ho1. now rewrite app_assoc.
Qed.

Lemma read_only_steady A (m : M A) : read_only m -> steady m.
Proof. intros H w. destruct (H w) as (Hm & _ & Ho). now split. Qed.

Lemma steady_writing f : steady (writing f).
Proof.
  intros w. unfold writing.
  destruct (f (machine w) (fs w)); cbn; [|apply extends_refl].
  split; [reflexivity|]. exists []. cbn. now rewrite app_nil_r.
Qed.

Lemma steady_bind A B (m : M A) (k : A -> M B) :
  steady m -> (forall a, steady (k a)) -> steady (bind m k).
Proof.
  intros Hm Hk w. unfold bind. specialize (Hm w).
  destruct (m w) as [[a|e] w1]; cbn in *; [|assumption].
  eapply extends_trans; [eassumption | apply Hk].
Qed.

Lemma steady_try_except A (body : M A) handlers :
  steady body -> (forall e h, handlers e = Some h -> steady h) ->
  steady (try_except body handlers).
Proof.
  intros Hb Hh w. unfold try_except. specialize (Hb w).
  destruct (body w) as [[a|e] w1]; cbn in *; [assumption|].
  destruct (handlers e) as [h|] eqn:E; [|assumption].
  eapply extends_trans; [eassumption | apply (Hh _ _ E)].
Qed.

Ltac steady_step :=
  match goal with
  | |- steady (ret _) => apply read_only_steady, read_only_ret
  | |- steady (raise _) => apply read_only_steady, read_only_raise
  | |- steady (lift _) => apply read_only_steady, read_only_lift
  | |- steady (reading _) => apply read_only_steady, read_only_reading
  | |- steady (print _) => apply read_only_steady, read_only_print
  | |- steady (writing _) => apply steady_writing
  | |- steady (bind _ _) => apply steady_bind; [|intros ?]
  | |- steady (try_except _ _) =>
      apply steady_try_except;
      [| let e := fresh "e" in let h := fresh "h" in let E := fresh "E" in
         intros e h E;
         repeat match type of E with
                | (if ?c then _ else _) = Some _ => destruct c
                end;
         inversion E; subst; clear E ]
  | |- steady (match ?x with _ => _ end) => destruct x
  | |- steady (let '(_, _) := ?x in _) => destruct x
  end.

Lemma steady_update_exif path t : steady (update_exif_with_piexif path t).
Proof.
  unfold update_exif_with_piexif, piexif_load, piexif_insert.
  repeat steady_step.
Qed.

(* ================================================================== *)
(** ** The metadata reader and its caller *)

Lemma reading_run A (f : platform -> node -> result A) w :
  reading f w = (f (machine w) (fs w), w).
Proof. reflexivity. Qed.

Lemma Image_open_run path w : Image_open path w = (fst (Image_open path w), w).
Proof. reflexivity. Qed.

Lemma printed_printed w l1 l2 :
  printed (printed w l1) l2 = printed w (l1 ++ l2).
Proof. unfold printed. cbn. now rewrite app_assoc. Qed.

Lemma bind_print_printed B m (k : unit -> M B) w :
  bind (print m) k w = k tt (printed w [m]).
Proof. reflexivity. Qed.

Lemma Image_open_file path w f img :
  lookup (fs w) path = Done (File f) -> can_read f = true ->
  content f = Some img -> Image_open path w = (Ok img, w).
Proof.
  intros Hl Hr Hc. unfold Image_open. rewrite reading_run, Hl, Hr, Hc.
  reflexivity.
Qed.

(** A readable image without the field: the reader says so and returns
    [None]. *)
Lemma get_image_datetime_no_field path w f img :
  lookup (fs w) path = Done (File f) -> can_read f = true ->
  content f = Some img -> no_datetime_field img ->
  get_image_datetime path w = (Ok None, printed w [NoDateTimeFound]).
Proof.
  intros Hl Hr Hc Hn. unfold get_image_datetime, try_except.
  rewrite (bind_ok _ _ _ _ _ _ _ (Image_open_file _ _ _ _ Hl Hr Hc)).
  cbv zeta. unfold no_datetime_field in Hn. rewrite Hn. reflexivity.
Qed.

(** A file that cannot be opened: the reader catches the error, prints
    it and returns [None]. *)
Lemma get_image_datetime_open_fails path w e :
  fst (Image_open path w) = Raise e ->
  get_image_datetime path w = (Ok None, printed w [ErrorReadingImageDatetime e]).
Proof.
  intros H. pose proof (raises_only_Image_open path w e H) as HO.
  unfold get_image_datetime, try_except.
  rewrite (bind_raise _ _ _ _ _ e w) by (rewrite Image_open_run, H; reflexivity).
  rewrite HO. reflexivity.
Qed.

(** The caller opens the file itself, before it asks the reader: there
    the same error makes it give up and return [False]. *)
Lemma modify_image_datetime_open_fails path Y M_ out w e :
  fst (Image_open path w) = Raise e ->
  modify_image_datetime path Y M_ out w
  = (Ok false, printed w [ErrorModifyingImageDatetime e]).
Proof.
  intros H. pose proof (raises_only_Image_open path w e H) as HO.
  unfold modify_image_datetime.
  match goal with
  | |- bind ?m ?k w = _ =>
      assert (E : m w = (Ok None, printed w [ErrorModifyingImageDatetime e]))
  end.
  { unfold try_except.
    rewrite (bind_raise _ _ _ _ _ e w) by (rewrite Image_open_run, H; reflexivity).
    rewrite HO. reflexivity. }
  rewrite (bind_ok _ _ _ _ _ _ _ E). reflexivity.
Qed.

Lemma unreadable_or_corrupt_open_fails w path :
  unreadable_or_corrupt w path ->
  exists k, fst (Image_open path w) = Raise (OSError k path).
Proof.
  intros (f & Hl & Hbad). unfold Image_open. rewrite reading_run, Hl. cbn.
  destruct (can_read f); cbn.
  - destruct Hbad as [Hbad | ->]; [discriminate|]. eexists; reflexivity.
  - eexists; reflexivity.
Qed.

(** The source timestamp of the caller when the field is missing. *)
Lemma current_datetime_of_no_field path w f img :
  lookup (fs w) path = Done (File f) -> can_read f = true ->
  content f = Some img -> no_datetime_field img ->
  let T := fromtimestamp (machine w) (mtime f) in
  current_datetime_of path w
  = (Ok T, printed w [NoDateTimeFound; UsingFileModificationTime T]).
Proof.
  intros Hl Hr Hc Hn T. unfold current_datetime_of.
  rewrite (bind_ok _ _ _ _ _ _ _ (get_image_datetime_no_field _ _ _ _ Hl Hr Hc Hn)).
  unfold os_path_getmtime. unfold bind at 1. rewrite reading_run. cbn [fs printed].
  rewrite Hl. unfold bind, reading, print, ret, printed. cbn.
  now rewrite <- app_assoc.
Qed.

Lemma extends_try_except_from A (body rest : M A) handlers w w2 :
  body w = rest w2 -> steady rest ->
  (forall e h, handlers e = Some h -> steady h) ->
  extends w2 (snd (try_except body handlers w)).
Proof.
  intros Hb Hr Hh. unfold try_except. rewrite Hb. specialize (Hr w2).
  destruct (rest w2) as [[a|e] w3]; cbn in *; [assumption|].
  destruct (handlers e) as [h|] eqn:E; [|assumption].
  eapply extends_trans; [eassumption | apply (Hh _ _ E)].
Qed.

Lemma extends_bind_from A B (m : M A) (k : A -> M B) w w2 :
  extends w2 (snd (m w)) -> (forall a, steady (k a)) ->
  extends w2 (snd (bind m k w)).
Proof.
  intros Hm Hk. unfold bind.
  destruct (m w) as [[a|e] w3]; cbn in *; [|assumption].
  eapply extends_trans; [eassumption | apply Hk].
Qed.

(** What [modify_image_datetime] does once it has its source timestamp:
    a [ValueError] of the transform is reported and gives [False], an
    [OverflowError] is not caught; otherwise the source and the new
    date are printed, before anything is written. *)
Lemma modify_image_datetime_from_source path Y M_ out w img T w1 :
  Image_open path w = (Ok img, w) ->
  current_datetime_of path w = (Ok T, w1) ->
  (forall e, new_datetime T Y M_ = Raise e ->
     modify_image_datetime path Y M_ out w
     = if is_ValueError e
       then (Ok false, printed w1 [ErrorModifyingImageDatetime e])
       else (Raise e, w1)) /\
  (forall T', new_datetime T Y M_ = Ok T' ->
     exists more,
       stdout (snd (modify_image_datetime path Y M_ out w))
       = (stdout w1 ++ [OriginalDatetime T; NewDatetime T'] ++ more)%list).
Proof.
  intros Ho Hc. split.
  - intros e He. pose proof (new_datetime_raises _ _ _ _ He) as HV.
    unfold modify_image_datetime.
    match goal with
    | |- bind ?m ?k w = _ =>
        assert (E : m w = if is_ValueError e
                          then (Ok None, printed w1 [ErrorModifyingImageDatetime e])
                          else (Raise e, w1))
    end.
    { unfold try_except.
      rewrite (bind_ok _ _ _ _ _ _ _ Ho), (bind_ok _ _ _ _ _ _ _ Hc).
      rewrite (bind_raise _ _ _ _ _ e w1) by (unfold lift; now rewrite He).
      destruct (c_int Y && keyword_fits M_);
        [rewrite HV, orb_true_r | subst e]; reflexivity. }
    destruct (is_ValueError e).
    + rewrite (bind_ok _ _ _ _ _ _ _ E). reflexivity.
    + rewrite (bind_raise _ _ _ _ _ _ _ E). reflexivity.
  - intros T' HT'.
    assert (Hext : extends (printed w1 [OriginalDatetime T; NewDatetime T'])
                           (snd (modify_image_datetime path Y M_ out w))).
    { unfold modify_image_datetime. apply extends_bind_from.
      - eapply extends_try_except_from.
        + rewrite (bind_ok _ _ _ _ _ _ _ Ho), (bind_ok _ _ _ _ _ _ _ Hc).
          rewrite (bind_ok _ _ _ _ _ T' w1) by (unfold lift; now rewrite HT').
          do 2 rewrite bind_print_printed. rewrite printed_printed. cbn [app].
          reflexivity.
        + cbv zeta. unfold Image_save. repeat steady_step.
          apply steady_update_exif.
        + intros e h E. destruct (_ || _); inversion E; subst.
          repeat steady_step.
      - intros r. unfold os_utime, datetime_timestamp. repeat steady_step. }
    destruct Hext as (_ & more & Hmore). exists more.
    rewrite Hmore. cbn. now rewrite <- app_assoc.
Qed.

(* ================================================================== *)
(** ** The transformed timestamp *)

(** C1. For a source timestamp [T] and a substitution of year [Y] and
    optional month [M_] that is valid for it, the transform of lines
    88-91 of [modify_image_datetime] returns a timestamp [T'] with the
    day, hour, minute and second of [T], year [Y], and month [M_] when
    it is given and the month of [T] otherwise; and whenever
    [modify_image_datetime] has [T] as its source timestamp, [T'] is the
    new date it reports, next to [T], before it writes anything. *)
Theorem C1_transform_preserves_day_and_time (T : datetime) (Y : Z)
        (M_ : option Z) :
  valid_datetime T -> valid_substitution T Y M_ ->
  exists T', new_datetime T Y M_ = Ok T' /\
    day T' = day T /\ hour T' = hour T /\ minute T' = minute T /\
    second T' = second T /\ year T' = Y /\
    month T' = match M_ with Some m => m | None => month T end /\
    forall path out w img w1,
      Image_open path w = (Ok img, w) ->
      current_datetime_of path w = (Ok T, w1) ->
      exists more,
        stdout (snd (modify_image_datetime path Y M_ out w))
        = (stdout w1 ++ [OriginalDatetime T; NewDatetime T'] ++ more)%list.
Proof.
  intros HT HS. pose proof (new_datetime_ok T Y M_ HT HS) as E.
  eexists. split; [exact E|].
  cbn [day hour minute second year month].
  repeat (split; [reflexivity|]).
  intros path out w img w1 Ho Hc.
  apply (modify_image_datetime_from_source path Y M_ out w img T w1 Ho Hc).
  exact E.
Qed.

Lemma valid_may_17_2019 : valid_datetime may_17_2019.
Proof. reflexivity. Qed.

Lemma valid_substitution_2023_12 : valid_substitution may_17_2019 2023 (Some 12).
Proof.
  unfold valid_substitution, MINYEAR, MAXYEAR, _days_in_month. simpl. lia.
Qed.

Lemma C1_witness :
  exists T', new_datetime may_17_2019 2023 (Some 12) = Ok T' /\
    day T' = 17 /\ hour T' = 10 /\ minute T' = 0 /\
    second T' = 0 /\ year T' = 2023 /\ month T' = 12.
Proof.
  destruct (C1_transform_preserves_day_and_time may_17_2019 2023 (Some 12)
              valid_may_17_2019 valid_substitution_2023_12)
    as (T' & H0 & H1 & H2 & H3 & H4 & H5 & H6 & _).
  exists T'. repeat split; assumption.
Defined.

(** C2. For a substitution that is valid for [T], applying the transform
    to its own result gives that result again. *)
Theorem C2_transform_idempotent (T : datetime) (Y : Z) (M_ : option Z) :
  valid_datetime T -> valid_substitution T Y M_ ->
  exists T', new_datetime T Y M_ = Ok T' /\ new_datetime T' Y M_ = Ok T'.
Proof.
  intros HT HS. pose proof (new_datetime_ok T Y M_ HT HS) as E.
  eexists. split; [exact E|].
  pose proof (new_datetime_twice T Y M_) as H2. rewrite E in H2. exact H2.
Qed.

Lemma C2_witness :
  exists T', new_datetime may_17_2019 2023 (Some 12) = Ok T' /\
             new_datetime T' 2023 (Some 12) = Ok T'.
Proof.
  exact (C2_transform_idempotent may_17_2019 2023 (Some 12)
           valid_may_17_2019 valid_substitution_2023_12).
Defined.



(** C5, as the code has it. For a file that is unreadable or corrupt,
    [Image.open] raises an [OSError] naming the path, and the reader
    catches it: it prints the error and returns [None], the value it
    returns for a missing field. The hard failure is that of the caller
    [modify_image_datetime], which opens the file itself, prints the
    error and returns [False]. *)
Theorem C5_reader_catches_read_failure (path : string) (w : world) :
  unreadable_or_corrupt w path ->
  exists k,
    fst (Image_open path w) = Raise (OSError k path) /\
    get_image_datetime path w
    = (Ok None, printed w [ErrorReadingImageDatetime (OSError k path)]) /\
    forall Y M_ out,
      modify_image_datetime path Y M_ out w
      = (Ok false, printed w [ErrorModifyingImageDatetime (OSError k path)]).
Proof.
  intros H. destruct (unreadable_or_corrupt_open_fails w path H) as [k Hk].
  exists k. split; [exact Hk|]. split.
  - now apply get_image_datetime_open_fails.
  - intros Y M_ out. now apply modify_image_datetime_open_fails.
Qed.

Lemma broken_jpg_is_corrupt : unreadable_or_corrupt example_world "broken.jpg".
Proof.
  eexists. split; [reflexivity|]. right. reflexivity.
Qed.

Lemma C5_witness :
  exists k,
    fst (Image_open "broken.jpg" example_world)
    = Raise (OSError k "broken.jpg") /\
    get_image_datetime "broken.jpg" example_world
    = (Ok None,
       printed example_world
         [ErrorReadingImageDatetime (OSError k "broken.jpg")]) /\
    forall Y M_ out,
      modify_image_datetime "broken.jpg" Y M_ out example_world
      = (Ok false,
         printed example_world
           [ErrorModifyingImageDatetime (OSError k "broken.jpg")]).
Proof.
  exact (C5_reader_catches_read_failure "broken.jpg" example_world
           broken_jpg_is_corrupt).
Defined.

(** On a corrupt file the reader raises nothing: it returns [None], as
    it does for the image without the field. *)
Lemma C5_counterexample :
  unreadable_or_corrupt example_world "broken.jpg" /\
  fst (get_image_datetime "broken.jpg" example_world) = Ok None /\
  fst (get_image_datetime "plain.jpg" example_world) = Ok None.
Proof.
  split; [apply broken_jpg_is_corrupt|]. split; vm_compute; reflexivity.
Qed.

(* ================================================================== *)
(** ** A folder that does not exist *)

Lemma sorted_nil : sorted [] = [].
Proof. reflexivity. Qed.

(** C7, as the code has it. For a folder path that does not exist,
    discovery without recursion fails with the [OSError] of
    [os.listdir] ([FileNotFoundError] when the name is missing) and
    returns no sequence; recursive discovery returns the empty sequence,
    [os.walk] ignoring the error; the command itself rejects the path
    before any discovery, with exit status 1. *)
Theorem C7_discovery_of_missing_folder (path : string) (w : world)
        (k : os_error) :
  lookup (fs w) path = Errno k ->
  find_jpeg_files path false w = (Raise (OSError k path), w) /\
  find_jpeg_files path true w = (Ok [], w) /\
  forall Y M_ out show recursive dry,
    main (mkarguments path Y M_ out show recursive dry) w
    = (Raise (SystemExit 1), printed w [PathNotFound path]).
Proof.
  intros H. split; [|split].
  - unfold find_jpeg_files, os_listdir, bind. rewrite reading_run, H. reflexivity.
  - unfold find_jpeg_files, os_walk, bind. rewrite reading_run, H. reflexivity.
  - intros. unfold main, os_path_exists. unfold bind at 1. unfold reading.
    cbn [arg_path]. rewrite H. reflexivity.
Qed.

Lemma C7_witness :
  find_jpeg_files "missing" false example_world
  = (Raise (OSError FileNotFoundError "missing"), example_world) /\
  find_jpeg_files "missing" true example_world = (Ok [], example_world) /\
  forall Y M_ out show recursive dry,
    main (mkarguments "missing" Y M_ out show recursive dry) example_world
    = (Raise (SystemExit 1), printed example_world [PathNotFound "missing"]).
Proof.
  exact (C7_discovery_of_missing_folder "missing" example_world
           FileNotFoundError eq_refl).
Defined.

(** Recursive discovery of a folder that does not exist returns the
    empty list and no error. *)
Lemma C7_counterexample :
  does_not_exist example_world "missing" /\
  fst (find_jpeg_files "missing" true example_world) = Ok [].
Proof.
  split; [exists FileNotFoundError; reflexivity | reflexivity].
Qed.

(* ================================================================== *)
(** ** The result of a batch run *)

(** What the reader returns depends on the machine and the file system
    only, not on what has been printed. *)
Lemma get_image_datetime_same_files path w1 w2 :
  machine w1 = machine w2 -> fs w1 = fs w2 ->
  fst (get_image_datetime path w1) = fst (get_image_datetime path w2).
Proof.
  intros Hm Hf. unfold get_image_datetime, try_except, bind, Image_open, reading.
  rewrite Hf. destruct (lookup (fs w2) path) as [[f|es]|k]; cbn; try reflexivity.
  destruct (can_read f); cbn; [|reflexivity].
  destruct (content f) as [img|]; cbn; [|reflexivity].
  destruct (find _ _) as [[tag value]|]; cbn; [|reflexivity].
  unfold lift. destruct (strptime value) as [t|e] eqn:E; cbn; [reflexivity|].
  rewrite (strptime_raises _ _ E), orb_true_r. reflexivity.
Qed.

Lemma dry_run_item_safe Y M_ i path w0 w :
  machine w = machine w0 -> fs w = fs w0 -> dry_run_safe w0 Y M_ path ->
  fst (dry_run_item Y M_ (i, path) w) = Ok tt.
Proof.
  intros Hm Hf Hsafe. unfold dry_run_safe in Hsafe.
  unfold dry_run_item. rewrite bind_print_printed.
  rewrite (get_image_datetime_same_files path w0
             (printed w [DryRunItem i (basename path)]))
    in Hsafe by (cbn; congruence).
  unfold bind at 1.
  destruct (get_image_datetime path _) as [[[t|]|e] w1] eqn:E; cbn [fst] in *.
  - destruct Hsafe as [t' Ht']. unfold bind, lift. rewrite Ht'. reflexivity.
  - reflexivity.
  - pose proof (get_image_datetime_never_raises path
                  (printed w [DryRunItem i (basename path)]) e) as H.
    rewrite E in H. specialize (H eq_refl). discriminate.
Qed.

Lemma dry_run_loop_safe Y M_ w0 files :
  Forall (dry_run_safe w0 Y M_) files ->
  forall start w, machine w = machine w0 -> fs w = fs w0 ->
    fst (for_each (enumerate files start) (dry_run_item Y M_) w) = Ok tt.
Proof.
  induction 1 as [|path files Hsafe _ IH]; intros start w Hm Hf; [reflexivity|].
  cbn [enumerate]. unfold for_each. cbn [for_fold].
  pose proof (dry_run_item_safe Y M_ start path w0 w Hm Hf Hsafe) as Hitem.
  pose proof (read_only_dry_run_item Y M_ (start, path) w) as (Hm1 & Hf1 & _).
  unfold bind.
  destruct (dry_run_item Y M_ (start, path) w) as [[[]|e] w1];
    cbn [fst snd] in *; [|discriminate].
  apply IH; congruence.
Qed.

(** A dry run over files that are all safe returns its triple. *)
Lemma process_folder_dry_run_returns folder Y M_ out recursive w files :
  find_jpeg_files folder recursive w = (Ok files, w) ->
  Forall (dry_run_safe w Y M_) files ->
  fst (process_folder folder Y M_ out recursive true w) = Ok (0, 0, len files).
Proof.
  intros Hfind Hsafe.
  assert (Hno : forall e,
             fst (process_folder folder Y M_ out recursive true w) <> Raise e);
    [|destruct (process_folder_dry_outcome folder Y M_ out recursive w files Hfind)
        as [H | [[why H] | [H _]]];
      [exact H | now apply Hno in H | now apply Hno in H]].
  intros e.
  unfold process_folder. rewrite (bind_ok _ _ _ _ _ _ _ Hfind).
  destruct files as [|f files']; [discriminate|].
  set (fl := f :: files') in *. cbv beta iota. rewrite bind_print.
  match goal with |- context [bind (if recursive then _ else _) ?k ?w0] =>
    assert (exists w1,
              bind (if recursive then print ProcessingRecursively else ret tt) k w0
              = k tt w1 /\ machine w1 = machine w /\ fs w1 = fs w)
      as (w1 & -> & Hm1 & Hf1)
      by (destruct recursive; eexists; (split; [reflexivity|]); split; reflexivity) end.
  rewrite bind_print.
  match goal with |- context [bind (for_each ?l ?b) ?k ?w0] =>
    pose proof (dry_run_loop_safe Y M_ w fl Hsafe 1 w0 Hm1 Hf1) as Hloop;
    destruct (for_each l b w0) as [[[]|ex] w2] eqn:E
  end; cbn [fst] in Hloop; [|discriminate].
  rewrite (bind_ok _ _ _ _ _ _ _ E). discriminate.
Qed.

(** C10. On an existing folder discovery returns a list [files]. A
    batch run without dry-run returns a triple
    [(succeeded, failed, total)] with [succeeded + failed = total],
    [total] the number of files discovered and both counts
    non-negative; the one other outcome is the [OverflowError] of
    [replace], which the loop does not catch, for a year or month that
    does not fit a C [int]. In dry-run mode the triple returned is
    [(0, 0, total)]: it is returned whenever the change can be shown for
    every file, and the other outcomes of a dry run are the [ValueError]
    and the [OverflowError] of a date transform. *)
Theorem C10_batch_result_counts (folder : string) (Y : Z) (M_ : option Z)
        (out : option string) (recursive : bool) (w : world)
        (es : list (string * node)) :
  lookup (fs w) folder = Done (Dir es) ->
  exists files,
    fst (find_jpeg_files folder recursive w) = Ok files /\
    (forall r, fst (process_folder folder Y M_ out recursive false w) = Ok r ->
       exists succeeded failed,
         r = (succeeded, failed, len files) /\
         succeeded + failed = len files /\ 0 <= succeeded /\ 0 <= failed) /\
    ((exists r, fst (process_folder folder Y M_ out recursive false w) = Ok r) \/
     (fst (process_folder folder Y M_ out recursive false w)
      = Raise OverflowError /\ fits_c_int Y M_ = false)) /\
    (forall r, fst (process_folder folder Y M_ out recursive true w) = Ok r ->
               r = (0, 0, len files)) /\
    (Forall (dry_run_safe w Y M_) files ->
     fst (process_folder folder Y M_ out recursive true w)
     = Ok (0, 0, len files)) /\
    (fst (process_folder folder Y M_ out recursive true w)
     = Ok (0, 0, len files) \/
     (exists why, fst (process_folder folder Y M_ out recursive true w)
                  = Raise (ValueError why)) \/
     (fst (process_folder folder Y M_ out recursive true w)
      = Raise OverflowError /\ fits_c_int Y M_ = false)).
Proof.
  intros Hdir.
  pose proof (find_jpeg_files_existing folder recursive w es Hdir) as Hfind.
  eexists. split; [rewrite Hfind; reflexivity|].
  pose proof (process_folder_dry_outcome folder Y M_ out recursive w _ Hfind) as Hdry.
  split; [|split; [|split; [|split; [|exact Hdry]]]].
  - intros r Hr.
    exact (process_folder_counted folder Y M_ out recursive w _ r Hfind Hr).
  - destruct (fst (process_folder folder Y M_ out recursive false w))
      as [r|e] eqn:E; [left; now exists r | right].
    destruct (process_folder_raises folder Y M_ out recursive w _ e Hfind E)
      as [-> Hfit].
    now split.
  - intros r Hr.
    destruct Hdry as [H | [[why H] | [H _]]]; rewrite H in Hr; congruence.
  - apply process_folder_dry_run_returns. exact Hfind.
Qed.

(* ================================================================== *)
(** ** A day that the target month does not have *)

Lemma read_only_current_datetime_of path : read_only (current_datetime_of path).
Proof.
  unfold current_datetime_of, os_path_getmtime.
  repeat (read_only_step || apply read_only_get_image_datetime).
Qed.

(** [modify_image_datetime] on a source timestamp whose day the target
    month does not have: the [ValueError] of the transform is caught,
    the function returns [False] and the file system is as before. *)
Lemma modify_image_datetime_overflow path Y M_ out w img T w1 :
  Image_open path w = (Ok img, w) ->
  current_datetime_of path w = (Ok T, w1) ->
  MINYEAR <= Y <= MAXYEAR -> 1 <= target_month T M_ <= 12 ->
  _days_in_month Y (target_month T M_) < day T ->
  modify_image_datetime path Y M_ out w
  = (Ok false, printed w1 [ErrorModifyingImageDatetime (ValueError DayOutOfRange)])
  /\ fs w1 = fs w.
Proof.
  intros Ho Hc Hy Hm Hd. split.
  - destruct (modify_image_datetime_from_source path Y M_ out w img T w1 Ho Hc)
      as [Hbad _].
    exact (Hbad _ (new_datetime_overflow T Y M_ Hy Hm Hd)).
  - pose proof (read_only_current_datetime_of path w) as (_ & Hf & _).
    now rewrite Hc in Hf.
Qed.

(** One turn of the processing loop, by what happens to the output
    path and to the file. *)
Lemma process_item_run folder Y M_ out recursive total i path s e w :
  let w0 := printed w [Processing i total (basename path)] in
  process_item folder Y M_ out recursive total (i, path) (s, e) w =
  match output_path_for folder out recursive path w0 with
  | (Ok output_path, w2) =>
      match modify_image_datetime path Y M_ output_path w2 with
      | (Ok true, w3) => (Ok (s + 1, e), printed w3 [SuccessfullyProcessed])
      | (Ok false, w3) => (Ok (s, e + 1), printed w3 [FailedToProcess])
      | (Raise ex, w3) =>
          if is_OSError ex || is_ValueError ex
          then (Ok (s, e + 1), printed w3 [ErrorProcessing path ex])
          else (Raise ex, w3)
      end
  | (Raise ex, w2) =>
      if is_OSError ex || is_ValueError ex
      then (Ok (s, e + 1), printed w2 [ErrorProcessing path ex])
      else (Raise ex, w2)
  end.
Proof.
  intros w0. unfold process_item. rewrite bind_print_printed. fold w0.
  unfold try_except, bind.
  destruct (output_path_for folder out recursive path w0) as [[op|ex] w2].
  - destruct (modify_image_datetime path Y M_ op w2) as [[[|]|ex] w3];
      try reflexivity.
    destruct (is_OSError ex || is_ValueError ex); reflexivity.
  - destruct (is_OSError ex || is_ValueError ex); reflexivity.
Qed.

(** The day of [T] does not exist in the target month. *)
Lemma processing_loop_counts_overflow_and_continues
      T Y M_ folder out recursive total i path rest s e w :
  MINYEAR <= Y <= MAXYEAR -> 1 <= target_month T M_ <= 12 ->
  _days_in_month Y (target_month T M_) < day T ->
  (forall output_path w2,
     output_path_for folder out recursive path
       (printed w [Processing i total (basename path)]) = (Ok output_path, w2) ->
     exists img w3, Image_open path w2 = (Ok img, w2) /\
                    current_datetime_of path w2 = (Ok T, w3)) ->
  exists w',
    for_fold ((i, path) :: rest) (s, e)
      (process_item folder Y M_ out recursive total) w
    = for_fold rest (s, e + 1)
        (process_item folder Y M_ out recursive total) w'.
Proof.
  intros Hy Hm Hd Hsrc. cbn [for_fold].
  assert (exists w', process_item folder Y M_ out recursive total (i, path) (s, e) w
                     = (Ok (s, e + 1), w')) as [w' Hitem].
  { rewrite process_item_run. cbv zeta.
    pose proof (raises_only_output_path_for folder out recursive path
                  (printed w [Processing i total (basename path)])) as Hr.
    destruct (output_path_for folder out recursive path _) as [[op|ex] w2] eqn:E.
    - destruct (Hsrc op w2 eq_refl) as (img & w3 & Ho & Hc).
      destruct (modify_image_datetime_overflow path Y M_ op w2 img T w3
                  Ho Hc Hy Hm Hd) as [-> _].
      eexists; reflexivity.
    - specialize (Hr ex eq_refl). unfold os_or_value_error in Hr. rewrite Hr.
      eexists; reflexivity. }
  exists w'.
  apply (bind_ok _ _ _ (fun c => for_fold rest c _) w (s, e + 1) w' Hitem).
Qed.

(** C3, as the code has it. When the day of the source timestamp does
    not exist in the target month, the date transform raises
    [ValueError] and produces no timestamp; [modify_image_datetime]
    catches it, writes nothing and returns [False]; in a batch run
    without the dry-run flag the file is counted as failed, also when
    its output path cannot be prepared, and the loop goes on with the
    files that follow. *)
Theorem C3_overflow_is_counted_as_failure (T : datetime) (Y : Z)
        (M_ : option Z) :
  MINYEAR <= Y <= MAXYEAR -> 1 <= target_month T M_ <= 12 ->
  _days_in_month Y (target_month T M_) < day T ->
  new_datetime T Y M_ = Raise (ValueError DayOutOfRange) /\
  (forall path out w img w1,
     Image_open path w = (Ok img, w) ->
     current_datetime_of path w = (Ok T, w1) ->
     modify_image_datetime path Y M_ out w
     = (Ok false,
        printed w1 [ErrorModifyingImageDatetime (ValueError DayOutOfRange)])
     /\ fs w1 = fs w) /\
  (forall folder out recursive total i path rest s e w,
     (forall output_path w2,
        output_path_for folder out recursive path
          (printed w [Processing i total (basename path)])
        = (Ok output_path, w2) ->
        exists img w3, Image_open path w2 = (Ok img, w2) /\
                       current_datetime_of path w2 = (Ok T, w3)) ->
     exists w',
       for_fold ((i, path) :: rest) (s, e)
         (process_item folder Y M_ out recursive total) w
       = for_fold rest (s, e + 1)
           (process_item folder Y M_ out recursive total) w').
Proof.
  intros Hy Hm Hd. split; [now apply new_datetime_overflow|]. split.
  - intros path out w img w1 Ho Hc.
    now apply (modify_image_datetime_overflow path Y M_ out w img T w1).
  - intros. now apply (processing_loop_counts_overflow_and_continues T).
Qed.

Lemma C3_witness :
  new_datetime (mkdatetime 2020 1 29 8 0 0 0) 2023 (Some 2)
  = Raise (ValueError DayOutOfRange) /\
  exists w',
    for_fold [(1, "leap/feb29.jpg"); (2, "leap/later.jpg")] (0, 0)
      (process_item "leap" 2023 (Some 2) None false 2) example_world
    = for_fold [(2, "leap/later.jpg")] (0, 1)
        (process_item "leap" 2023 (Some 2) None false 2) w'.
Proof.
  destruct (C3_overflow_is_counted_as_failure
              (mkdatetime 2020 1 29 8 0 0 0) 2023 (Some 2))
    as (Htransform & _ & Hloop).
  - unfold MINYEAR, MAXYEAR. lia.
  - simpl. lia.
  - unfold _days_in_month. simpl. lia.
  - split; [exact Htransform|].
    apply (Hloop "leap" None false 2 1 "leap/feb29.jpg"
                 [(2, "leap/later.jpg")] 0 0 example_world).
    intros output_path w2 H. injection H as <- <-.
    eexists. eexists. split; reflexivity.
Defined.

(** The same batch with the dry-run flag: the [ValueError] of the first
    file leaves [process_folder]; no count is returned and the second
    file is not reached. *)
Lemma C3_counterexample :
  fst (find_jpeg_files "leap" false example_world)
  = Ok ["leap/feb29.jpg"; "leap/later.jpg"] /\
  fst (process_folder "leap" 2023 (Some 2) None false true example_world)
  = Raise (ValueError DayOutOfRange) /\
  stdout (snd (process_folder "leap" 2023 (Some 2) None false true example_world))
  = [FoundJpegFiles 2 "leap"; DryRunModeBatch; DryRunItem 1 "feb29.jpg"].
Proof. repeat split; vm_compute; reflexivity. Qed.

(** Without the flag the batch counts one failure and one success. *)
Example leap_batch :
  fst (process_folder "leap" 2023 (Some 2) None false false example_world)
  = Ok (1, 1, 2).
Proof. vm_compute. reflexivity. Qed.

(** The same batch without the dry-run flag changes the file system: the
    property of the dry run is not one of every run. *)
Lemma batch_run_changes_files :
  fs (snd (process_folder "leap" 2023 (Some 2) None false false example_world))
  <> fs example_world.
Proof. vm_compute. discriminate. Qed.

Lemma C10_witness :
  exists files,
    fst (find_jpeg_files "photos" true example_world) = Ok files /\
    (forall r,
       fst (process_folder "photos" 2023 None None true false example_world)
       = Ok r ->
       exists succeeded failed,
         r = (succeeded, failed, len files) /\
         succeeded + failed = len files /\ 0 <= succeeded /\ 0 <= failed) /\
    (forall r,
       fst (process_folder "photos" 2023 None None true true example_world)
       = Ok r -> r = (0, 0, len files)).
Proof.
  edestruct (C10_batch_result_counts "photos" 2023 None None true example_world)
    as (files & Hfind & Hcounts & _ & Hdry & _).
  - vm_compute. reflexivity.
  - exists files. repeat split; assumption.
Defined.

Example photos_batch :
  fst (process_folder "photos" 2023 None None true false example_world)
  = Ok (3, 0, 3) /\
  fst (process_folder "photos" 2023 None None true true example_world)
  = Ok (0, 0, 3).
Proof. split; vm_compute; reflexivity. Qed.

(* ================================================================== *)
(** ** The order of paths *)

Lemma string_leb_trans (a b c : string) :
  String.leb a b = true -> String.leb b c = true -> String.leb a c = true.
Proof.
  unfold String.leb. revert b c.
  induction a as [|x a IH]; intros [|y b] [|z c]; cbn; try congruence.
  unfold Ascii.compare.
  destruct (N.compare_spec (N_of_ascii x) (N_of_ascii y)) as [E1|L1|G1];
    destruct (N.compare_spec (N_of_ascii y) (N_of_ascii z)) as [E2|L2|G2];
    destruct (N.compare_spec (N_of_ascii x) (N_of_ascii z)) as [E3|L3|G3];
    try congruence; try lia.
  apply IH.
Qed.

Lemma string_leb_refl (a : string) : String.leb a a = true.
Proof.
  destruct (String.leb_total a a); assumption.
Qed.

(** [sorted] returns its argument in non-decreasing order... *)
Lemma sorted_StronglySorted l :
  StronglySorted (fun a b => String.leb a b = true) (sorted l).
Proof.
  apply (StringSort.StronglySorted_sort l).
  intros a b c. unfold is_true, StringOrder.leb. apply string_leb_trans.
Qed.

(** ... and with the same elements. *)
Lemma sorted_Permutation l : Permutation l (sorted l).
Proof. apply StringSort.Permuted_sort. Qed.

(* ================================================================== *)
(** ** Paths of the entries of a directory *)

Lemma split_slash_nonempty s : split_slash s <> [].
Proof.
  destruct s as [|a s]; cbn; [discriminate|].
  destruct (Ascii.eqb a slash); [discriminate|].
  destruct (split_slash s); discriminate.
Qed.

Lemma split_slash_app_slash p n :
  split_slash (p ++ String slash n) = (split_slash p ++ split_slash n)%list.
Proof.
  induction p as [|a p IH]; cbn.
  - reflexivity.
  - destruct (Ascii.eqb a slash).
    + now rewrite IH.
    + rewrite IH. pose proof (split_slash_nonempty p) as Hne.
      destruct (split_slash p); [congruence | reflexivity].
Qed.

Lemma split_slash_plain n : has_slash n = false -> split_slash n = [n].
Proof.
  induction n as [|a n IH]; cbn; [reflexivity|].
  intros H. apply orb_false_iff in H as [Ha Hn]. rewrite Ha, (IH Hn).
  reflexivity.
Qed.

Lemma endswith_slash_inv p :
  endswith_slash p = true -> exists p', p = (p' ++ String slash EmptyString)%string.
Proof.
  induction p as [|a p IH]; cbn; [discriminate|].
  destruct p as [|b p].
  - intros H. apply Ascii.eqb_eq in H. subst. now exists EmptyString.
  - intros H. destruct (IH H) as [p' Hp']. exists (String a p').
    cbn. now rewrite <- Hp'.
Qed.

Lemma append_not_empty (a b : string) :
  a <> EmptyString -> ((a ++ b) =? "")%string = false.
Proof. destruct a; [congruence | reflexivity]. Qed.

Lemma string_app_assoc (a b c : string) :
  ((a ++ b) ++ c)%string = (a ++ (b ++ c))%string.
Proof. induction a as [|x a IH]; cbn; [reflexivity | now rewrite IH]. Qed.

Lemma locate_app cs1 cs2 z :
  locate (cs1 ++ cs2) z =
  match locate cs1 z with
  | Done z' => locate cs2 z'
  | Errno k => Errno k
  end.
Proof.
  revert z. induction cs1 as [|c cs1 IH]; intros z; cbn; [reflexivity|].
  destruct (step c z); [apply IH | reflexivity].
Qed.

Lemma step_plain name z es :
  here z = Dir es -> plain_name name = true ->
  step name z =
  match assoc name es with
  | Some child => Done (mkcursor ((name, es) :: above z) child)
  | None => Errno FileNotFoundError
  end.
Proof.
  intros Hz Hp. unfold step. rewrite Hz.
  unfold plain_name in Hp. apply negb_true_iff in Hp.
  apply orb_false_iff in Hp as [Hp H3]. apply orb_false_iff in Hp as [H1 H2].
  now rewrite H1, H2, H3.
Qed.

Lemma step_empty z es : here z = Dir es -> step "" z = Done z.
Proof. intros Hz. unfold step. now rewrite Hz. Qed.

Lemma entry_name_ok_inv name :
  entry_name_ok name = true ->
  plain_name name = true /\ has_slash name = false /\
  startswith_slash name = false.
Proof.
  unfold entry_name_ok. intros H. apply andb_true_iff in H as [Hp Hs].
  apply negb_true_iff in Hs. repeat split; try assumption.
  destruct name as [|a n]; [reflexivity|]. cbn in *.
  now apply orb_false_iff in Hs as [-> _].
Qed.

(** The path that [os.path.join] builds for an entry of a directory
    names that entry. *)
Lemma lookup_join root folder es name :
  lookup root folder = Done (Dir es) -> entry_name_ok name = true ->
  lookup root (join folder name) =
  match assoc name es with
  | Some child => Done child
  | None => Errno FileNotFoundError
  end.
Proof.
  intros Hl Hn. apply entry_name_ok_inv in Hn as (Hp & Hs & Hst).
  unfold lookup in Hl. destruct (folder =? "")%string eqn:Hf; [discriminate|].
  apply String.eqb_neq in Hf.
  destruct (locate (split_slash folder) (mkcursor [] root)) as [z|k] eqn:Hloc;
    [|discriminate].
  injection Hl as Hz.
  assert (Hgoal : forall cs,
            locate cs (mkcursor [] root) = Done z ->
            match locate (cs ++ [name]) (mkcursor [] root) with
            | Done z' => Done (here z')
            | Errno k => Errno k
            end = match assoc name es with
                  | Some child => Done child
                  | None => Errno FileNotFoundError
                  end).
  { intros cs Hcs. rewrite locate_app, Hcs. cbn [locate].
    rewrite (step_plain name z es Hz Hp). now destruct (assoc name es). }
  unfold join. rewrite Hst.
  assert ((folder =? "")%string = false) as -> by now apply String.eqb_neq.
  cbn [orb]. destruct (endswith_slash folder) eqn:He.
  - destruct (endswith_slash_inv folder He) as [p' ->].
    unfold lookup. rewrite append_not_empty by assumption.
    rewrite string_app_assoc. cbn [String.append].
    rewrite split_slash_app_slash, (split_slash_plain name Hs).
    apply Hgoal.
    rewrite split_slash_app_slash in Hloc. cbn [split_slash] in Hloc.
    rewrite locate_app in Hloc.
    destruct (locate (split_slash p') (mkcursor [] root)) as [z1|k] eqn:E1;
      [|discriminate].
    cbn [locate] in Hloc. unfold step in Hloc.
    destruct (here z1); [discriminate|]. cbn in Hloc. congruence.
  - unfold lookup. rewrite append_not_empty by assumption.
    cbn [String.append].
    rewrite split_slash_app_slash, (split_slash_plain name Hs).
    now apply Hgoal.
Qed.

Lemma assoc_In name child es :
  NoDup (map fst es) -> In (name, child) es -> assoc name es = Some child.
Proof.
  induction es as [|[n x] es IH]; cbn; [tauto|].
  intros Hnd [E | Hin].
  - injection E as -> ->. now rewrite String.eqb_refl.
  - inversion Hnd as [|? ? Hnotin Hnd']; subst.
    destruct (n =? name)%string eqn:En.
    + apply String.eqb_eq in En. subst. exfalso. apply Hnotin.
      now apply (in_map fst) in Hin.
    + now apply IH.
Qed.

(** [os.path.isfile] on the path built for an entry tells whether the
    entry is a regular file. *)
Lemma isfile_in_join root folder es name child :
  lookup root folder = Done (Dir es) -> listing_ok es ->
  In (name, child) es ->
  isfile_in root (join folder name) = negb (is_dir_node child).
Proof.
  intros Hl [Hnd Hok] Hin. unfold isfile_in.
  rewrite Forall_forall in Hok.
  rewrite (lookup_join root folder es name Hl (Hok _ Hin)).
  rewrite (assoc_In _ _ _ Hnd Hin). now destruct child.
Qed.

(** Without recursion, what is collected is the recognised direct
    files of the folder. *)
Lemma collect_flat_spec root folder es :
  lookup root folder = Done (Dir es) -> listing_ok es ->
  collect_flat root folder (map fst es)
  = filter is_jpeg_file (map (join folder) (filenames es)).
Proof.
  intros Hl Hok. unfold collect_flat, filenames.
  assert (H : forall l, incl l es ->
            filter (fun p => isfile_in root p && is_jpeg_file p)
                   (map (join folder) (map fst l))
            = filter is_jpeg_file
                (map (join folder)
                   (map fst (filter (fun e => negb (is_dir_node (snd e))) l)))).
  { induction l as [|[name child] l IH]; intros Hincl; [reflexivity|].
    assert (Hin : In (name, child) es) by (apply Hincl; now left).
    assert (Hl' : incl l es) by (intros e He; apply Hincl; now right).
    cbn [map filter fst snd].
    rewrite (isfile_in_join root folder es name child Hl Hok Hin).
    destruct (negb (is_dir_node child)); cbn [andb map filter fst];
      rewrite (IH Hl'); reflexivity. }
  apply H, incl_refl.
Qed.

(* ================================================================== *)
(** ** Recursive discovery *)

(** Induction on a tree: a directory has the property as soon as its
    entries have it. *)
Lemma node_induction (P : node -> Prop) :
  (forall f, P (File f)) ->
  (forall es, Forall (fun e => P (snd e)) es -> P (Dir es)) ->
  forall x, P x.
Proof.
  intros HF HD. fix IH 1. intros [f|es]; [apply HF|].
  apply HD. induction es as [|[name child] es IHes]; constructor.
  - cbn. apply IH.
  - apply IHes.
Qed.

Lemma collect_recursive_app l1 l2 :
  collect_recursive (l1 ++ l2)
  = (collect_recursive l1 ++ collect_recursive l2)%list.
Proof. unfold collect_recursive. apply flat_map_app. Qed.

Lemma filter_is_jpeg_app l1 l2 :
  filter is_jpeg_file (l1 ++ l2)
  = (filter is_jpeg_file l1 ++ filter is_jpeg_file l2)%list.
Proof. apply filter_app. Qed.

(** What the walk collects is, up to order, the recognised files below
    the folder. *)
Lemma collect_recursive_walk x :
  forall top,
    Permutation (collect_recursive (walk_node top x))
                (filter is_jpeg_file (files_below top x)).
Proof.
  induction x as [f|es IH] using node_induction; intros top.
  - cbn. constructor.
  - cbn [walk_node files_below].
    change (collect_recursive ((top, dirnames es, filenames es) :: ?l))
      with (filter is_jpeg_file (map (join top) (filenames es))
            ++ collect_recursive l)%list.
    unfold filenames.
    induction es as [|[name child] es IHes]; [constructor|].
    inversion IH as [|? ? Hchild Hrest]; subst. cbn [snd] in Hchild.
    specialize (IHes Hrest).
    rewrite collect_recursive_app, filter_is_jpeg_app.
    destruct child as [f|sub].
    + cbn [is_dir_node negb filter map fst snd walk_node collect_recursive
           flat_map app].
      destruct (is_jpeg_file (join top name)); cbn [app].
      * constructor. exact IHes.
      * exact IHes.
    + cbn [is_dir_node negb filter snd].
      rewrite Permutation_app_swap_app.
      apply Permutation_app; [apply Hchild | exact IHes].
Qed.

Lemma distinct_NoDup l : distinct l = true -> NoDup l.
Proof.
  induction l as [|x l IH]; cbn; [constructor|].
  intros H. apply andb_true_iff in H as [Hx Hl]. constructor; [|now apply IH].
  intros Hin. apply negb_true_iff in Hx.
  assert (existsb (String.eqb x) l = true) as E
    by (apply existsb_exists; exists x; split; [assumption | apply String.eqb_refl]).
  congruence.
Qed.

Lemma listing_okb_sound es : listing_okb es = true -> listing_ok es.
Proof.
  unfold listing_okb, listing_ok. intros H.
  apply andb_true_iff in H as [Hd Hf]. split.
  - now apply distinct_NoDup.
  - apply Forall_forall. now apply forallb_forall.
Qed.

Lemma filter_split_len A (f : A -> bool) (l : list A) :
  len (filter f l) + len (filter (fun x => negb (f x)) l) = len l.
Proof.
  induction l as [|x l IH]; [reflexivity|]. cbn [filter].
  destruct (f x); cbn [negb]; rewrite !len_cons; lia.
Qed.

Lemma Permutation_len A (l1 l2 : list A) :
  Permutation l1 l2 -> len l1 = len l2.
Proof. intros H. unfold len. now rewrite (Permutation_length H). Qed.

(** What discovery collects on an existing folder, in both modes. *)
Lemma collected_files_spec w folder es (recursive : bool) :
  lookup (fs w) folder = Done (Dir es) ->
  (recursive = false -> listing_ok es) ->
  Permutation
    (if recursive then collect_recursive (walk_node folder (Dir es))
     else collect_flat (fs w) folder (map fst es))
    (filter is_jpeg_file (files_in recursive folder es)).
Proof.
  intros Hl Hok. destruct recursive; cbn [files_in].
  - apply collect_recursive_walk.
  - rewrite (collect_flat_spec _ _ _ Hl (Hok eq_refl)). reflexivity.
Qed.

(** C6. On an existing folder, in both modes, discovery returns without
    error, and without changing anything, a list that is sorted in the
    order of paths and holds exactly the files of the folder that the
    classifier recognises (the direct files, or all the files below the
    folder when recursive): each of them once, no other path. Its
    length [N] is the number of recognised files, and with the number
    [M] of unrecognised files it adds up to the number of files; when no
    file is recognised the result is the empty list, not an error.
    (Without recursion the program asks the file system about each path
    it builds: there the names of the folder are taken to be distinct
    names that a directory can hold.) *)
Theorem C6_discovery_returns_recognised_files_sorted
        (folder : string) (recursive : bool) (w : world)
        (es : list (string * node)) :
  lookup (fs w) folder = Done (Dir es) ->
  (recursive = false -> listing_ok es) ->
  let files := files_in recursive folder es in
  exists result,
    find_jpeg_files folder recursive w = (Ok result, w) /\
    StronglySorted path_le result /\
    Permutation result (filter is_jpeg_file files) /\
    (forall p, In p result <-> In p files /\ is_jpeg_file p = true) /\
    len result = len (filter is_jpeg_file files) /\
    len result + len (filter (fun p => negb (is_jpeg_file p)) files)
    = len files /\
    (filter is_jpeg_file files = [] -> result = []).
Proof.
  intros Hl Hok files.
  pose proof (collected_files_spec w folder es recursive Hl Hok) as Hperm.
  fold files in Hperm.
  eexists. split; [apply (find_jpeg_files_existing _ _ _ _ Hl)|].
  set (collected := if recursive then _ else _) in *.
  assert (Hres : Permutation (sorted collected) (filter is_jpeg_file files)).
  { etransitivity; [symmetry; apply sorted_Permutation | exact Hperm]. }
  split; [apply sorted_StronglySorted|].
  split; [exact Hres|].
  split; [|split; [|split]].
  - intros p. rewrite <- filter_In. split; intros H.
    + eapply Permutation_in; eassumption.
    + eapply Permutation_in; [symmetry|]; eassumption.
  - now apply Permutation_len.
  - rewrite (Permutation_len _ _ _ Hres). apply filter_split_len.
  - intros Hnone. rewrite Hnone in Hres.
    now apply Permutation_sym, Permutation_nil in Hres.
Qed.

Lemma C6_witness :
  exists result,
    find_jpeg_files "photos" false example_world = (Ok result, example_world) /\
    StronglySorted path_le result /\
    Permutation result
      (filter is_jpeg_file
         ["photos/b.JPG"; "photos/notes.txt"; "photos/c.jpeg"; "photos/e.Jpg"]) /\
    len result = 2.
Proof.
  edestruct (C6_discovery_returns_recognised_files_sorted "photos" false
               example_world)
    as (result & Hfind & Hsorted & Hperm & _ & Hlen & _).
  - vm_compute. reflexivity.
  - intros _. apply listing_okb_sound. vm_compute. reflexivity.
  - exists result. repeat split; assumption.
Defined.

(** The two modes on the folder [photos], which holds a sub-folder, a
    directory named like an image and a file with a mixed-case
    extension. *)
Example photos_discovery :
  fst (find_jpeg_files "photos" false example_world)
  = Ok ["photos/b.JPG"; "photos/c.jpeg"] /\
  fst (find_jpeg_files "photos" true example_world)
  = Ok ["photos/b.JPG"; "photos/c.jpeg"; "photos/sub/d.jpg"] /\
  fst (find_jpeg_files "photos/sub/" true example_world)
  = Ok ["photos/sub/d.jpg"] /\
  fst (find_jpeg_files "photos/x.jpg" false example_world) = Ok [].
Proof. repeat split; vm_compute; reflexivity. Qed.

(* ================================================================== *)
(** ** The scenarios of the specification, run on the example machine *)

(** A single file dated 2019:05:17 10:00:00, year 2023 and month 12: the
    three date fields of the file and its two times are those of
    2023:12:17 10:00:00. *)
Example scenario_single_file :
  let w' := snd (main (mkarguments "a.jpg" 2023 (Some 12) None false false false)
                      example_world) in
  lookup (fs w') "a.jpg"
  = Done (File (mkfile true true
                  (Some (mkimage "JPEG"
                           [(306, "2023:12:17 10:00:00")]
                           [(36867, "2023:12:17 10:00:00");
                            (36868, "2023:12:17 10:00:00")]))
                  (utc_timestamp (mkdatetime 2023 12 17 10 0 0 0))
                  (utc_timestamp (mkdatetime 2023 12 17 10 0 0 0)))) /\
  strptime "2023:12:17 10:00:00" = Ok (mkdatetime 2023 12 17 10 0 0 0).
Proof. split; vm_compute; reflexivity. Qed.

(** Three matching files and one that does not match, no recursion, the
    year alone: three files processed, each keeping its month, day and
    time. *)
Example scenario_folder_year_only :
  let run := process_folder "trip" 2020 None None false false example_world in
  fst run = Ok (3, 0, 3) /\
  fst (get_image_datetime "trip/1.jpg" (snd run))
  = Ok (Some (mkdatetime 2020 5 17 10 0 0 0)) /\
  fst (get_image_datetime "trip/2.jpg" (snd run))
  = Ok (Some (mkdatetime 2020 12 31 23 59 59 0)) /\
  fst (get_image_datetime "trip/3.jpeg" (snd run))
  = Ok (Some (mkdatetime 2020 1 1 0 0 0 0)) /\
  lookup (fs (snd run)) "trip/notes.txt"
  = lookup (fs example_world) "trip/notes.txt".
Proof. repeat split; vm_compute; reflexivity. Qed.

(** What the classifier says of some paths. *)
Example classifier_examples :
  is_jpeg_file "a/b.c/photo.JPG" = true /\
  is_jpeg_file "photo.jpeg" = true /\
  is_jpeg_file ".jpg" = false /\
  is_jpeg_file "dir.jpg/readme" = false /\
  is_jpeg_file "archive.jpg.txt" = false /\
  is_jpeg_file "photo.jPg" = false.
Proof. repeat split; reflexivity. Qed.

(* ================================================================== *)
(** * Further properties of the program *)

(** ** When the date transform succeeds *)

Lemma datetime_new_ok_inv y m d h mi s us t :
  datetime_new y m d h mi s us = Ok t ->
  t = mkdatetime y m d h mi s us /\
  MINYEAR <= y <= MAXYEAR /\ 1 <= m <= 12 /\ 1 <= d <= _days_in_month y m /\
  0 <= h <= 23 /\ 0 <= mi <= 59 /\ 0 <= s <= 59 /\ 0 <= us <= 999999.
Proof.
  unfold datetime_new, _check_date_fields, _check_time_fields, rbind.
  destruct (in_range MINYEAR y MAXYEAR) eqn:E1; cbn [negb]; [|discriminate].
  destruct (in_range 1 m 12) eqn:E2; cbn [negb]; [|discriminate].
  destruct (in_range 1 d (_days_in_month y m)) eqn:E3; cbn [negb]; [|discriminate].
  destruct (in_range 0 h 23) eqn:E4; cbn [negb]; [|discriminate].
  destruct (in_range 0 mi 59) eqn:E5; cbn [negb]; [|discriminate].
  destruct (in_range 0 s 59) eqn:E6; cbn [negb]; [|discriminate].
  destruct (in_range 0 us 999999) eqn:E7; cbn [negb]; [|discriminate].
  intros [= <-]. rewrite in_range_true in *. tauto.
Qed.

Lemma datetime_new_valid y m d h mi s us t :
  datetime_new y m d h mi s us = Ok t -> valid_datetime t.
Proof.
  intros H. pose proof (datetime_new_ok_inv _ _ _ _ _ _ _ _ H) as (-> & _).
  unfold valid_datetime. cbn. exact H.
Qed.

Lemma valid_datetime_fields t :
  valid_datetime t ->
  MINYEAR <= year t <= MAXYEAR /\ 1 <= month t <= 12 /\
  1 <= day t <= _days_in_month (year t) (month t).
Proof.
  intros H. apply datetime_new_ok_inv in H. tauto.
Qed.

Lemma days_in_month_bounds y m :
  1 <= m <= 12 -> 28 <= _days_in_month y m <= 31.
Proof.
  intros Hm. unfold _days_in_month.
  assert (m = 1 \/ m = 2 \/ m = 3 \/ m = 4 \/ m = 5 \/ m = 6 \/ m = 7 \/
          m = 8 \/ m = 9 \/ m = 10 \/ m = 11 \/ m = 12) as Hc by lia.
  repeat (destruct Hc as [-> | Hc]); try subst m;
    unfold _DAYS_IN_MONTH; simpl; try destruct (_is_leap y); simpl; lia.
Qed.

(** X1. The transform of a timestamp succeeds exactly when the requested
    year is in 1..9999, the target month is a month and the day of the
    source exists in the target month; what it returns is again a
    timestamp that [datetime] accepts. *)
Theorem transform_succeeds_iff_substitution_valid (T : datetime) (Y : Z)
        (M_ : option Z) :
  valid_datetime T ->
  ((exists T', new_datetime T Y M_ = Ok T') <-> valid_substitution T Y M_) /\
  (forall T', new_datetime T Y M_ = Ok T' -> valid_datetime T').
Proof.
  intros HT. split; [split|].
  - intros [T' H]. apply new_datetime_returns in H.
    apply datetime_new_ok_inv in H. unfold valid_substitution. tauto.
  - intros HS. eexists. now apply new_datetime_ok.
  - intros T' H. apply new_datetime_returns in H.
    eapply datetime_new_valid; eassumption.
Qed.

Lemma transform_succeeds_iff_substitution_valid_witness :
  (exists T', new_datetime may_17_2019 2023 (Some 12) = Ok T') <->
  valid_substitution may_17_2019 2023 (Some 12).
Proof.
  exact (proj1 (transform_succeeds_iff_substitution_valid may_17_2019 2023
                  (Some 12) valid_may_17_2019)).
Defined.

(** X2. A source day of the 28th or earlier is never lost: for every year in
    1..9999 and every month (or none) the transform succeeds. *)
Theorem transform_never_fails_up_to_day_28 (T : datetime) (Y : Z)
        (M_ : option Z) :
  valid_datetime T -> MINYEAR <= Y <= MAXYEAR ->
  (forall m, M_ = Some m -> 1 <= m <= 12) ->
  day T <= 28 ->
  new_datetime T Y M_ =
  Ok (mkdatetime Y (target_month T M_) (day T) (hour T) (minute T) (second T)
                 (microsecond T)).
Proof.
  intros HT HY HM Hd. apply new_datetime_ok; [assumption|].
  pose proof (valid_datetime_fields T HT) as (_ & Hm & Hday).
  assert (Htm : 1 <= target_month T M_ <= 12).
  { destruct M_ as [m|]; cbn; [now apply HM | assumption]. }
  pose proof (days_in_month_bounds Y _ Htm). unfold valid_substitution.
  repeat split; try tauto; lia.
Qed.

Lemma transform_never_fails_up_to_day_28_witness :
  new_datetime may_17_2019 2023 (Some 2)
  = Ok (mkdatetime 2023 2 17 10 0 0 0).
Proof.
  apply (transform_never_fails_up_to_day_28 may_17_2019 2023 (Some 2)).
  - reflexivity.
  - unfold MINYEAR, MAXYEAR. lia.
  - intros m [= <-]. lia.
  - simpl. lia.
Defined.

(** X3. A photo of February 29 whose year alone is changed: the transform
    succeeds exactly for a leap target year. *)
Theorem february_29_needs_a_leap_year (T : datetime) (Y : Z) :
  valid_datetime T -> month T = 2 -> day T = 29 ->
  MINYEAR <= Y <= MAXYEAR ->
  ((exists T', new_datetime T Y None = Ok T') <-> _is_leap Y = true) /\
  (_is_leap Y = false ->
   new_datetime T Y None = Raise (ValueError DayOutOfRange)).
Proof.
  intros HT Hm Hd HY.
  assert (Hdim : _days_in_month Y 2 = if _is_leap Y then 29 else 28).
  { unfold _days_in_month. destruct (_is_leap Y); reflexivity. }
  split; [split|].
  - intros [T' Hex]. apply new_datetime_returns in Hex.
    apply datetime_new_ok_inv in Hex as (_ & _ & _ & Hday & _).
    cbn [target_month] in Hday.
    rewrite Hm, Hdim, Hd in Hday. destruct (_is_leap Y); [reflexivity | lia].
  - intros Hleap. eexists. apply new_datetime_ok; [assumption|].
    unfold valid_substitution. cbn [target_month].
    rewrite Hm, Hdim, Hd, Hleap. lia.
  - intros Hleap. apply new_datetime_overflow; cbn [target_month];
      rewrite ?Hm, ?Hdim, ?Hd, ?Hleap; lia.
Qed.

Lemma february_29_needs_a_leap_year_witness :
  ((exists T', new_datetime (mkdatetime 2020 2 29 8 0 0 0) 2024 None = Ok T')
   <-> _is_leap 2024 = true) /\
  (_is_leap 2023 = false ->
   new_datetime (mkdatetime 2020 2 29 8 0 0 0) 2023 None
   = Raise (ValueError DayOutOfRange)).
Proof.
  split.
  - apply (february_29_needs_a_leap_year (mkdatetime 2020 2 29 8 0 0 0) 2024);
      [reflexivity | reflexivity | reflexivity | unfold MINYEAR, MAXYEAR; lia].
  - apply (february_29_needs_a_leap_year (mkdatetime 2020 2 29 8 0 0 0) 2023);
      [reflexivity | reflexivity | reflexivity | unfold MINYEAR, MAXYEAR; lia].
Defined.

(* ================================================================== *)
(** ** What the metadata reader returns *)

Lemma strptime_ok_inv value t :
  strptime value = Ok t -> valid_datetime t /\ microsecond t = 0.
Proof.
  unfold strptime.
  destruct (match_exif_format value) as [[[[[[y m] d] h] mi] s]|];
    [|discriminate].
  intros H. split; [eapply datetime_new_valid; eassumption|].
  apply datetime_new_ok_inv in H as (-> & _). reflexivity.
Qed.

(** The reader run on a readable image, by the [DateTime] tag of its
    main directory. *)
Lemma get_image_datetime_run path w f img :
  lookup (fs w) path = Done (File f) -> can_read f = true ->
  content f = Some img ->
  get_image_datetime path w =
  match find (fun item => tag_name_is (fst item) "DateTime") (exif_0th img) with
  | Some (_, value) =>
      match strptime value with
      | Ok t => (Ok (Some t), w)
      | Raise e => (Ok None, printed w [ErrorReadingImageDatetime e])
      end
  | None => (Ok None, printed w [NoDateTimeFound])
  end.
Proof.
  intros Hl Hr Hc. unfold get_image_datetime, try_except.
  rewrite (bind_ok _ _ _ _ _ _ _ (Image_open_file _ _ _ _ Hl Hr Hc)).
  cbv zeta. destruct (find _ _) as [[tag value]|]; [|reflexivity].
  unfold bind, lift. destruct (strptime value) as [t|e] eqn:E; [reflexivity|].
  rewrite (strptime_raises _ _ E), orb_true_r. reflexivity.
Qed.

(** X4. Whatever date the reader returns is a date [datetime] accepts, with
    no fraction of a second: the reader never hands an impossible date
    (a 30th of February, a 25th hour) to the transform. And the reader
    that returns a date has printed nothing and changed nothing. *)
Theorem reader_returns_valid_dates (path : string) (w : world) (t : datetime) :
  fst (get_image_datetime path w) = Ok (Some t) ->
  valid_datetime t /\ microsecond t = 0 /\
  get_image_datetime path w = (Ok (Some t), w).
Proof.
  unfold get_image_datetime, try_except, bind, Image_open, reading.
  destruct (lookup (fs w) path) as [[f|es]|k]; cbn; try discriminate.
  destruct (can_read f); cbn; [|discriminate].
  destruct (content f) as [img|]; cbn; [|discriminate].
  destruct (find _ _) as [[tag value]|]; cbn; [|discriminate].
  unfold lift. destruct (strptime value) as [t'|e] eqn:E; cbn.
  - intros [= ->]. destruct (strptime_ok_inv _ _ E). auto.
  - rewrite (strptime_raises _ _ E), orb_true_r. cbn. discriminate.
Qed.

Lemma reader_returns_valid_dates_witness :
  valid_datetime may_17_2019 /\ microsecond may_17_2019 = 0 /\
  get_image_datetime "a.jpg" example_world = (Ok (Some may_17_2019), example_world).
Proof.
  apply (reader_returns_valid_dates "a.jpg" example_world may_17_2019).
  vm_compute. reflexivity.
Defined.



(* ================================================================== *)
(** ** What leaves the functions: results and exceptions *)

Lemma returns_only_bind_lift A B (P : B -> Prop) (r : result A) (k : A -> M B) :
  (forall a, r = Ok a -> returns_only P (k a)) ->
  returns_only P (bind (lift r) k).
Proof.
  intros Hk w b. unfold bind, lift.
  destruct r as [a|e]; cbn; [now apply Hk | discriminate].
Qed.

(** The [ValueError] that leaves [modify_image_datetime] is that of
    [timestamp] at line 115, on the date the transform has returned. *)
Lemma modify_image_datetime_value_error path Y M_ out w why :
  fst (modify_image_datetime path Y M_ out w) = Raise (ValueError why) ->
  why = YearOutOfRange /\
  exists T T', new_datetime T Y M_ = Ok T' /\ timestamp (machine w) T' = None.
Proof.
  unfold modify_image_datetime.
  match goal with
  | |- fst (bind (try_except ?body ?h) ?k w) = _ -> _ =>
      assert (Hret : returns_only
                       (fun r => match r with
                                 | Some (t, _) =>
                                     exists T, new_datetime T Y M_ = Ok t
                                 | None => True
                                 end) body);
      [| assert (Hst : steady body);
         [| specialize (Hret w); specialize (Hst w);
            unfold bind at 1; unfold try_except at 1;
            destruct (body w) as [[r|e] w1] ] ]
  end.
  - apply returns_only_bind. intros image.
    apply returns_only_bind. intros cur.
    apply returns_only_bind_lift. intros new_dt Hnew.
    do 3 (apply returns_only_bind; intros _).
    apply returns_only_ret. now exists cur.
  - unfold Image_save.
    apply steady_bind; [apply read_only_steady, read_only_Image_open|].
    intros image.
    apply steady_bind; [apply read_only_steady, read_only_current_datetime_of|].
    intros cur. repeat (steady_step || apply steady_update_exif).
  - cbn [fst snd] in *. specialize (Hret r eq_refl).
    destruct r as [[new_dt output_path]|]; [|discriminate].
    destruct Hret as [T HT]. destruct Hst as [Hm _].
    unfold bind at 1. unfold try_except, datetime_timestamp.
    unfold bind at 1. rewrite reading_run, Hm.
    destruct (timestamp (machine w) new_dt) as [ts|] eqn:Ets.
    + pose proof (raises_only_utime output_path ts ts w1) as Hu.
      unfold bind.
      destruct (os_utime output_path ts ts w1) as [[[]|e] w2];
        cbn [fst] in Hu |- *; [discriminate|].
      rewrite (Hu e eq_refl). discriminate.
    + cbn. intros [= <-]. split; [reflexivity|]. now exists T, new_dt.
  - cbn [fst snd]. destruct (is_OSError e || is_ValueError e) eqn:Ecaught.
    + discriminate.
    + cbn. intros [= ->]. discriminate.
Qed.

(** X6. [modify_image_datetime] ends in one of three ways. It returns
    [True] or [False]: no exception of opening, reading, saving,
    rewriting the metadata or setting the times leaves it. Or the year
    or month given does not fit a C [int], and the [OverflowError] of
    [replace] leaves it, the first [try] catching [OSError] and
    [ValueError] only. Or the machine has no timestamp for the new date
    (the first of January of year 1, on a machine on UTC), and the
    [ValueError] of [timestamp] leaves it, the second [try] catching
    [OSError] only. *)
Theorem modify_image_datetime_returns_or_raises (path : string) (Y : Z)
        (M_ : option Z) (out : option string) (w : world) :
  (exists b, fst (modify_image_datetime path Y M_ out w) = Ok b) \/
  (fst (modify_image_datetime path Y M_ out w) = Raise OverflowError /\
   fits_c_int Y M_ = false) \/
  (fst (modify_image_datetime path Y M_ out w)
   = Raise (ValueError YearOutOfRange) /\
   exists T T', new_datetime T Y M_ = Ok T' /\ timestamp (machine w) T' = None).
Proof.
  destruct (fst (modify_image_datetime path Y M_ out w)) as [b|e] eqn:E;
    [left; now exists b | right].
  pose proof (raises_only_modify_image_datetime path Y M_ out w e E) as Hr.
  cbv beta in Hr.
  destruct (is_ValueError e) eqn:EV.
  - right. destruct e as [| why | | | |]; try discriminate.
    destruct (modify_image_datetime_value_error path Y M_ out w why E)
      as [-> Hex].
    now split.
  - left. cbn in Hr. apply overflow_of_inv in Hr as [-> Hfit]. now split.
Qed.

(** A year beyond the C [int]s: the [OverflowError] of [replace] leaves
    [modify_image_datetime], and with it the batch run; the largest C
    [int] is a year out of range. *)
Example year_beyond_c_int :
  new_datetime may_17_2019 2147483648 None = Raise OverflowError /\
  new_datetime may_17_2019 2147483647 None = Raise (ValueError YearOutOfRange) /\
  new_datetime may_17_2019 2023 (Some (-2147483649)) = Raise OverflowError /\
  fst (modify_image_datetime "a.jpg" 2147483648 None None example_world)
  = Raise OverflowError /\
  fst (process_folder "photos" 2147483648 None None true false example_world)
  = Raise OverflowError.
Proof. repeat split; vm_compute; reflexivity. Qed.

(** The timestamps of a machine on UTC. *)
Example utc_timestamps :
  utc_datetime_timestamp (mkdatetime 1 1 1 23 59 59 0) = None /\
  utc_datetime_timestamp (mkdatetime 1 1 2 0 0 0 0)
  = Some (-62135510400000000) /\
  utc_datetime_timestamp (mkdatetime 2023 12 17 10 0 0 0)
  = Some 1702807200000000 /\
  utc_datetime_timestamp (mkdatetime 9999 12 31 23 59 59 0)
  = Some 253402300799000000.
Proof. repeat split; reflexivity. Qed.

(** A photo of 1 January moved to the year 1, on a machine on UTC: the
    file is saved with its new date, then [timestamp] raises and the
    [ValueError] leaves [modify_image_datetime]; the loop of the batch
    run catches it and counts the file as an error. *)
Example first_of_january_of_year_one :
  fst (modify_image_datetime "trip/3.jpeg" 1 None None example_world)
  = Raise (ValueError YearOutOfRange) /\
  fst (get_image_datetime "trip/3.jpeg"
         (snd (modify_image_datetime "trip/3.jpeg" 1 None None example_world)))
  = Ok None /\
  fst (process_folder "trip" 1 None None false false example_world)
  = Ok (2, 1, 3).
Proof. repeat split; vm_compute; reflexivity. Qed.

(** X7. The metadata writer never raises: a missing piexif, a file that
    cannot be read or written, a file that is no JPEG are printed and
    the function returns. When piexif is missing it prints its two
    lines and leaves every file as it is. *)
Theorem update_exif_never_raises_and_skips_without_piexif
        (path : string) (t : datetime) (w : world) :
  fst (update_exif_with_piexif path t w) = Ok tt /\
  (piexif_installed (machine w) = false ->
   snd (update_exif_with_piexif path t w)
   = printed w [PiexifNotInstalled; UsingBasicPIL]).
Proof.
  split.
  - destruct (no_exception_returns _ _ (update_exif_never_raises path t) w)
      as [[] H]. exact H.
  - intros Hno. unfold update_exif_with_piexif, try_except.
    unfold bind at 1. rewrite reading_run, Hno.
    unfold bind, raise, print, printed. cbn. now rewrite <- app_assoc.
Qed.

Lemma update_exif_never_raises_and_skips_without_piexif_witness :
  fst (update_exif_with_piexif "album/z.jpg" may_17_2019 world_without_piexif)
  = Ok tt /\
  snd (update_exif_with_piexif "album/z.jpg" may_17_2019 world_without_piexif)
  = printed world_without_piexif [PiexifNotInstalled; UsingBasicPIL].
Proof.
  destruct (update_exif_never_raises_and_skips_without_piexif
              "album/z.jpg" may_17_2019 world_without_piexif) as [H1 H2].
  split; [exact H1 | exact (H2 eq_refl)].
Defined.

(* ================================================================== *)
(** ** The text of a date, written and read back *)

Lemma digit_char_cases k :
  exists r, 0 <= r <= 9 /\ k mod 10 = r /\
            digit_char k = ascii_of_N (Z.to_N (48 + r)).
Proof.
  exists (k mod 10). pose proof (Z.mod_pos_bound k 10 ltac:(lia)).
  repeat split; lia || reflexivity.
Qed.

Ltac digit_cases k :=
  let r := fresh "r" in let Hr := fresh "Hr" in
  let Hk := fresh "Hk" in let Hc := fresh "Hc" in
  destruct (digit_char_cases k) as (r & Hr & Hk & Hc);
  rewrite Hc;
  assert (r = 0 \/ r = 1 \/ r = 2 \/ r = 3 \/ r = 4 \/ r = 5 \/ r = 6 \/
          r = 7 \/ r = 8 \/ r = 9) as Hcase by lia;
  clear Hr Hc;
  destruct Hcase as [-> | [-> | [-> | [-> | [-> | [-> | [-> | [-> | [-> | ->]]]]]]]]];
  try rewrite Hk.

Lemma digit_of_digit_char k : digit_of (digit_char k) = Some (k mod 10).
Proof. digit_cases k; reflexivity. Qed.

Lemma is_space_digit_char k : is_space (digit_char k) = false.
Proof. digit_cases k; reflexivity. Qed.

Lemma pad2_app n rest :
  (pad2 n ++ rest)%string
  = String (digit_char (n / 10)) (String (digit_char n) rest).
Proof. reflexivity. Qed.

Lemma two_digits_pad2 n rest :
  two_digits (pad2 n ++ rest) = Some ((n / 10) mod 10, n mod 10, rest).
Proof.
  rewrite pad2_app. unfold two_digits, one_digit.
  now rewrite !digit_of_digit_char.
Qed.

Lemma two_digit_number n :
  0 <= n <= 99 -> (n / 10) mod 10 = n / 10 /\ 10 * (n / 10) + n mod 10 = n /\
                  0 <= n / 10 <= 9 /\ 0 <= n mod 10 <= 9.
Proof.
  intros H. pose proof (Z.div_mod n 10 ltac:(lia)).
  pose proof (Z.mod_pos_bound n 10 ltac:(lia)).
  assert (0 <= n / 10).
  { apply Z.div_pos; lia. }
  assert (n / 10 < 10).
  { apply Z.div_lt_upper_bound; lia. }
  repeat split; try lia. apply Z.mod_small. lia.
Qed.

(** A field written on two digits is read back, provided its two-digit
    alternative accepts it. *)
Lemma field_pad2 two one n rest :
  0 <= n <= 99 -> two (n / 10) (n mod 10) = true ->
  field two one (pad2 n ++ rest) = Some (n, rest).
Proof.
  intros Hn Htwo. unfold field. rewrite two_digits_pad2.
  destruct (two_digit_number n Hn) as (-> & E & _). now rewrite Htwo, E.
Qed.

Lemma field_m_pad2 m rest :
  1 <= m <= 12 -> field_m (pad2 m ++ rest) = Some (m, rest).
Proof.
  intros H. apply field_pad2; [lia|].
  assert (m = 1 \/ m = 2 \/ m = 3 \/ m = 4 \/ m = 5 \/ m = 6 \/ m = 7 \/
          m = 8 \/ m = 9 \/ m = 10 \/ m = 11 \/ m = 12) as Hc by lia.
  repeat (destruct Hc as [-> | Hc]); try subst m; reflexivity.
Qed.

Lemma tens_le n k : 0 <= n <= 10 * k + 9 -> n / 10 <= k.
Proof.
  intros H. assert (n / 10 < k + 1); [|lia].
  apply Z.div_lt_upper_bound; lia.
Qed.

Lemma field_H_pad2 h rest :
  0 <= h <= 23 -> field_H (pad2 h ++ rest) = Some (h, rest).
Proof.
  intros H. apply field_pad2; [lia|].
  destruct (two_digit_number h ltac:(lia)) as (_ & E & Hx & Hy).
  pose proof (tens_le h 2 ltac:(lia)).
  destruct (Z.eq_dec (h / 10) 2) as [E2|N2].
  - rewrite E2. cbn. assert (h mod 10 <= 3) by lia.
    apply orb_true_iff. left. apply Z.leb_le. assumption.
  - apply orb_true_iff. right. apply Z.leb_le. lia.
Qed.

Lemma field_M_pad2 mi rest :
  0 <= mi <= 59 -> field_M (pad2 mi ++ rest) = Some (mi, rest).
Proof.
  intros H. apply field_pad2; [lia|].
  apply Z.leb_le. apply tens_le. lia.
Qed.

Lemma field_S_pad2 s rest :
  0 <= s <= 59 -> field_S (pad2 s ++ rest) = Some (s, rest).
Proof.
  intros H. apply field_pad2; [lia|].
  apply orb_true_iff. right. apply Z.leb_le. apply tens_le. lia.
Qed.

Lemma field_d_digit k rest :
  field_d (String (digit_char k) rest)
  = field (fun x y => ((x =? 3) && (y <=? 1)) || in_range 1 x 2
                      || ((x =? 0) && (1 <=? y)))
          (fun x => 1 <=? x) (String (digit_char k) rest).
Proof. digit_cases k; reflexivity. Qed.

Lemma field_d_pad2 d rest :
  1 <= d <= 31 -> field_d (pad2 d ++ rest) = Some (d, rest).
Proof.
  intros H. rewrite pad2_app, field_d_digit, <- pad2_app.
  apply field_pad2; [lia|].
  destruct (two_digit_number d ltac:(lia)) as (_ & E & Hx & Hy).
  pose proof (tens_le d 3 ltac:(lia)).
  assert (d / 10 = 0 \/ d / 10 = 1 \/ d / 10 = 2 \/ d / 10 = 3) as Hc by lia.
  destruct Hc as [E0 | [E1 | [E2 | E3]]].
  - rewrite E0. cbn. apply Z.leb_le. lia.
  - rewrite E1. reflexivity.
  - rewrite E2. reflexivity.
  - rewrite E3. cbn. rewrite ?orb_false_r. apply Z.leb_le. lia.
Qed.

Lemma field_Y_pad4 y rest :
  0 <= y <= 9999 -> field_Y (pad4 y ++ rest) = Some (y, rest).
Proof.
  intros H. unfold field_Y, pad4. rewrite string_app_assoc.
  rewrite two_digits_pad2, two_digits_pad2. f_equal. f_equal.
  Z.to_euclidean_division_equations. lia.
Qed.

(** A year below 1000 is written on fewer than four digits, and [%Y]
    of [strptime] asks for four. *)
Lemma field_Y_short_year y rest :
  y < 1000 -> field_Y (year_digits y ++ String ":" rest) = None.
Proof.
  intros H. unfold year_digits.
  assert ((y <? 1000) = true) as E3 by (apply Z.ltb_lt; lia).
  destruct (y <? 10); [|destruct (y <? 100); [|rewrite E3]];
    unfold field_Y, two_digits, one_digit, pad2;
    cbn [String.append]; rewrite ?digit_of_digit_char; reflexivity.
Qed.

Lemma year_digits_four y : 1000 <= y -> year_digits y = pad4 y.
Proof.
  intros H. unfold year_digits.
  assert ((y <? 10) = false) as -> by (apply Z.ltb_ge; lia).
  assert ((y <? 100) = false) as -> by (apply Z.ltb_ge; lia).
  assert ((y <? 1000) = false) as -> by (apply Z.ltb_ge; lia).
  reflexivity.
Qed.

Lemma spaces_before_digit k rest :
  spaces (String " " (String (digit_char k) rest))
  = Some (String (digit_char k) rest).
Proof.
  cbn [spaces]. change (is_space " ") with true. cbn [skip_spaces].
  now rewrite is_space_digit_char.
Qed.

(** The six fields of a date [datetime] accepts, of a year of four
    digits, are read back from its text. *)
Lemma match_exif_format_strftime t :
  valid_datetime t -> 1000 <= year t ->
  match_exif_format (strftime t)
  = Some (year t, month t, day t, hour t, minute t, second t).
Proof.
  intros Hv Hfour. apply datetime_new_ok_inv in Hv
    as (_ & Hy & Hm & Hd & Hh & Hmi & Hs & _).
  pose proof (days_in_month_bounds (year t) (month t) Hm) as Hdim.
  unfold MINYEAR, MAXYEAR in Hy.
  unfold match_exif_format, strftime. rewrite (year_digits_four _ Hfour).
  rewrite field_Y_pad4 by lia. cbn [obind String.append colon].
  rewrite field_m_pad2 by lia. cbn [obind String.append colon].
  rewrite field_d_pad2 by lia. cbn [obind String.append].
  rewrite pad2_app, spaces_before_digit, <- pad2_app. cbn [obind].
  rewrite field_H_pad2 by lia. cbn [obind String.append colon].
  rewrite field_M_pad2 by lia. cbn [obind String.append colon].
  pose proof (field_S_pad2 (second t) EmptyString ltac:(lia)) as ES.
  change (pad2 (second t) ++ "")%string with (pad2 (second t)) in ES.
  rewrite ES. reflexivity.
Qed.

(** [strptime] undoes [strftime] for a year of four digits, up to the
    fraction of a second, which the text does not carry. *)
Lemma strptime_strftime t :
  valid_datetime t -> 1000 <= year t ->
  strptime (strftime t)
  = Ok (mkdatetime (year t) (month t) (day t) (hour t) (minute t)
                   (second t) 0).
Proof.
  intros Hv Hfour. unfold strptime.
  rewrite (match_exif_format_strftime t Hv Hfour).
  pose proof (datetime_new_ok_inv _ _ _ _ _ _ _ _ Hv)
    as (_ & Hy & Hm & Hd & Hh & Hmi & Hs & _).
  unfold datetime_new, _check_time_fields.
  rewrite (check_date_fields_ok _ _ _ Hy Hm Hd). cbn [rbind].
  apply in_range_true in Hh, Hmi, Hs. rewrite Hh, Hmi, Hs. reflexivity.
Qed.

(** The blank of the format is [\s+]: it takes a no-break space (160)
    and a next-line character (133) as well. *)
Example strptime_takes_other_blanks :
  strptime ("2019:05:17" ++ String (ascii_of_N 160) "10:00:00")
  = Ok may_17_2019 /\
  strptime ("2019:05:17" ++ String (ascii_of_N 133) "10:00:00")
  = Ok may_17_2019 /\
  strptime ("2019:05:17 " ++ String (ascii_of_N 133) " 10:00:00")
  = Ok may_17_2019.
Proof. repeat split; reflexivity. Qed.

Example strftime_of_early_years :
  strftime (mkdatetime 999 1 2 3 4 5 0) = "999:01:02 03:04:05" /\
  strftime (mkdatetime 1 1 2 3 4 5 0) = "1:01:02 03:04:05" /\
  strftime (mkdatetime 2023 12 17 10 0 0 0) = "2023:12:17 10:00:00".
Proof. repeat split; reflexivity. Qed.

(** The text of a year below 1000 is no date for [strptime]. *)
Lemma strptime_strftime_short_year t :
  year t < 1000 -> strptime (strftime t) = Raise (ValueError FormatMismatch).
Proof.
  intros H. unfold strptime, match_exif_format, strftime.
  cbn [String.append]. now rewrite (field_Y_short_year _ _ H).
Qed.

(* ================================================================== *)
(** ** A file written is the file found *)

Lemma assoc_set_assoc name x es :
  assoc name (set_assoc name x es) = Some x.
Proof.
  induction es as [|[n y] es IH]; cbn.
  - now rewrite String.eqb_refl.
  - destruct (n =? name)%string eqn:E; cbn; rewrite E; [reflexivity | exact IH].
Qed.

Lemma step_noop c z :
  (c =? "")%string || (c =? ".")%string = true ->
  step c z = if is_dir_node (here z) then Done z else Errno NotADirectoryError.
Proof.
  intros H. unfold step. destruct (here z); [reflexivity|]. now rewrite H.
Qed.

(** Putting a directory [X] in the place reached by components without
    [..]: the rebuilt tree is reached again by the same components, and
    they lead to [X]. *)
Lemma locate_rebuild cs :
  forallb (fun c => negb (c =? "..")%string) cs = true ->
  forall up n z X,
    locate cs (mkcursor up n) = Done z -> is_dir_node X = true ->
    exists n',
      is_dir_node n' = true /\ rebuild (above z) X = rebuild up n' /\
      forall up', exists z',
        locate cs (mkcursor up' n') = Done z' /\ here z' = X.
Proof.
  induction cs as [|c cs IH]; intros Hnd up n z X Hloc HX.
  - cbn in Hloc. injection Hloc as <-. exists X. repeat split; [assumption|].
    intros up'. eexists. split; reflexivity.
  - cbn [forallb] in Hnd. apply andb_true_iff in Hnd as [Hc Hcs].
    apply negb_true_iff in Hc.
    cbn [locate] in Hloc. unfold step in Hloc. cbn [here above] in Hloc.
    destruct n as [f|es]; [discriminate|].
    destruct ((c =? "")%string || (c =? ".")%string) eqn:Hnoop.
    + destruct (IH Hcs up (Dir es) z X Hloc HX) as (n' & Hd & Hr & Hl).
      exists n'. repeat split; try assumption.
      intros up'. destruct (Hl up') as (z' & Hz' & Hh).
      exists z'. split; [|assumption].
      cbn [locate]. rewrite (step_noop c _ Hnoop). cbn [here]. now rewrite Hd.
    + rewrite Hc in Hloc.
      destruct (assoc c es) as [child|] eqn:Ha; [|discriminate].
      destruct (IH Hcs ((c, es) :: up) child z X Hloc HX) as (n' & Hd & Hr & Hl).
      exists (Dir (set_assoc c n' es)). repeat split.
      * rewrite Hr. reflexivity.
      * intros up'.
        destruct (Hl ((c, set_assoc c n' es) :: up')) as (z' & Hz' & Hh).
        exists z'. split; [|assumption].
        cbn [locate]. unfold step. cbn [here above].
        now rewrite Hnoop, Hc, assoc_set_assoc.
Qed.

Lemma split_slash_last path :
  split_slash path
  = (fst (split_last (split_slash path)) ++ [snd (split_last (split_slash path))])%list.
Proof.
  unfold split_last. cbn [fst snd].
  apply app_removelast_last. apply split_slash_nonempty.
Qed.

Lemma forallb_app_inv A (p : A -> bool) l1 l2 :
  forallb p (l1 ++ l2) = true -> forallb p l1 = true /\ forallb p l2 = true.
Proof. rewrite forallb_app. apply andb_true_iff. Qed.

(** What [lookup] of a regular file says of the components of its
    path. *)
Lemma lookup_file_inv root path f :
  lookup root path = Done (File f) -> no_dotdot path = true ->
  let dir_cs := fst (split_last (split_slash path)) in
  let name := snd (split_last (split_slash path)) in
  (path =? "")%string = false /\ plain_name name = true /\
  exists z es, locate dir_cs (mkcursor [] root) = Done z /\
               here z = Dir es /\ assoc name es = Some (File f).
Proof.
  intros Hl Hnd. cbv zeta. unfold lookup in Hl.
  destruct (path =? "")%string; [discriminate|]. split; [reflexivity|].
  unfold no_dotdot in Hnd. rewrite split_slash_last in Hl, Hnd.
  set (dir_cs := fst (split_last (split_slash path))) in *.
  set (name := snd (split_last (split_slash path))) in *.
  clearbody dir_cs name.
  apply forallb_app_inv in Hnd as [_ Hname]. cbn in Hname.
  rewrite andb_true_r in Hname. apply negb_true_iff in Hname.
  rewrite locate_app in Hl.
  destruct (locate dir_cs (mkcursor [] root)) as [z|k]; [|discriminate].
  cbn [locate] in Hl. unfold step in Hl.
  destruct (here z) as [g|es] eqn:Hz; [discriminate|].
  destruct ((name =? "")%string || (name =? ".")%string) eqn:Hnoop.
  - injection Hl as Hl. congruence.
  - rewrite Hname in Hl.
    destruct (assoc name es) as [child|] eqn:Ha; [|discriminate].
    injection Hl as Hl. cbn in Hl. subst child.
    split.
    + unfold plain_name. apply orb_false_iff in Hnoop as [-> ->].
      now rewrite Hname.
    + exists z, es. auto.
Qed.

(** Writing over an existing regular file succeeds when the change
    does, and afterwards the path names the file written. *)
Lemma write_file_existing root path change f f' :
  lookup root path = Done (File f) -> no_dotdot path = true ->
  change (Some f) = Done f' ->
  exists root', write_file root path change = Done root' /\
                lookup root' path = Done (File f').
Proof.
  intros Hl Hnd Hch.
  destruct (lookup_file_inv root path f Hl Hnd)
    as (Hne & Hplain & z & es & Hloc & Hz & Ha).
  assert (Hdirs : forallb (fun c => negb (c =? "..")%string)
                          (fst (split_last (split_slash path))) = true).
  { unfold no_dotdot in Hnd. rewrite split_slash_last in Hnd.
    now apply forallb_app_inv in Hnd as [H _]. }
  destruct (locate_rebuild _ Hdirs [] root z
              (Dir (set_assoc (snd (split_last (split_slash path))) (File f') es))
              Hloc eq_refl) as (n' & _ & Hr & Hlook).
  cbn [rebuild] in Hr.
  exists n'. split.
  - unfold write_file. rewrite Hne.
    destruct (split_last (split_slash path)) as [dir_cs name] eqn:Es.
    cbn [fst snd] in *. rewrite Hplain. cbn [negb].
    rewrite Hloc, Hz, Ha, Hch. now rewrite Hr.
  - unfold lookup. rewrite Hne. rewrite split_slash_last, locate_app.
    destruct (Hlook []) as (z' & Hz' & Hh). rewrite Hz'.
    cbn [locate]. rewrite (step_plain _ z' _ Hh Hplain), assoc_set_assoc.
    reflexivity.
Qed.

(* ================================================================== *)
(** ** The three writes of [modify_image_datetime] *)

Lemma writing_run f w :
  writing f w =
  match f (machine w) (fs w) with
  | Ok root' => (Ok tt, mkworld (machine w) root' (stdout w))
  | Raise e => (Raise e, w)
  end.
Proof. reflexivity. Qed.

Lemma Image_save_run path w f :
  lookup (fs w) path = Done (File f) -> no_dotdot path = true ->
  can_write f = true ->
  exists root',
    Image_save path w = (Ok tt, mkworld (machine w) root' (stdout w)) /\
    lookup root' path
    = Done (File (mkfile (can_read f) true (Some (mkimage "JPEG" [] []))
                         (atime f) (clock (machine w)))).
Proof.
  intros Hl Hnd Hw. unfold Image_save. rewrite writing_run.
  edestruct (write_file_existing (fs w) path) as (root' & Hwr & Hlook);
    [exact Hl | exact Hnd | | ].
  2:{ exists root'. rewrite Hwr. cbn [of_io]. split; [reflexivity | exact Hlook]. }
  cbn beta iota. now rewrite Hw.
Qed.

Lemma piexif_load_run path w f img :
  lookup (fs w) path = Done (File f) -> can_read f = true ->
  content f = Some img -> format img = "JPEG" ->
  piexif_load path w = (Ok (exif_0th img, exif_Exif img), w).
Proof.
  intros Hl Hr Hc Hf. unfold piexif_load. rewrite reading_run, Hl, Hr, Hc, Hf.
  reflexivity.
Qed.

Lemma piexif_insert_run d path w f img :
  lookup (fs w) path = Done (File f) -> no_dotdot path = true ->
  can_read f = true -> can_write f = true -> content f = Some img ->
  exists root',
    piexif_insert d path w = (Ok tt, mkworld (machine w) root' (stdout w)) /\
    lookup root' path
    = Done (File (mkfile true true
                         (Some (mkimage (format img) (fst d) (snd d)))
                         (atime f) (clock (machine w)))).
Proof.
  intros Hl Hnd Hr Hw Hc. unfold piexif_insert. rewrite writing_run.
  edestruct (write_file_existing (fs w) path) as (root' & Hwr & Hlook);
    [exact Hl | exact Hnd | | ].
  2:{ exists root'. rewrite Hwr. cbn [of_io]. split; [reflexivity | exact Hlook]. }
  cbn beta iota. now rewrite Hr, Hw, Hc.
Qed.

Lemma os_utime_run path a m w f :
  lookup (fs w) path = Done (File f) -> no_dotdot path = true ->
  exists root',
    os_utime path a m w = (Ok tt, mkworld (machine w) root' (stdout w)) /\
    lookup root' path
    = Done (File (mkfile (can_read f) (can_write f) (content f) a m)).
Proof.
  intros Hl Hnd. unfold os_utime. rewrite writing_run, Hl.
  edestruct (write_file_existing (fs w) path) as (root' & Hwr & Hlook);
    [exact Hl | exact Hnd | | ].
  2:{ exists root'. rewrite Hwr. cbn [of_io]. split; [reflexivity | exact Hlook]. }
  reflexivity.
Qed.

(** With piexif installed, on a JPEG file that can be read and written,
    the metadata writer stores the text of the date in the three date
    fields and says so. *)
Lemma update_exif_run path t w f img :
  lookup (fs w) path = Done (File f) -> no_dotdot path = true ->
  can_read f = true -> can_write f = true -> content f = Some img ->
  format img = "JPEG" -> piexif_installed (machine w) = true ->
  exists root',
    update_exif_with_piexif path t w
    = (Ok tt, printed (mkworld (machine w) root' (stdout w)) [ExifUpdated]) /\
    lookup root' path
    = Done (File (mkfile true true
                    (Some (mkimage "JPEG"
                             (dict_set 306 (strftime t) (exif_0th img))
                             (dict_set 36868 (strftime t)
                                (dict_set 36867 (strftime t) (exif_Exif img)))))
                    (atime f) (clock (machine w)))).
Proof.
  intros Hl Hnd Hr Hw Hc Hf Hp.
  destruct (piexif_insert_run
              (dict_set 306 (strftime t) (exif_0th img),
               dict_set 36868 (strftime t)
                 (dict_set 36867 (strftime t) (exif_Exif img)))
              path w f img Hl Hnd Hr Hw Hc) as (root' & Hins & Hlook).
  exists root'. split; [|now rewrite Hf in Hlook].
  unfold update_exif_with_piexif, try_except.
  unfold bind at 1. rewrite reading_run, Hp.
  rewrite bind_ret.
  rewrite (bind_ok _ _ _ _ _ _ _ (piexif_load_run path w f img Hl Hr Hc Hf)).
  cbv zeta. cbn [fst snd].
  rewrite (bind_ok _ _ _ _ _ _ _ Hins). reflexivity.
Qed.

(** The reader finds the [DateTime] field where [dict_set] has put
    it. *)
Lemma tag_name_is_DateTime k : tag_name_is k "DateTime" = true -> k = 306.
Proof.
  unfold tag_name_is, TAGS. cbn [find fst].
  repeat match goal with
         | |- context [?n =? k] => destruct (Z.eqb_spec n k) as [<-|_]
         end; (reflexivity || discriminate).
Qed.

Lemma find_DateTime_dict_set v d :
  find (fun item => tag_name_is (fst item) "DateTime") (dict_set 306 v d)
  = Some (306, v).
Proof.
  induction d as [|[k0 v0] d IH]; cbn [dict_set]; [reflexivity|].
  destruct (Z.eqb_spec k0 306) as [-> | Hne]; [reflexivity|].
  cbn [find fst]. destruct (tag_name_is k0 "DateTime") eqn:E; [|exact IH].
  apply tag_name_is_DateTime in E. contradiction.
Qed.

(** X8. A date written by [update_exif_with_piexif] is the date
    [get_image_datetime] reads. On a machine with piexif, for a JPEG
    file that can be read and written: when the year of the date has
    four digits, the reader run after the writer returns the date, up
    to the fraction of a second, which the text does not carry, and
    prints nothing. The year of a date before the year 1000 is written
    on fewer than four digits; the reader, whose format asks for four,
    then prints the [ValueError] and returns [None]. *)
Theorem written_date_is_read_back (path : string) (t : datetime) (w : world)
        (f : file) (img : image) :
  lookup (fs w) path = Done (File f) -> no_dotdot path = true ->
  can_read f = true -> can_write f = true -> content f = Some img ->
  format img = "JPEG" -> piexif_installed (machine w) = true ->
  valid_datetime t ->
  let w' := snd (update_exif_with_piexif path t w) in
  (1000 <= year t ->
   get_image_datetime path w'
   = (Ok (Some (mkdatetime (year t) (month t) (day t) (hour t) (minute t)
                           (second t) 0)), w')) /\
  (year t < 1000 ->
   get_image_datetime path w'
   = (Ok None,
      printed w' [ErrorReadingImageDatetime (ValueError FormatMismatch)])).
Proof.
  intros Hl Hnd Hr Hw Hc Hf Hp Hv.
  destruct (update_exif_run path t w f img Hl Hnd Hr Hw Hc Hf Hp)
    as (root' & Hrun & Hlook).
  rewrite Hrun. cbn [snd].
  set (w' := printed _ [ExifUpdated]).
  pose proof (Hlook : lookup (fs w') path = _) as Hl'.
  rewrite (get_image_datetime_run path w' _ _ Hl' eq_refl eq_refl).
  cbn [exif_0th]. rewrite find_DateTime_dict_set.
  split; intros Hy.
  - now rewrite (strptime_strftime t Hv Hy).
  - now rewrite (strptime_strftime_short_year t Hy).
Qed.

Lemma written_date_is_read_back_witness :
  let w' := snd (update_exif_with_piexif "a.jpg"
                   (mkdatetime 2023 12 17 10 0 0 250000) example_world) in
  get_image_datetime "a.jpg" w'
  = (Ok (Some (mkdatetime 2023 12 17 10 0 0 0)), w') /\
  (let w' := snd (update_exif_with_piexif "a.jpg"
                    (mkdatetime 999 12 17 10 0 0 0) example_world) in
   get_image_datetime "a.jpg" w'
   = (Ok None,
      printed w' [ErrorReadingImageDatetime (ValueError FormatMismatch)])).
Proof.
  split.
  - refine (proj1 (written_date_is_read_back "a.jpg"
                     (mkdatetime 2023 12 17 10 0 0 250000) example_world _ _
                     eq_refl eq_refl eq_refl eq_refl eq_refl eq_refl eq_refl
                     eq_refl) _).
    simpl. lia.
  - refine (proj2 (written_date_is_read_back "a.jpg"
                     (mkdatetime 999 12 17 10 0 0 0) example_world _ _
                     eq_refl eq_refl eq_refl eq_refl eq_refl eq_refl eq_refl
                     eq_refl) _).
    simpl. lia.
Defined.

(** The run of [modify_image_datetime] in place on a JPEG file that can
    be read and written, step by step. *)
Lemma modify_in_place_run (path : string) (Y : Z)
        (M_ : option Z) (w w1 : world) (f : file) (img : image)
        (T T' : datetime) (stamp : Z) :
  no_dotdot path = true ->
  lookup (fs w) path = Done (File f) ->
  can_read f = true -> can_write f = true ->
  content f = Some img -> format img = "JPEG" ->
  piexif_installed (machine w) = true ->
  current_datetime_of path w = (Ok T, w1) ->
  new_datetime T Y M_ = Ok T' ->
  timestamp (machine w) T' = Some stamp ->
  let run := modify_image_datetime path Y M_ None w in
  let text := strftime T' in
  fst run = Ok true /\
  lookup (fs (snd run)) path
  = Done (File (mkfile true true
                  (Some (mkimage "JPEG" [(306, text)]
                                 [(36867, text); (36868, text)]))
                  stamp stamp)).
Proof.
  intros Hnd Hl Hr Hw Hc Hf Hp Hcur HT' Hstamp. cbv zeta.
  pose proof (read_only_current_datetime_of path w) as (Hm1 & Hf1 & _).
  rewrite Hcur in Hm1, Hf1. cbn [snd] in Hm1, Hf1.
  set (w2 := printed w1 [OriginalDatetime T; NewDatetime T']).
  assert (Hl2 : lookup (fs w2) path = Done (File f)) by (cbn; now rewrite Hf1).
  destruct (Image_save_run path w2 f Hl2 Hnd Hw) as (root1 & Hsave & Hlook1).
  set (w3 := mkworld (machine w2) root1 (stdout w2)) in *.
  pose proof (Hlook1 : lookup (fs w3) path = _) as Hl3.
  destruct (update_exif_run path T' w3 _ (mkimage "JPEG" [] [])
              Hl3 Hnd Hr eq_refl eq_refl eq_refl
              ltac:(cbn; now rewrite Hm1)) as (root2 & Hexif & Hlook2).
  cbn [dict_set exif_0th exif_Exif Z.eqb Pos.eqb] in Hlook2.
  set (w4 := printed (mkworld (machine w3) root2 (stdout w3)) [ExifUpdated]) in *.
  pose proof (Hlook2 : lookup (fs w4) path = _) as Hl4.
  assert (Hstamp4 : timestamp (machine w4) T' = Some stamp)
    by (cbn [w4 w3 w2 machine printed]; now rewrite Hm1).
  destruct (os_utime_run path stamp stamp w4 _ Hl4 Hnd)
    as (root3 & Hutime & Hlook3).
  cbn [can_read can_write content] in Hlook3.
  assert (Hrun :
    modify_image_datetime path Y M_ None w
    = (Ok true,
       printed (mkworld (machine w4) root3 (stdout w4))
               [UpdatedFileModificationTime T'])).
  { unfold modify_image_datetime.
    match goal with
    | |- bind ?m ?k w = _ =>
        assert (E : m w = (Ok (Some (T', path)), w4))
    end.
    { unfold try_except.
      rewrite (bind_ok _ _ _ _ _ _ _ (Image_open_file _ _ _ _ Hl Hr Hc)).
      rewrite (bind_ok _ _ _ _ _ _ _ Hcur).
      rewrite (bind_ok _ _ _ _ _ T' w1) by (unfold lift; now rewrite HT').
      do 2 rewrite bind_print_printed. rewrite printed_printed. cbn [app].
      fold w2. rewrite Hf, String.eqb_refl.
      unfold bind at 1. unfold bind at 1. rewrite Hsave. fold w3.
      rewrite Hexif. reflexivity. }
    rewrite (bind_ok _ _ _ _ _ _ _ E). cbv beta iota.
    unfold try_except, datetime_timestamp. unfold bind at 1. unfold bind at 1.
    rewrite reading_run, Hstamp4. unfold bind at 1. rewrite Hutime.
    reflexivity. }
  rewrite Hrun. cbn [fst snd].
  set (w5 := printed _ [UpdatedFileModificationTime T']).
  pose proof (Hlook3 : lookup (fs w5) path = _) as Hl5.
  split; [reflexivity | exact Hl5].
Qed.

(** X9. After a successful change in place, the file carries the new date.
    For a JPEG file that can be read and written, on a machine with
    piexif, whose path has no [..]: when the transform of the source
    timestamp succeeds and the machine has a timestamp for the new
    date, [modify_image_datetime] returns [True]; the file then holds
    the text of the new date in its three date fields and has the
    timestamp of the new date as access and modification time; and the
    reader, asked again, returns the new date (to the second) when the
    new year has four digits, and [None] when it is below 1000, the
    year being then written on fewer digits than the reader asks for. *)
Theorem modify_in_place_then_read_back (path : string) (Y : Z)
        (M_ : option Z) (w w1 : world) (f : file) (img : image)
        (T T' : datetime) (stamp : Z) :
  no_dotdot path = true ->
  lookup (fs w) path = Done (File f) ->
  can_read f = true -> can_write f = true ->
  content f = Some img -> format img = "JPEG" ->
  piexif_installed (machine w) = true ->
  current_datetime_of path w = (Ok T, w1) ->
  new_datetime T Y M_ = Ok T' ->
  timestamp (machine w) T' = Some stamp ->
  let run := modify_image_datetime path Y M_ None w in
  let text := strftime T' in
  fst run = Ok true /\
  lookup (fs (snd run)) path
  = Done (File (mkfile true true
                  (Some (mkimage "JPEG" [(306, text)]
                                 [(36867, text); (36868, text)]))
                  stamp stamp)) /\
  (1000 <= Y ->
   fst (get_image_datetime path (snd run))
   = Ok (Some (mkdatetime (year T') (month T') (day T') (hour T') (minute T')
                          (second T') 0))) /\
  (Y < 1000 -> fst (get_image_datetime path (snd run)) = Ok None).
Proof.
  intros Hnd Hl Hr Hw Hc Hf Hp Hcur HT' Hstamp.
  destruct (modify_in_place_run path Y M_ w w1 f img T T' stamp Hnd Hl Hr Hw
              Hc Hf Hp Hcur HT' Hstamp) as [Hrun Hlook].
  cbv zeta in *. split; [exact Hrun|]. split; [exact Hlook|].
  rewrite (get_image_datetime_run path _ _ _ Hlook eq_refl eq_refl).
  cbn [exif_0th find fst]. change (tag_name_is 306 "DateTime") with true.
  cbv iota.
  assert (Hv : valid_datetime T').
  { apply new_datetime_returns in HT'. eapply datetime_new_valid; eassumption. }
  assert (HY : year T' = Y).
  { now rewrite (new_datetime_fields _ _ _ _ HT'). }
  split; intros Hyear.
  - rewrite (strptime_strftime T' Hv) by lia. reflexivity.
  - rewrite (strptime_strftime_short_year T') by lia. reflexivity.
Qed.

Lemma modify_in_place_then_read_back_witness :
  let run := modify_image_datetime "a.jpg" 2023 (Some 12) None example_world in
  fst run = Ok true /\
  lookup (fs (snd run)) "a.jpg"
  = Done (File (mkfile true true
                  (Some (mkimage "JPEG" [(306, "2023:12:17 10:00:00")]
                                 [(36867, "2023:12:17 10:00:00");
                                  (36868, "2023:12:17 10:00:00")]))
                  1702807200000000 1702807200000000)) /\
  fst (get_image_datetime "a.jpg" (snd run))
  = Ok (Some (mkdatetime 2023 12 17 10 0 0 0)).
Proof.
  destruct (modify_in_place_then_read_back "a.jpg" 2023 (Some 12)
              example_world example_world _ _ may_17_2019
              (mkdatetime 2023 12 17 10 0 0 0) 1702807200000000
              eq_refl eq_refl eq_refl eq_refl eq_refl eq_refl eq_refl
              eq_refl eq_refl eq_refl) as (H1 & H2 & H3 & _).
  split; [exact H1|]. split; [exact H2|]. apply H3. lia.
Defined.

(* ================================================================== *)
(** ** An image that is not a JPEG *)

(** X10. A file whose image format is not JPEG (a PNG under a [.jpg] name):
    once the transform has succeeded, and when the machine has a
    timestamp for the new date, [modify_image_datetime] warns, saves
    nothing, rewrites no metadata, and returns [True] all the same. In
    place, the content of the file is as before and only its two times
    are set to the timestamp of the new date. With an output path at
    which nothing exists, nothing at all is changed: no output file is
    created, the failure to set its times is printed, and the result is
    still [True]. *)
Theorem non_jpeg_image_is_reported_as_success
        (path : string) (Y : Z) (M_ : option Z) (w w1 : world) (f : file)
        (img : image) (T T' : datetime) (stamp : Z) :
  no_dotdot path = true ->
  lookup (fs w) path = Done (File f) -> can_read f = true ->
  content f = Some img -> (format img =? "JPEG")%string = false ->
  current_datetime_of path w = (Ok T, w1) ->
  new_datetime T Y M_ = Ok T' ->
  timestamp (machine w) T' = Some stamp ->
  (let run := modify_image_datetime path Y M_ None w in
   fst run = Ok true /\
   lookup (fs (snd run)) path
   = Done (File (mkfile (can_read f) (can_write f) (content f) stamp stamp)) /\
   stdout (snd run)
   = (stdout w1 ++ [OriginalDatetime T; NewDatetime T';
                    WarningNotJPEG (format img);
                    UpdatedFileModificationTime T'])%list) /\
  (forall out k,
     lookup (fs w) out = Errno k ->
     modify_image_datetime path Y M_ (Some out) w
     = (Ok true,
        printed w1 [OriginalDatetime T; NewDatetime T';
                    WarningNotJPEG (format img);
                    ErrorUpdatingFileModificationTime (OSError k out)])
     /\ fs w1 = fs w).
Proof.
  intros Hnd Hl Hr Hc Hf Hcur HT' Hstamp. cbv zeta.
  pose proof (read_only_current_datetime_of path w) as (Hm1 & Hf1 & _).
  rewrite Hcur in Hm1, Hf1. cbn [snd] in Hm1, Hf1.
  set (w2 := printed w1 [OriginalDatetime T; NewDatetime T';
                         WarningNotJPEG (format img)]).
  assert (Hstamp2 : timestamp (machine w2) T' = Some stamp)
    by (cbn [w2 machine printed]; now rewrite Hm1).
  assert (Hfirst : forall out,
    try_except
      (image <- Image_open path ;;
       current_datetime <- current_datetime_of path ;;
       new_dt <- lift (new_datetime current_datetime Y M_) ;;
       print (OriginalDatetime current_datetime) ;;;
       print (NewDatetime new_dt) ;;;
       let output_path := match out with Some p => p | None => path end in
       (if (format image =? "JPEG")%string
        then Image_save output_path ;;; update_exif_with_piexif output_path new_dt
        else print (WarningNotJPEG (format image))) ;;;
       ret (Some (new_dt, output_path)))
      (fun e =>
         if is_OSError e || is_ValueError e
         then Some (print (ErrorModifyingImageDatetime e) ;;; ret None)
         else None) w
    = (Ok (Some (T', match out with Some p => p | None => path end)), w2)).
  { intros out. unfold try_except.
    rewrite (bind_ok _ _ _ _ _ _ _ (Image_open_file _ _ _ _ Hl Hr Hc)).
    rewrite (bind_ok _ _ _ _ _ _ _ Hcur).
    rewrite (bind_ok _ _ _ _ _ T' w1) by (unfold lift; now rewrite HT').
    do 2 rewrite bind_print_printed. rewrite printed_printed. cbn [app].
    cbv zeta. rewrite Hf. rewrite bind_print_printed, printed_printed.
    reflexivity. }
  split.
  - assert (Hl2 : lookup (fs w2) path = Done (File f)) by (cbn; now rewrite Hf1).
    destruct (os_utime_run path stamp stamp w2 f Hl2 Hnd)
      as (root3 & Hutime & Hlook3).
    assert (Hrun :
      modify_image_datetime path Y M_ None w
      = (Ok true,
         printed (mkworld (machine w2) root3 (stdout w2))
                 [UpdatedFileModificationTime T'])).
    { unfold modify_image_datetime.
      rewrite (bind_ok _ _ _ _ _ _ _ (Hfirst None)). cbv beta iota.
      unfold try_except, datetime_timestamp. unfold bind at 1. unfold bind at 1.
      rewrite reading_run, Hstamp2. unfold bind at 1. rewrite Hutime.
      reflexivity. }
    rewrite Hrun. cbn [fst snd].
    split; [reflexivity|]. split; [exact Hlook3|].
    cbn. now rewrite <- app_assoc.
  - intros out k Hout. split; [|exact Hf1].
    unfold modify_image_datetime.
    rewrite (bind_ok _ _ _ _ _ _ _ (Hfirst (Some out))). cbv beta iota.
    unfold try_except, datetime_timestamp. unfold bind at 1. unfold bind at 1.
    rewrite reading_run, Hstamp2. unfold bind at 1.
    unfold os_utime. rewrite writing_run. cbn [fs machine].
    assert (lookup (fs w2) out = Errno k) as -> by (cbn; now rewrite Hf1).
    cbn [is_OSError]. unfold bind, print, ret, printed. cbn.
    now rewrite <- !app_assoc.
Qed.

Lemma non_jpeg_image_is_reported_as_success_witness :
  (let run := modify_image_datetime "scan.jpg" 2023 None None second_world in
   fst run = Ok true /\
   lookup (fs (snd run)) "scan.jpg"
   = Done (File (mkfile true true
                   (Some (mkimage "PNG" [(306, "2019:05:17 10:00:00")] []))
                   1684317600000000 1684317600000000))) /\
  modify_image_datetime "scan.jpg" 2023 None (Some "copy.jpg") second_world
  = (Ok true,
     printed second_world
       [OriginalDatetime may_17_2019; NewDatetime (mkdatetime 2023 5 17 10 0 0 0);
        WarningNotJPEG "PNG";
        ErrorUpdatingFileModificationTime (OSError FileNotFoundError "copy.jpg")]).
Proof.
  destruct (non_jpeg_image_is_reported_as_success "scan.jpg" 2023 None
              second_world second_world
              (mkfile true true
                 (Some (mkimage "PNG" [(306, "2019:05:17 10:00:00")] []))
                 1558087200000000 1558087200000000)
              (mkimage "PNG" [(306, "2019:05:17 10:00:00")] [])
              may_17_2019 (mkdatetime 2023 5 17 10 0 0 0) 1684317600000000
              eq_refl eq_refl eq_refl eq_refl eq_refl eq_refl eq_refl eq_refl)
    as [(H1 & H2 & _) H3].
  split; [split; [exact H1 | exact H2]|].
  exact (proj1 (H3 "copy.jpg" FileNotFoundError eq_refl)).
Defined.

(* ================================================================== *)
(** ** The command line *)

(** The year and the month that [main] accepts fit a C [int]. *)
Lemma accepted_arguments_fit (args : arguments) :
  month_ok args -> year_ok args ->
  c_int (arg_new_year args) = true /\ keyword_fits (arg_new_month args) = true.
Proof.
  unfold month_ok, year_ok. intros Hm Hy. split.
  - apply c_int_true. lia.
  - destruct (arg_new_month args) as [m|]; [|reflexivity].
    apply c_int_true. lia.
Qed.

(** The checks of [main] that pass are skipped. *)
Lemma main_checks_pass (args : arguments) (w : world) (x : node) :
  lookup (fs w) (arg_path args) = Done x -> month_ok args -> year_ok args ->
  main args w
  = (let is_folder := match x with Dir _ => true | File _ => false end in
     if arg_show_current args then
    (if is_folder then
       jpeg_files <- find_jpeg_files (arg_path args) (arg_recursive args) ;;
       match jpeg_files with
       | [] => print (NoJpegFilesFoundIn (arg_path args)) ;;; sys_exit 1
       | _ =>
           print (FoundJpegFilesList (len jpeg_files)) ;;;
           for_each jpeg_files (fun file_path =>
             show_current_datetime file_path
               (ShowDatetime (basename file_path))
               (ShowFileTime (basename file_path)))
       end
     else
       (if negb (is_jpeg_file (arg_path args))
        then print (NotAJpegFile (arg_path args)) ;;; sys_exit 1 else ret tt) ;;;
       show_current_datetime (arg_path args)
         CurrentImageDatetime CurrentFileModificationTime) ;;;
    sys_exit 0
  else if is_folder then
    '(success_count, error_count, total_files) <-
      process_folder (arg_path args) (arg_new_year args) (arg_new_month args)
                     (arg_output args) (arg_recursive args) (arg_dry_run args) ;;
    (if arg_dry_run args then sys_exit 0 else ret tt) ;;;
    if 0 <? error_count
    then print (CompletedWithErrors error_count total_files) ;;; sys_exit 1
    else print (AllProcessed success_count)
  else
    (if negb (is_jpeg_file (arg_path args))
     then print (NotAJpegFile (arg_path args)) ;;; sys_exit 1 else ret tt) ;;;
    if arg_dry_run args then
      print DryRunModeSingle ;;;
      current_dt <- get_image_datetime (arg_path args) ;;
      match current_dt with
      | Some t =>
          new_dt <- lift (new_datetime t (arg_new_year args) (arg_new_month args)) ;;
          print (WouldChange t new_dt)
      | None => print NoExifDatetimeFound
      end ;;;
      sys_exit 0
    else
      success <- modify_image_datetime (arg_path args) (arg_new_year args)
                   (arg_new_month args) (arg_output args) ;;
      if success then print ModifiedSuccessfully
      else print FailedToModify ;;; sys_exit 1) w.
Proof.
  intros Hl Hm Hy. unfold main.
  unfold os_path_exists at 1. unfold bind at 1. rewrite reading_run, Hl.
  cbn [negb]. unfold bind at 1. cbn [ret].
  assert (Hmonth : (match arg_new_month args with
             | Some m => if negb (in_range 1 m 12)
                         then print MonthMustBeBetween1And12 ;;; sys_exit 1
                         else ret tt
             | None => ret tt end) = ret tt).
  { unfold month_ok in Hm. destruct (arg_new_month args) as [m|]; [|reflexivity].
    assert (in_range 1 m 12 = true) as -> by now apply in_range_true.
    reflexivity. }
  rewrite Hmonth. unfold bind at 1. cbn [ret].
  assert (Hyear : (arg_new_year args <? 1900) || (2100 <? arg_new_year args) = false).
  { unfold year_ok in Hy. apply orb_false_iff. split; apply Z.ltb_ge; lia. }
  rewrite Hyear. unfold bind at 1. cbn [ret].
  unfold os_path_isdir at 1. unfold bind at 1. rewrite reading_run, Hl.
  cbv zeta. destruct x; reflexivity.
Qed.

(** X11. A command line that fails one of the checks of [main] ends the
    command with exit status 1 after one printed line, whatever the
    flags [--show-current], [--dry-run], [--recursive] and [--output]:
    no file is opened or changed. The checks are made in this order: the
    path exists, the month is between 1 and 12, the year is between 1900
    and 2100, and a path that is not a folder has a JPEG extension. *)
Theorem main_rejects_before_touching_files (args : arguments) (w : world)
        (line : message) :
  rejected args (fs w) line ->
  main args w = (Raise (SystemExit 1), printed w [line]).
Proof.
  intros [k Hl | x m Hl Hm Hbad | x Hl Hm Hy | f Hl Hm Hy Hj].
  - unfold main. unfold os_path_exists at 1. unfold bind at 1.
    rewrite reading_run, Hl. reflexivity.
  - unfold main. unfold os_path_exists at 1. unfold bind at 1.
    rewrite reading_run, Hl. cbn [negb]. unfold bind at 1. cbn [ret].
    rewrite Hm.
    assert (in_range 1 m 12 = false) as -> by now apply in_range_false.
    reflexivity.
  - unfold main. unfold os_path_exists at 1. unfold bind at 1.
    rewrite reading_run, Hl. cbn [negb]. unfold bind at 1. cbn [ret].
    assert (Hmonth : (match arg_new_month args with
             | Some m => if negb (in_range 1 m 12)
                         then print MonthMustBeBetween1And12 ;;; sys_exit 1
                         else ret tt
             | None => ret tt end) = ret tt).
    { unfold month_ok in Hm. destruct (arg_new_month args) as [m|]; [|reflexivity].
      assert (in_range 1 m 12 = true) as -> by now apply in_range_true.
    reflexivity. }
    rewrite Hmonth. unfold bind at 1. cbn [ret].
    assert (Hyear : (arg_new_year args <? 1900) || (2100 <? arg_new_year args) = true).
    { unfold year_ok in Hy. apply orb_true_iff.
      destruct (Z.ltb_spec (arg_new_year args) 1900); [now left|].
      right. apply Z.ltb_lt. lia. }
    rewrite Hyear. reflexivity.
  - rewrite (main_checks_pass args w _ Hl Hm Hy). cbv zeta. rewrite Hj.
    destruct (arg_show_current args); reflexivity.
Qed.

Lemma main_rejects_before_touching_files_witness :
  main (mkarguments "a.jpg" 2023 (Some 13) None false false false) example_world
  = (Raise (SystemExit 1), printed example_world [MonthMustBeBetween1And12]).
Proof.
  apply main_rejects_before_touching_files.
  apply (rejected_month _ _ (jpeg_dated "2019:05:17 10:00:00") 13); [reflexivity | reflexivity |].
  cbn. lia.
Defined.

(* ------------------------------------------------------------------ *)











Lemma reader_some_inv path w t :
  fst (get_image_datetime path w) = Ok (Some t) ->
  valid_datetime t /\ get_image_datetime path w = (Ok (Some t), w) /\
  exists img, Image_open path w = (Ok img, w).
Proof.
  unfold get_image_datetime, try_except, bind, Image_open, reading.
  destruct (lookup (fs w) path) as [[f|es]|k]; cbn; try discriminate.
  destruct (can_read f); cbn; [|discriminate].
  destruct (content f) as [img|]; cbn; [|discriminate].
  destruct (find _ _) as [[tag value]|]; cbn; [|discriminate].
  unfold lift. destruct (strptime value) as [t'|e] eqn:E; cbn.
  - intros [= ->]. destruct (strptime_ok_inv _ _ E). eauto.
  - rewrite (strptime_raises _ _ E), orb_true_r. cbn. discriminate.
Qed.



(** X14. The exit status of a batch run. For an existing folder and accepted
    arguments, without [--show-current] and [--dry-run], [process_folder]
    returns its three counts and [main] ends by them: with exit status 1
    as soon as one file failed, and normally (status 0) when none did,
    which includes the folder without any JPEG file. Every discovered
    file is counted once, as a success or as an error. *)
Theorem batch_exit_status (args : arguments) (w : world)
        (es : list (string * node)) :
  lookup (fs w) (arg_path args) = Done (Dir es) ->
  month_ok args -> year_ok args ->
  arg_show_current args = false -> arg_dry_run args = false ->
  exists s e t w',
    process_folder (arg_path args) (arg_new_year args) (arg_new_month args)
                   (arg_output args) (arg_recursive args) false w
    = (Ok (s, e, t), w') /\
    s + e = t /\ 0 <= s /\ 0 <= e /\
    main args w
    = if 0 <? e
      then (Raise (SystemExit 1), printed w' [CompletedWithErrors e t])
      else (Ok tt, printed w' [AllProcessed s]).
Proof.
  intros Hl Hm Hy Hs Hd.
  pose proof (find_jpeg_files_existing (arg_path args) (arg_recursive args) w es Hl)
    as Hfind.
  destruct (accepted_arguments_fit args Hm Hy) as [HcY HcM].
  destruct (process_folder_counts (arg_path args) (arg_new_year args)
              (arg_new_month args) (arg_output args) (arg_recursive args) w _
              HcY HcM Hfind)
    as (s & e & Hrun & Hsum & Hs0 & He0).
  destruct (process_folder _ _ _ _ _ false w) as [r w'] eqn:E.
  cbn [fst] in Hrun. subst r.
  eexists s, e, _, w'. split; [reflexivity|]. repeat split; try assumption.
  rewrite (main_checks_pass args w _ Hl Hm Hy). cbv zeta. rewrite Hs, Hd.
  unfold bind at 1. rewrite E. cbv beta iota. unfold bind at 1. cbn [ret].
  destruct (0 <? e); reflexivity.
Qed.

Lemma batch_exit_status_witness :
  exists s e t w',
    process_folder "photos" 2023 None None false false example_world
    = (Ok (s, e, t), w') /\
    s + e = t /\ 0 <= s /\ 0 <= e /\
    main (mkarguments "photos" 2023 None None false false false) example_world
    = if 0 <? e
      then (Raise (SystemExit 1), printed w' [CompletedWithErrors e t])
      else (Ok tt, printed w' [AllProcessed s]).
Proof.
  eapply (batch_exit_status
            (mkarguments "photos" 2023 None None false false false)
            example_world).
  - vm_compute. reflexivity.
  - exact I.
  - cbv. split; discriminate.
  - reflexivity.
  - reflexivity.
Defined.

(** X15. One file whose day does not exist in the target month, given to the
    command. The real run ends cleanly: the [ValueError] is caught and
    printed by [modify_image_datetime], [main] prints the failure and
    exits with status 1, and no file is changed. The dry run of the same
    command line does not catch it: the [ValueError] escapes from
    [main] after the dry-run banner. *)
Theorem single_file_day_overflow (args : arguments) (w : world) (f : file)
        (T : datetime) :
  lookup (fs w) (arg_path args) = Done (File f) ->
  month_ok args -> year_ok args ->
  is_jpeg_file (arg_path args) = true -> arg_show_current args = false ->
  fst (get_image_datetime (arg_path args) w) = Ok (Some T) ->
  _days_in_month (arg_new_year args) (target_month T (arg_new_month args))
  < day T ->
  main args w
  = if arg_dry_run args
    then (Raise (ValueError DayOutOfRange), printed w [DryRunModeSingle])
    else (Raise (SystemExit 1),
          printed w [ErrorModifyingImageDatetime (ValueError DayOutOfRange);
                     FailedToModify]).
Proof.
  intros Hl Hm Hy Hj Hs Hget Hday.
  destruct (reader_some_inv _ _ _ Hget) as (HT & Hrun & img & Hopen).
  assert (HY : MINYEAR <= arg_new_year args <= MAXYEAR).
  { unfold year_ok in Hy. unfold MINYEAR, MAXYEAR. lia. }
  assert (HM : 1 <= target_month T (arg_new_month args) <= 12).
  { unfold month_ok in Hm. unfold target_month.
    destruct (arg_new_month args); [exact Hm|].
    apply valid_datetime_fields in HT. lia. }
  rewrite (main_checks_pass args w _ Hl Hm Hy). cbv zeta. rewrite Hs, Hj.
  cbn [negb]. unfold bind at 1. cbn [ret].
  destruct (arg_dry_run args).
  - rewrite bind_print_printed. unfold bind at 1. unfold bind at 1.
    assert (Hrun' : get_image_datetime (arg_path args) (printed w [DryRunModeSingle])
                    = (Ok (Some T), printed w [DryRunModeSingle])).
    { destruct (reader_some_inv (arg_path args) (printed w [DryRunModeSingle]) T)
        as (_ & H & _); [|exact H].
      revert Hget. unfold get_image_datetime, try_except, bind, Image_open, reading.
      cbn [fs machine printed]. 
      destruct (lookup (fs w) (arg_path args)) as [[f'|?]|?]; cbn; try discriminate.
      destruct (can_read f'); cbn; [|discriminate].
      destruct (content f') as [img'|]; cbn; [|discriminate].
      destruct (find _ _) as [[tag value]|]; cbn; [|discriminate].
      unfold lift. destruct (strptime value) as [t'|e] eqn:E; cbn; [auto|].
      rewrite (strptime_raises _ _ E), orb_true_r. cbn. discriminate. }
    rewrite Hrun'. unfold bind at 1. unfold lift.
    rewrite (new_datetime_overflow _ _ _ HY HM Hday). reflexivity.
  - assert (Hcur : current_datetime_of (arg_path args) w = (Ok T, w)).
    { unfold current_datetime_of. unfold bind. now rewrite Hrun. }
    destruct (modify_image_datetime_overflow (arg_path args) (arg_new_year args)
                (arg_new_month args) (arg_output args) w img T w Hopen Hcur
                HY HM Hday) as [Hmod _].
    unfold bind at 1. rewrite Hmod. rewrite bind_print_printed, printed_printed.
    reflexivity.
Qed.

Lemma single_file_day_overflow_witness :
  main (mkarguments "leap/feb29.jpg" 2023 (Some 2) None false false true)
       example_world
  = (Raise (ValueError DayOutOfRange), printed example_world [DryRunModeSingle])
  /\
  main (mkarguments "leap/feb29.jpg" 2023 (Some 2) None false false false)
       example_world
  = (Raise (SystemExit 1),
     printed example_world
       [ErrorModifyingImageDatetime (ValueError DayOutOfRange); FailedToModify]).
Proof.
  split.
  - refine (single_file_day_overflow
              (mkarguments "leap/feb29.jpg" 2023 (Some 2) None false false true)
              example_world _ (mkdatetime 2020 1 29 8 0 0 0)
              eq_refl _ _ eq_refl eq_refl eq_refl eq_refl).
    + cbv. split; discriminate.
    + cbv. split; discriminate.
  - refine (single_file_day_overflow
              (mkarguments "leap/feb29.jpg" 2023 (Some 2) None false false false)
              example_world _ (mkdatetime 2020 1 29 8 0 0 0)
              eq_refl _ _ eq_refl eq_refl eq_refl eq_refl).
    + cbv. split; discriminate.
    + cbv. split; discriminate.
Defined.

(* ================================================================== *)
(** ** Nothing to process *)

Ltac print_done :=
  unfold print, printed; cbn [machine fs stdout app];
  rewrite <- ?app_assoc; reflexivity.

(** X16. A folder in which discovery finds no JPEG file. [process_folder]
    prints one line and returns [(0, 0, 0)] without creating the output
    folder; [main] then reports that all 0 files were processed and
    returns normally, or exits with status 0 under [--dry-run], whereas
    under [--show-current] the same folder is an error with exit
    status 1. *)
Theorem folder_without_jpeg_files (args : arguments) (w : world)
        (es : list (string * node)) :
  lookup (fs w) (arg_path args) = Done (Dir es) ->
  month_ok args -> year_ok args ->
  fst (find_jpeg_files (arg_path args) (arg_recursive args) w) = Ok [] ->
  let none_found := NoJpegFilesFound (arg_recursive args) (arg_path args) in
  (forall Y M_ out dry,
     process_folder (arg_path args) Y M_ out (arg_recursive args) dry w
     = (Ok (0, 0, 0), printed w [none_found])) /\
  main args w
  = if arg_show_current args
    then (Raise (SystemExit 1), printed w [NoJpegFilesFoundIn (arg_path args)])
    else if arg_dry_run args
    then (Raise (SystemExit 0), printed w [none_found])
    else (Ok tt, printed w [none_found; AllProcessed 0]).
Proof.
  intros Hl Hm Hy Hnone. cbv zeta.
  assert (Hfind : find_jpeg_files (arg_path args) (arg_recursive args) w
                  = (Ok [], w)).
  { rewrite (find_jpeg_files_existing _ _ _ _ Hl) in Hnone |- *.
    cbn [fst] in Hnone. congruence. }
  assert (Hpf : forall Y M_ out dry,
     process_folder (arg_path args) Y M_ out (arg_recursive args) dry w
     = (Ok (0, 0, 0),
        printed w [NoJpegFilesFound (arg_recursive args) (arg_path args)])).
  { intros. unfold process_folder. rewrite (bind_ok _ _ _ _ _ _ _ Hfind).
    reflexivity. }
  split; [exact Hpf|].
  rewrite (main_checks_pass args w _ Hl Hm Hy). cbv zeta.
  destruct (arg_show_current args).
  - unfold bind at 1. unfold bind at 1. rewrite Hfind. reflexivity.
  - unfold bind at 1. rewrite Hpf. cbv beta iota.
    destruct (arg_dry_run args); [reflexivity|].
    unfold bind at 1. cbn [ret]. change (0 <? 0) with false. cbv iota.
    print_done.
Qed.

Lemma folder_without_jpeg_files_witness :
  main (mkarguments "empty" 2023 None (Some "out") false true false) second_world
  = (Ok tt, printed second_world [NoJpegFilesFound true "empty"; AllProcessed 0]).
Proof.
  refine (proj2 (folder_without_jpeg_files
            (mkarguments "empty" 2023 None (Some "out") false true false)
            second_world _ eq_refl _ _ eq_refl)).
  - exact I.
  - cbv. split; discriminate.
Defined.

(* ================================================================== *)
(** ** What the dry run shows and what the run does *)

Lemma reader_fst_fs path w1 w2 :
  fs w1 = fs w2 ->
  fst (get_image_datetime path w1) = fst (get_image_datetime path w2).
Proof.
  intros H. unfold get_image_datetime, try_except, bind, Image_open, reading.
  rewrite H.
  destruct (lookup (fs w2) path) as [[f|es]|k]; cbn; try reflexivity.
  destruct (can_read f); cbn; [|reflexivity].
  destruct (content f) as [img|]; cbn; [|reflexivity].
  destruct (find _ _) as [[tag value]|]; cbn; [|reflexivity].
  unfold lift. destruct (strptime value) as [t'|e] eqn:E; cbn; [reflexivity|].
  rewrite (strptime_raises _ _ E), orb_true_r. reflexivity.
Qed.

(** X17. For a file in which the reader finds a date that the transform
    accepts, the dry run of the batch shows the very change the real run
    makes: the line of the dry run carries the two dates that
    [modify_image_datetime] announces as the original and the new
    one. *)
Theorem dry_run_shows_the_change_of_the_run
        (path : string) (i Y : Z) (M_ : option Z) (out : option string)
        (w : world) (T T' : datetime) :
  fst (get_image_datetime path w) = Ok (Some T) ->
  new_datetime T Y M_ = Ok T' ->
  dry_run_item Y M_ (i, path) w
  = (Ok tt, printed w [DryRunItem i (basename path); DryRunChange T T']) /\
  exists more,
    stdout (snd (modify_image_datetime path Y M_ out w))
    = (stdout w ++ [OriginalDatetime T; NewDatetime T'] ++ more)%list.
Proof.
  intros Hget HT'.
  destruct (reader_some_inv _ _ _ Hget) as (_ & Hrun & img & Hopen).
  split.
  - unfold dry_run_item. rewrite bind_print_printed.
    set (w0 := printed w [DryRunItem i (basename path)]).
    assert (Hget0 : fst (get_image_datetime path w0) = Ok (Some T)).
    { rewrite <- Hget. now apply reader_fst_fs. }
    destruct (reader_some_inv _ _ _ Hget0) as (_ & Hrun0 & _).
    rewrite (bind_ok _ _ _ _ _ _ _ Hrun0). cbv beta iota.
    unfold bind at 1. unfold lift. rewrite HT'. subst w0. print_done.
  - assert (Hcur : current_datetime_of path w = (Ok T, w)).
    { unfold current_datetime_of. unfold bind. now rewrite Hrun. }
    destruct (modify_image_datetime_from_source path Y M_ out w img T w
                Hopen Hcur) as [_ Hgood].
    exact (Hgood T' HT').
Qed.

Lemma dry_run_shows_the_change_of_the_run_witness :
  dry_run_item 2023 None (1, "photos/b.JPG") example_world
  = (Ok tt, printed example_world
              [DryRunItem 1 "b.JPG";
               DryRunChange (mkdatetime 2018 7 4 12 0 0 0)
                            (mkdatetime 2023 7 4 12 0 0 0)]) /\
  exists more,
    stdout (snd (modify_image_datetime "photos/b.JPG" 2023 None None
                                       example_world))
    = (stdout example_world
       ++ [OriginalDatetime (mkdatetime 2018 7 4 12 0 0 0);
           NewDatetime (mkdatetime 2023 7 4 12 0 0 0)] ++ more)%list.
Proof.
  apply (dry_run_shows_the_change_of_the_run "photos/b.JPG" 1 2023 None None
           example_world (mkdatetime 2018 7 4 12 0 0 0)
           (mkdatetime 2023 7 4 12 0 0 0)).
  - vm_compute. reflexivity.
  - vm_compute. reflexivity.
Defined.



(* ================================================================== *)
(** ** When a write fails or is skipped *)

Lemma write_file_existing_fails root path change f k :
  lookup root path = Done (File f) -> no_dotdot path = true ->
  change (Some f) = Errno k ->
  write_file root path change = Errno k.
Proof.
  intros Hl Hnd Hch.
  destruct (lookup_file_inv root path f Hl Hnd)
    as (Hne & Hplain & z & es & Hloc & Hz & Ha).
  unfold write_file. rewrite Hne.
  destruct (split_last (split_slash path)) as [dir_cs name] eqn:Es.
  cbn [fst snd] in *. rewrite Hplain. cbn [negb].
  now rewrite Hloc, Hz, Ha, Hch.
Qed.

Lemma update_exif_without_piexif path t w :
  piexif_installed (machine w) = false ->
  update_exif_with_piexif path t w
  = (Ok tt, printed w [PiexifNotInstalled; UsingBasicPIL]).
Proof.
  intros Hno. unfold update_exif_with_piexif, try_except.
  unfold bind at 1. rewrite reading_run, Hno.
  unfold bind, raise, print, printed. cbn. now rewrite <- app_assoc.
Qed.

(** X19. A JPEG file that can be read but not written, changed in place:
    the save fails, [modify_image_datetime] prints the [PermissionError]
    after the two dates and returns [False], and the file keeps its
    content, its metadata and its times. The dates printed as original
    and new are not applied. *)
Theorem unwritable_file_is_left_alone
        (path : string) (Y : Z) (M_ : option Z) (w w1 : world) (f : file)
        (img : image) (T T' : datetime) :
  no_dotdot path = true ->
  lookup (fs w) path = Done (File f) -> can_read f = true ->
  can_write f = false ->
  content f = Some img -> format img = "JPEG" ->
  current_datetime_of path w = (Ok T, w1) ->
  new_datetime T Y M_ = Ok T' ->
  modify_image_datetime path Y M_ None w
  = (Ok false,
     printed w1 [OriginalDatetime T; NewDatetime T';
                 ErrorModifyingImageDatetime (OSError PermissionError path)])
  /\ fs w1 = fs w.
Proof.
  intros Hnd Hl Hr Hw Hc Hf Hcur HT'.
  pose proof (read_only_current_datetime_of path w) as (Hm1 & Hf1 & _).
  rewrite Hcur in Hm1, Hf1. cbn [snd] in Hm1, Hf1.
  split; [|exact Hf1].
  set (w2 := printed w1 [OriginalDatetime T; NewDatetime T']).
  assert (Hl2 : lookup (fs w2) path = Done (File f)) by (cbn; now rewrite Hf1).
  assert (Hsave : Image_save path w2
                  = (Raise (OSError PermissionError path), w2)).
  { unfold Image_save. rewrite writing_run.
    rewrite (write_file_existing_fails (fs w2) path _ f PermissionError Hl2 Hnd);
      [reflexivity|].
    cbn beta iota. now rewrite Hw. }
  unfold modify_image_datetime.
  match goal with
  | |- bind ?m ?k w = _ =>
      assert (E : m w = (Ok None,
                         printed w2 [ErrorModifyingImageDatetime
                                       (OSError PermissionError path)]))
  end.
  { unfold try_except.
    rewrite (bind_ok _ _ _ _ _ _ _ (Image_open_file _ _ _ _ Hl Hr Hc)).
    rewrite (bind_ok _ _ _ _ _ _ _ Hcur).
    rewrite (bind_ok _ _ _ _ _ T' w1) by (unfold lift; now rewrite HT').
    do 2 rewrite bind_print_printed. rewrite printed_printed. cbn [app].
    fold w2. rewrite Hf, String.eqb_refl.
    unfold bind at 1. unfold bind at 1. rewrite Hsave. reflexivity. }
  rewrite (bind_ok _ _ _ _ _ _ _ E). cbv beta iota. subst w2.
  rewrite printed_printed. reflexivity.
Qed.

Lemma unwritable_file_is_left_alone_witness :
  modify_image_datetime "locked.jpg" 2023 None None second_world
  = (Ok false,
     printed second_world
       [OriginalDatetime may_17_2019; NewDatetime (mkdatetime 2023 5 17 10 0 0 0);
        ErrorModifyingImageDatetime (OSError PermissionError "locked.jpg")]).
Proof.
  refine (proj1 (unwritable_file_is_left_alone "locked.jpg" 2023 None
            second_world second_world _ _ may_17_2019
            (mkdatetime 2023 5 17 10 0 0 0)
            eq_refl eq_refl eq_refl eq_refl eq_refl eq_refl eq_refl eq_refl)).
Defined.

(** X20. Without piexif the date leaves the metadata and lives on in the
    file time. For a JPEG file that can be read and written, changed in
    place on a machine where [import piexif] fails, when the machine
    has a timestamp for the new date: [modify_image_datetime] still
    returns [True]; the file is then a JPEG without any metadata, whose
    access and modification times are the timestamp of the new date;
    the reader finds no date in it any more; and the source timestamp
    of a later run is the file time, that is the new date as the clock
    of the machine gives it back. *)
Theorem without_piexif_the_date_moves_to_the_file_time
        (path : string) (Y : Z) (M_ : option Z) (w w1 : world) (f : file)
        (img : image) (T T' : datetime) (stamp : Z) :
  no_dotdot path = true ->
  lookup (fs w) path = Done (File f) ->
  can_read f = true -> can_write f = true ->
  content f = Some img -> format img = "JPEG" ->
  piexif_installed (machine w) = false ->
  current_datetime_of path w = (Ok T, w1) ->
  new_datetime T Y M_ = Ok T' ->
  timestamp (machine w) T' = Some stamp ->
  let run := modify_image_datetime path Y M_ None w in
  fst run = Ok true /\
  lookup (fs (snd run)) path
  = Done (File (mkfile true true (Some (mkimage "JPEG" [] [])) stamp stamp)) /\
  fst (get_image_datetime path (snd run)) = Ok None /\
  fst (current_datetime_of path (snd run))
  = Ok (fromtimestamp (machine w) stamp).
Proof.
  intros Hnd Hl Hr Hw Hc Hf Hp Hcur HT' Hstamp. cbv zeta.
  pose proof (read_only_current_datetime_of path w) as (Hm1 & Hf1 & _).
  rewrite Hcur in Hm1, Hf1. cbn [snd] in Hm1, Hf1.
  set (w2 := printed w1 [OriginalDatetime T; NewDatetime T']).
  assert (Hl2 : lookup (fs w2) path = Done (File f)) by (cbn; now rewrite Hf1).
  destruct (Image_save_run path w2 f Hl2 Hnd Hw) as (root1 & Hsave & Hlook1).
  set (w3 := mkworld (machine w2) root1 (stdout w2)) in *.
  assert (Hp3 : piexif_installed (machine w3) = false) by (cbn; now rewrite Hm1).
  pose proof (update_exif_without_piexif path T' w3 Hp3) as Hexif.
  set (w4 := printed w3 [PiexifNotInstalled; UsingBasicPIL]) in *.
  pose proof (Hlook1 : lookup (fs w4) path = _) as Hl4.
  assert (Hstamp4 : timestamp (machine w4) T' = Some stamp)
    by (cbn [w4 w3 w2 machine printed]; now rewrite Hm1).
  destruct (os_utime_run path stamp stamp w4 _ Hl4 Hnd)
    as (root3 & Hutime & Hlook3).
  cbn [can_read can_write content] in Hlook3. rewrite Hr in Hlook3.
  assert (Hrun :
    modify_image_datetime path Y M_ None w
    = (Ok true,
       printed (mkworld (machine w4) root3 (stdout w4))
               [UpdatedFileModificationTime T'])).
  { unfold modify_image_datetime.
    match goal with
    | |- bind ?m ?k w = _ =>
        assert (E : m w = (Ok (Some (T', path)), w4))
    end.
    { unfold try_except.
      rewrite (bind_ok _ _ _ _ _ _ _ (Image_open_file _ _ _ _ Hl Hr Hc)).
      rewrite (bind_ok _ _ _ _ _ _ _ Hcur).
      rewrite (bind_ok _ _ _ _ _ T' w1) by (unfold lift; now rewrite HT').
      do 2 rewrite bind_print_printed. rewrite printed_printed. cbn [app].
      fold w2. rewrite Hf, String.eqb_refl.
      unfold bind at 1. unfold bind at 1. rewrite Hsave. fold w3.
      rewrite Hexif. reflexivity. }
    rewrite (bind_ok _ _ _ _ _ _ _ E). cbv beta iota.
    unfold try_except, datetime_timestamp. unfold bind at 1. unfold bind at 1.
    rewrite reading_run, Hstamp4. unfold bind at 1. rewrite Hutime.
    reflexivity. }
  rewrite Hrun. cbn [fst snd].
  set (w5 := printed _ [UpdatedFileModificationTime T']).
  pose proof (Hlook3 : lookup (fs w5) path = _) as Hl5.
  assert (Hm5 : machine w5 = machine w) by (cbn; exact Hm1).
  split; [reflexivity|]. split; [exact Hl5|].
  assert (Hn : no_datetime_field (mkimage "JPEG" [] [])) by reflexivity.
  split.
  - now rewrite (get_image_datetime_no_field path w5 _ _ Hl5 eq_refl eq_refl Hn).
  - rewrite (current_datetime_of_no_field path w5 _ _ Hl5 eq_refl eq_refl Hn).
    cbn [fst mtime]. now rewrite Hm5.
Qed.

Lemma without_piexif_the_date_moves_to_the_file_time_witness :
  let run := modify_image_datetime "album/z.jpg" 2023 None None
                                   world_without_piexif in
  fst run = Ok true /\
  lookup (fs (snd run)) "album/z.jpg"
  = Done (File (mkfile true true (Some (mkimage "JPEG" [] []))
                       1691564765000000 1691564765000000)) /\
  fst (get_image_datetime "album/z.jpg" (snd run)) = Ok None /\
  fst (current_datetime_of "album/z.jpg" (snd run))
  = Ok (mkdatetime 2023 8 9 7 6 5 0).
Proof.
  refine (without_piexif_the_date_moves_to_the_file_time "album/z.jpg" 2023
            None world_without_piexif world_without_piexif _ _
            (mkdatetime 2016 8 9 7 6 5 0) (mkdatetime 2023 8 9 7 6 5 0)
            1691564765000000
            eq_refl eq_refl eq_refl eq_refl eq_refl eq_refl eq_refl eq_refl
            eq_refl eq_refl).
Defined.

(* ================================================================== *)
(** ** Paths built from a folder and entry names *)

Lemma join_dir_prefix a b :
  startswith_slash b = false -> join a b = (dir_prefix a ++ b)%string.
Proof.
  intros Hb. unfold join, dir_prefix. rewrite Hb.
  destruct ((a =? "")%string || endswith_slash a); [reflexivity|].
  now rewrite string_app_assoc.
Qed.

Lemma endswith_slash_app_slash a : endswith_slash (a ++ "/") = true.
Proof.
  induction a as [|x a IH]; [reflexivity|].
  cbn [String.append endswith_slash]. rewrite IH.
  destruct (a ++ "/")%string eqn:E; [|reflexivity].
  destruct a; discriminate.
Qed.

Lemma dir_prefix_cases a :
  dir_prefix a = "" \/ endswith_slash (dir_prefix a) = true.
Proof.
  unfold dir_prefix. destruct (a =? "")%string eqn:E; cbn [orb].
  - left. now apply String.eqb_eq.
  - destruct (endswith_slash a) eqn:Es; right;
      [exact Es | apply endswith_slash_app_slash].
Qed.

Lemma has_slash_startswith n : has_slash n = false -> startswith_slash n = false.
Proof.
  destruct n as [|a n]; [reflexivity|]. cbn.
  intros H. now apply orb_false_iff in H as [-> _].
Qed.

Lemma rfind_no_slash n : has_slash n = false -> rfind slash n = -1.
Proof.
  induction n as [|a n IH]; [reflexivity|]. cbn [has_slash rfind].
  intros H. apply orb_false_iff in H as [Ha Hn]. rewrite (IH Hn), Ha.
  reflexivity.
Qed.

Lemma rfind_endswith P : endswith_slash P = true -> rfind slash P = slen P - 1.
Proof.
  intros H. destruct (endswith_slash_inv P H) as [P' ->].
  rewrite rfind_app. unfold slen. rewrite length_app. cbn. lia.
Qed.

Lemma rfind_prefix P n :
  P = "" \/ endswith_slash P = true -> has_slash n = false ->
  rfind slash (P ++ n) = slen P - 1.
Proof.
  intros HP Hn. rewrite rfind_app, (rfind_no_slash n Hn). cbn [Z.leb Z.compare].
  destruct HP as [-> | HP]; [reflexivity | now apply rfind_endswith].
Qed.

Lemma basename_prefix P n :
  P = "" \/ endswith_slash P = true -> has_slash n = false ->
  basename (P ++ n) = n.
Proof.
  intros HP Hn. unfold basename. rewrite (rfind_prefix P n HP Hn).
  replace (slen P - 1 + 1) with (slen P) by lia. unfold slen.
  rewrite Nat2Z.id. apply str_drop_app.
Qed.

Lemma str_drop_add a b k :
  str_drop (String.length a + k) (a ++ b) = str_drop k b.
Proof. induction a as [|x a IH]; [reflexivity | exact IH]. Qed.

Lemma splitext_ext_prefix P n :
  P = "" \/ endswith_slash P = true -> has_slash n = false ->
  snd (splitext (P ++ n)) =
  if 0 <=? rfind dot n
  then if all_dots (str_take (Z.to_nat (rfind dot n)) n) then ""
       else str_drop (Z.to_nat (rfind dot n)) n
  else "".
Proof.
  intros HP Hn. unfold splitext.
  rewrite (rfind_prefix P n HP Hn), (rfind_app dot).
  pose proof (rfind_bounds dot n) as Hd. pose proof (rfind_bounds dot P) as HdP.
  destruct (0 <=? rfind dot n) eqn:E.
  - apply Z.leb_le in E.
    assert ((slen P - 1 <? slen P + rfind dot n) = true) as ->
        by (apply Z.ltb_lt; lia).
    replace (slen P - 1 + 1) with (Z.of_nat (String.length P))
      by (unfold slen; lia).
    replace (Z.to_nat (slen P + rfind dot n - Z.of_nat (String.length P)))
      with (Z.to_nat (rfind dot n)) by (unfold slen; lia).
    rewrite _splitext_loop_spec
      by (rewrite length_app; unfold slen in Hd; lia).
    rewrite str_drop_app.
    destruct (all_dots _); [reflexivity|]. cbn [snd].
    replace (Z.to_nat (slen P + rfind dot n))
      with (String.length P + Z.to_nat (rfind dot n))%nat by (unfold slen; lia).
    apply str_drop_add.
  - assert ((slen P - 1 <? rfind dot P) = false) as ->
        by (apply Z.ltb_ge; lia).
    reflexivity.
Qed.

(** X21. The classifier looks at the name only. For a name without a slash,
    put after any folder path by [os.path.join] as discovery does, the
    verdict of [is_jpeg_file] on the path is its verdict on the name:
    dots or JPEG extensions in the names of the folders on the way
    change nothing. The name shown for the path, its [basename], is the
    name itself. *)
Theorem classifier_looks_at_the_name_only (folder name : string) :
  has_slash name = false ->
  is_jpeg_file (join folder name) = is_jpeg_file name /\
  basename (join folder name) = name.
Proof.
  intros Hn. rewrite (join_dir_prefix folder name (has_slash_startswith _ Hn)).
  split.
  - unfold is_jpeg_file.
    rewrite (splitext_ext_prefix _ name (dir_prefix_cases folder) Hn).
    now rewrite <- (splitext_ext_prefix "" name (or_introl eq_refl) Hn).
  - apply basename_prefix; [apply dir_prefix_cases | exact Hn].
Qed.

Lemma classifier_looks_at_the_name_only_witness :
  is_jpeg_file (join "trip.jpg/2019.05" "notes.txt") = is_jpeg_file "notes.txt" /\
  basename (join "trip.jpg/2019.05" "notes.txt") = "notes.txt".
Proof.
  apply (classifier_looks_at_the_name_only "trip.jpg/2019.05" "notes.txt").
  reflexivity.
Defined.

(* ------------------------------------------------------------------ *)

Lemma normpath_loop_app_plain cs n acc :
  plain_name n = true ->
  _normpath_loop (cs ++ [n]) acc = (_normpath_loop cs acc ++ [n])%list.
Proof.
  intros Hn. revert acc. induction cs as [|c cs IH]; intros acc.
  - cbn [app _normpath_loop]. unfold plain_name in Hn.
    apply negb_true_iff in Hn. apply orb_false_iff in Hn as [Hn Hdd].
    rewrite Hn, Hdd. reflexivity.
  - cbn [app _normpath_loop].
    destruct ((c =? "")%string || (c =? ".")%string); [apply IH|].
    destruct (negb (c =? "..")%string || _); apply IH.
Qed.

Lemma normpath_loop_app_empty cs acc :
  _normpath_loop (cs ++ [""]) acc = _normpath_loop cs acc.
Proof.
  revert acc. induction cs as [|c cs IH]; intros acc; [reflexivity|].
  cbn [app _normpath_loop].
  destruct ((c =? "")%string || (c =? ".")%string); [apply IH|].
  destruct (negb (c =? "..")%string || _); apply IH.
Qed.

Lemma startswith_slash_app a b :
  a <> "" -> startswith_slash (a ++ b) = startswith_slash a.
Proof. destruct a; [congruence | reflexivity]. Qed.

Lemma endswith_slash_cons x a :
  a <> "" -> endswith_slash (String x a) = endswith_slash a.
Proof. destruct a; [congruence | reflexivity]. Qed.

(** [os.path.abspath] of a path: a slash is put before a relative one. *)
Lemma join_root_join p n :
  startswith_slash n = false ->
  join "/" (join p n) = (dir_prefix (join "/" p) ++ n)%string.
Proof.
  intros Hn. rewrite (join_dir_prefix p n Hn).
  unfold join at 1 2. change (("/" =? "")%string || endswith_slash "/") with true.
  cbv iota. unfold dir_prefix.
  destruct p as [|x p].
  - cbn. now rewrite Hn.
  - change (String x p =? "")%string with false. cbn [orb].
    destruct (endswith_slash (String x p)) eqn:Es.
    + rewrite startswith_slash_app by discriminate.
      destruct (startswith_slash (String x p)).
      * change (String x p =? "")%string with false. cbn [orb]. now rewrite Es.
      * change (("/" ++ String x p) =? "")%string with false. cbn [orb].
        change ("/" ++ String x p)%string with (String slash (String x p)).
        rewrite endswith_slash_cons by discriminate. rewrite Es. reflexivity.
    + rewrite startswith_slash_app by discriminate.
      assert (Heq : startswith_slash (String x p ++ "/") = startswith_slash (String x p))
        by reflexivity.
      rewrite Heq.
      destruct (startswith_slash (String x p)).
      * change (String x p =? "")%string with false. cbn [orb]. now rewrite Es.
      * change (("/" ++ String x p) =? "")%string with false. cbn [orb].
        change ("/" ++ String x p)%string with (String slash (String x p)).
        rewrite endswith_slash_cons by discriminate. rewrite Es. reflexivity.
Qed.

Lemma abspath_list_join p n :
  entry_name_ok n = true ->
  abspath_list (join p n) = (abspath_list p ++ [n])%list.
Proof.
  intros Hok. apply entry_name_ok_inv in Hok as (Hplain & Hslash & Hstart).
  unfold abspath_list. rewrite (join_root_join p n Hstart).
  set (S := join "/" p). unfold dir_prefix.
  destruct ((S =? "")%string || endswith_slash S) eqn:E.
  - apply orb_true_iff in E as [E | E].
    + apply String.eqb_eq in E. rewrite E. cbn [String.append].
      rewrite (split_slash_plain n Hslash). cbn [split_slash].
      apply (normpath_loop_app_plain [""] n [] Hplain).
    + destruct (endswith_slash_inv S E) as [X ->].
      rewrite string_app_assoc. cbn [String.append].
      rewrite !split_slash_app_slash, (split_slash_plain n Hslash).
      cbn [split_slash].
      rewrite normpath_loop_app_plain by exact Hplain.
      now rewrite normpath_loop_app_empty.
  - rewrite string_app_assoc. cbn [String.append].
    rewrite split_slash_app_slash, (split_slash_plain n Hslash).
    now apply normpath_loop_app_plain.
Qed.

Lemma abspath_list_descend names :
  Forall (fun n => entry_name_ok n = true) names ->
  forall folder,
    abspath_list (fold_left join names folder)
    = (abspath_list folder ++ names)%list.
Proof.
  induction 1 as [|n names Hn _ IH]; intros folder; cbn [fold_left].
  - now rewrite app_nil_r.
  - rewrite IH, (abspath_list_join folder n Hn), <- app_assoc. reflexivity.
Qed.

Lemma commonprefix_len_app l l2 :
  commonprefix_len l (l ++ l2) = List.length l.
Proof.
  induction l as [|a l IH]; cbn; [now destruct l2|].
  now rewrite String.eqb_refl, IH.
Qed.

(** The path of a file below the folder, relative to the folder, is the
    chain of the names that lead to it. *)
Lemma relpath_descend folder names :
  names <> [] -> Forall (fun n => entry_name_ok n = true) names ->
  relpath (fold_left join names folder) folder
  = Ok (fold_left join (tl names) (hd "" names)).
Proof.
  intros Hne Hok. unfold relpath.
  pose proof (abspath_list_descend names Hok folder) as Habs.
  destruct (fold_left join names folder =? "")%string eqn:E.
  - apply String.eqb_eq in E. rewrite E in Habs.
    destruct names; [congruence|].
    destruct (abspath_list folder); discriminate.
  - cbv zeta. rewrite Habs, commonprefix_len_app, Nat.sub_diag.
    cbn [repeat app]. rewrite skipn_app, skipn_all, Nat.sub_diag.
    cbn [skipn app]. destruct names; [congruence | reflexivity].
Qed.

Lemma basename_descend folder names :
  names <> [] -> Forall (fun n => entry_name_ok n = true) names ->
  basename (fold_left join names folder) = last names "".
Proof.
  intros Hne Hok.
  destruct (exists_last Hne) as (ns & n & ->).
  rewrite fold_left_app, last_last. cbn [fold_left].
  apply Forall_app in Hok as [_ Hn]. inversion Hn as [|? ? Hn' _]; subst.
  apply entry_name_ok_inv in Hn' as (_ & Hslash & Hstart).
  rewrite (join_dir_prefix _ n Hstart).
  apply basename_prefix; [apply dir_prefix_cases | exact Hslash].
Qed.

(** X22. Where the copy of a file goes. For a file reached from the folder
    by a chain of entry names and an output folder that is given: with
    recursion the output path is the output folder followed by the same
    chain of names, so the sub-directories are mirrored; without
    recursion it is the output folder followed by the name of the file
    alone. The computation of the path raises nothing but the [OSError]
    of a directory that cannot be created; [os.path.relpath] never
    fails there. *)
Theorem output_path_mirrors_the_source
        (folder out : string) (names : list string) (recursive : bool)
        (w : world) :
  out <> "" -> names <> [] ->
  Forall (fun n => entry_name_ok n = true) names ->
  let file_path := fold_left join names folder in
  match fst (output_path_for folder (Some out) recursive file_path w) with
  | Ok p =>
      p = Some (join out (if recursive
                          then fold_left join (tl names) (hd "" names)
                          else last names ""))
  | Raise e => is_OSError e = true
  end.
Proof.
  intros Hout Hne Hok. cbv zeta. unfold output_path_for.
  assert (truthy (Some out) = Some out) as ->
      by (destruct out; [congruence | reflexivity]).
  unfold bind at 1.
  pose proof (raises_only_makedirs out w) as Hmk.
  destruct (os_makedirs out w) as [[[]|e] w1]; [|now apply Hmk].
  destruct recursive.
  - unfold bind at 1. unfold lift. rewrite (relpath_descend folder names Hne Hok).
    cbv zeta. unfold bind at 1.
    match goal with |- context [os_makedirs ?d w1] =>
      pose proof (raises_only_makedirs d w1) as Hmk2;
      destruct (os_makedirs d w1) as [[[]|e] w2]
    end; [reflexivity | now apply Hmk2].
  - cbn [ret fst]. now rewrite (basename_descend folder names Hne Hok).
Qed.

Lemma output_path_mirrors_the_source_witness :
  match fst (output_path_for "album" (Some "out") true
               (fold_left join ["day1"; "deep"; "q.jpg"] "album")
               second_world) with
  | Ok p => p = Some (join "out" (fold_left join ["deep"; "q.jpg"] "day1"))
  | Raise e => is_OSError e = true
  end.
Proof.
  apply (output_path_mirrors_the_source "album" "out" ["day1"; "deep"; "q.jpg"]
           true second_world).
  - discriminate.
  - discriminate.
  - repeat constructor.
Defined.

(* ================================================================== *)
(** ** The paths that discovery returns *)

Lemma tree_ok_Dir es :
  tree_ok (Dir es) = listing_okb es && forallb (fun e => tree_ok (snd e)) es.
Proof.
  cbn [tree_ok]. f_equal.
  induction es as [|[name child] es IH]; [reflexivity|].
  cbn [forallb snd]. now rewrite IH.
Qed.

Lemma tree_ok_inv es :
  tree_ok (Dir es) = true ->
  listing_ok es /\ forall e, In e es -> tree_ok (snd e) = true.
Proof.
  rewrite tree_ok_Dir. intros H. apply andb_true_iff in H as [Hl Hc].
  split; [now apply listing_okb_sound | now apply forallb_forall].
Qed.

Lemma chains_below_Dir es :
  chains_below (Dir es)
  = flat_map (fun e => match snd e with
                       | File _ => [[fst e]]
                       | Dir _ => map (cons (fst e)) (chains_below (snd e))
                       end) es.
Proof.
  cbn [chains_below].
  induction es as [|[name child] es IH]; [reflexivity|].
  cbn [flat_map fst snd]. now rewrite IH.
Qed.

Lemma files_below_Dir top es :
  files_below top (Dir es)
  = flat_map (fun e => match snd e with
                       | File _ => [join top (fst e)]
                       | Dir _ => files_below (join top (fst e)) (snd e)
                       end) es.
Proof.
  cbn [files_below].
  induction es as [|[name child] es IH]; [reflexivity|].
  cbn [flat_map fst snd]. now rewrite IH.
Qed.

(** The paths of the files below a folder are the folder path followed
    by the chains of names. *)
Lemma files_below_chains x :
  forall top,
    files_below top x
    = map (fun names => fold_left join names top) (chains_below x).
Proof.
  induction x as [f|es IH] using node_induction; intros top; [reflexivity|].
  rewrite files_below_Dir, chains_below_Dir.
  induction es as [|[name child] es IHes]; [reflexivity|].
  inversion IH as [|? ? Hchild Hrest]; subst. cbn [snd] in Hchild.
  cbn [flat_map fst snd]. rewrite map_app, (IHes Hrest). f_equal.
  destruct child as [f|sub]; [reflexivity|].
  rewrite Hchild, map_map. reflexivity.
Qed.

Lemma chains_below_ok x :
  tree_ok x = true ->
  forall names, In names (chains_below x) ->
    names <> [] /\ Forall (fun n => entry_name_ok n = true) names.
Proof.
  induction x as [f|es IH] using node_induction; intros Hok names Hin;
    [contradiction|].
  apply tree_ok_inv in Hok as [[_ Hnames] Hchildren].
  rewrite chains_below_Dir in Hin.
  apply in_flat_map in Hin as ([name child] & Hin_e & Hin_c).
  cbn [fst snd] in Hin_c.
  rewrite Forall_forall in Hnames, IH.
  pose proof (Hnames _ Hin_e) as Hname. cbn [fst] in Hname.
  destruct child as [f|sub].
  - destruct Hin_c as [<- | []]. split; [discriminate | now repeat constructor].
  - apply in_map_iff in Hin_c as (names' & <- & Hin').
    split; [discriminate|]. constructor; [exact Hname|].
    apply (IH _ Hin_e (Hchildren _ Hin_e) names' Hin').
Qed.

Lemma chains_below_lookup root x :
  tree_ok x = true ->
  forall top, lookup root top = Done x ->
  forall names, In names (chains_below x) ->
    exists f, lookup root (fold_left join names top) = Done (File f).
Proof.
  induction x as [f|es IH] using node_induction; intros Hok top Hl names Hin;
    [contradiction|].
  apply tree_ok_inv in Hok as [[Hnd Hnames] Hchildren].
  rewrite chains_below_Dir in Hin.
  apply in_flat_map in Hin as ([name child] & Hin_e & Hin_c).
  cbn [fst snd] in Hin_c.
  rewrite Forall_forall in Hnames, IH.
  pose proof (Hnames _ Hin_e) as Hname. cbn [fst] in Hname.
  assert (Hlook : lookup root (join top name) = Done child).
  { rewrite (lookup_join root top es name Hl Hname).
    now rewrite (assoc_In _ _ _ Hnd Hin_e). }
  destruct child as [f|sub].
  - destruct Hin_c as [<- | []]. exists f. exact Hlook.
  - apply in_map_iff in Hin_c as (names' & <- & Hin').
    cbn [fold_left].
    apply (IH _ Hin_e (Hchildren _ Hin_e) (join top name) Hlook names' Hin').
Qed.

Lemma NoDup_flat_map_keyed A B K (key : B -> K) (k : A -> K)
      (g : A -> list B) (l : list A) :
  NoDup (map k l) ->
  (forall a, In a l -> NoDup (g a)) ->
  (forall a b, In a l -> In b (g a) -> key b = k a) ->
  NoDup (flat_map g l).
Proof.
  induction l as [|a l IH]; intros Hnd Hg Hkey; [constructor|].
  cbn [flat_map map] in *. inversion Hnd as [|? ? Hnotin Hnd']; subst.
  apply NoDup_app.
  - apply Hg. now left.
  - apply IH; [assumption | intros; apply Hg; now right
               | intros a' b Ha' Hb; apply Hkey; [now right | assumption]].
  - intros b Hb Hb'. apply in_flat_map in Hb' as (a' & Ha' & Hb').
    apply Hnotin. rewrite <- (Hkey a b (or_introl eq_refl) Hb).
    rewrite (Hkey a' b (or_intror Ha') Hb'). now apply in_map.
Qed.

Lemma chains_below_NoDup x : tree_ok x = true -> NoDup (chains_below x).
Proof.
  induction x as [f|es IH] using node_induction; intros Hok; [constructor|].
  apply tree_ok_inv in Hok as [[Hnd _] Hchildren].
  rewrite chains_below_Dir. rewrite Forall_forall in IH.
  apply (NoDup_flat_map_keyed _ _ _ (fun names => hd "" names) fst).
  - exact Hnd.
  - intros [name child] Hin. cbn [fst snd].
    destruct child as [f|sub]; [repeat constructor; intros []|].
    apply NoDup_map_NoDup_ForallPairs.
    + intros a b _ _ [= ->]. reflexivity.
    + apply (IH _ Hin (Hchildren _ Hin)).
  - intros [name child] names Hin Hnames. cbn [fst snd] in *.
    destruct child as [f|sub].
    + destruct Hnames as [<- | []]. reflexivity.
    + apply in_map_iff in Hnames as (names' & <- & _). reflexivity.
Qed.

Lemma descend_injective top a b :
  Forall (fun n => entry_name_ok n = true) a ->
  Forall (fun n => entry_name_ok n = true) b ->
  fold_left join a top = fold_left join b top -> a = b.
Proof.
  intros Ha Hb E. apply (f_equal abspath_list) in E.
  rewrite (abspath_list_descend a Ha), (abspath_list_descend b Hb) in E.
  now apply app_inv_head in E.
Qed.

Lemma files_below_NoDup top x : tree_ok x = true -> NoDup (files_below top x).
Proof.
  intros Hok. rewrite files_below_chains.
  apply NoDup_map_NoDup_ForallPairs; [|now apply chains_below_NoDup].
  intros a b Ha Hb E.
  apply (descend_injective top a b); [| |exact E].
  - now apply (chains_below_ok x).
  - now apply (chains_below_ok x).
Qed.

Lemma NoDup_map_fst_filter A B (p : A * B -> bool) (l : list (A * B)) :
  NoDup (map fst l) -> NoDup (map fst (filter p l)).
Proof.
  induction l as [|e l IH]; intros H; [constructor|].
  cbn [map] in H. inversion H as [|? ? Hnotin Hnd]; subst. cbn [filter].
  destruct (p e); [|now apply IH]. cbn [map]. constructor; [|now apply IH].
  intros Hin. apply Hnotin. apply in_map_iff in Hin as (e' & He' & Hin).
  apply filter_In in Hin as [Hin _]. apply in_map_iff. eauto.
Qed.

Lemma filenames_ok es :
  listing_ok es ->
  NoDup (filenames es) /\ Forall (fun n => entry_name_ok n = true) (filenames es).
Proof.
  intros [Hnd Hnames]. unfold filenames. split.
  - now apply NoDup_map_fst_filter.
  - apply Forall_forall. intros n Hin.
    apply in_map_iff in Hin as (e & <- & Hin). apply filter_In in Hin as [Hin _].
    rewrite Forall_forall in Hnames. now apply Hnames.
Qed.

Lemma files_in_NoDup (recursive : bool) folder es :
  (if recursive then tree_ok (Dir es) = true else listing_ok es) ->
  NoDup (files_in recursive folder es).
Proof.
  destruct recursive; cbn [files_in]; intros Hok.
  - now apply files_below_NoDup.
  - destruct (filenames_ok es Hok) as [Hnd Hnames].
    rewrite Forall_forall in Hnames.
    apply NoDup_map_NoDup_ForallPairs; [|exact Hnd].
    intros a b Ha Hb E.
    assert (E' : [a] = [b]).
    { apply (descend_injective folder [a] [b]); [| |exact E];
        repeat constructor; now apply Hnames. }
    now injection E'.
Qed.

(** The result of discovery and the recognised files of the folder have
    the same members. *)
Lemma find_jpeg_files_members folder (recursive : bool) w es result :
  lookup (fs w) folder = Done (Dir es) ->
  (recursive = false -> listing_ok es) ->
  fst (find_jpeg_files folder recursive w) = Ok result ->
  Permutation result (filter is_jpeg_file (files_in recursive folder es)).
Proof.
  intros Hl Hok Hres.
  rewrite (find_jpeg_files_existing _ _ _ _ Hl) in Hres. cbn [fst] in Hres.
  injection Hres as <-.
  etransitivity; [symmetry; apply sorted_Permutation|].
  now apply collected_files_spec.
Qed.

(** X23. Discovery lists each file once: in a tree whose directories have
    distinct entry names, the list that [find_jpeg_files] returns has no
    path twice, in both modes. With the order of the result this makes
    the list strictly increasing. *)
Theorem discovery_lists_each_file_once
        (folder : string) (recursive : bool) (w : world)
        (es : list (string * node)) (result : list string) :
  lookup (fs w) folder = Done (Dir es) ->
  (if recursive then tree_ok (Dir es) = true else listing_ok es) ->
  fst (find_jpeg_files folder recursive w) = Ok result ->
  NoDup result /\
  StronglySorted (fun a b => path_le a b /\ a <> b) result.
Proof.
  intros Hl Hok Hres.
  assert (Hperm : Permutation result
                    (filter is_jpeg_file (files_in recursive folder es))).
  { apply (find_jpeg_files_members folder recursive w es result Hl);
      [|exact Hres].
    intros ->. exact Hok. }
  assert (Hnd : NoDup result).
  { apply (Permutation_NoDup (Permutation_sym Hperm)).
    apply NoDup_filter. now apply files_in_NoDup. }
  split; [exact Hnd|].
  assert (Hs : StronglySorted path_le result).
  { rewrite (find_jpeg_files_existing _ _ _ _ Hl) in Hres. cbn [fst] in Hres.
    injection Hres as <-. apply sorted_StronglySorted. }
  clear - Hnd Hs. induction Hs as [|a l Hs IH Hall]; [constructor|].
  inversion Hnd as [|? ? Hnotin Hnd']; subst.
  constructor; [now apply IH|].
  rewrite Forall_forall in Hall |- *. intros b Hb. split; [now apply Hall|].
  intros ->. contradiction.
Qed.

Lemma discovery_lists_each_file_once_witness :
  NoDup ["trip/1.jpg"; "trip/2.jpg"; "trip/3.jpeg"] /\
  StronglySorted (fun a b => path_le a b /\ a <> b)
                 ["trip/1.jpg"; "trip/2.jpg"; "trip/3.jpeg"].
Proof.
  apply (discovery_lists_each_file_once "trip" false example_world
           [ ("3.jpeg", jpeg_dated "2017:01:01 00:00:00");
             ("notes.txt", corrupt_file);
             ("1.jpg", jpeg_dated "2019:05:17 10:00:00");
             ("2.jpg", jpeg_dated "2018:12:31 23:59:59") ]).
  - reflexivity.
  - apply listing_okb_sound. reflexivity.
  - vm_compute. reflexivity.
Defined.

(** The paths of the result, as chains of names from the folder. *)
Lemma find_jpeg_files_chains
        (folder : string) (recursive : bool) (w : world)
        (es : list (string * node)) (result : list string) (p : string) :
  lookup (fs w) folder = Done (Dir es) ->
  (if recursive then tree_ok (Dir es) = true else listing_ok es) ->
  fst (find_jpeg_files folder recursive w) = Ok result ->
  In p result ->
  exists names,
    names <> [] /\ Forall (fun n => entry_name_ok n = true) names /\
    p = fold_left join names folder.
Proof.
  intros Hl Hok Hres Hin.
  assert (Hperm : Permutation result
                    (filter is_jpeg_file (files_in recursive folder es))).
  { apply (find_jpeg_files_members folder recursive w es result Hl);
      [|exact Hres].
    intros ->. exact Hok. }
  apply (Permutation_in _ Hperm) in Hin. apply filter_In in Hin as [Hin _].
  destruct recursive; cbn [files_in] in Hin.
  - rewrite files_below_chains in Hin.
    apply in_map_iff in Hin as (names & <- & Hin).
    destruct (chains_below_ok _ Hok names Hin) as [Hne Hnames]. eauto.
  - apply in_map_iff in Hin as (name & <- & Hin).
    destruct (filenames_ok es Hok) as [_ Hnames].
    rewrite Forall_forall in Hnames.
    exists [name]. split; [discriminate|].
    split; [repeat constructor; now apply Hnames | reflexivity].
Qed.

(** X24. Every path that discovery returns leads to a file. In a tree whose
    directories have distinct entry names, each path of the result is
    the folder path followed by a chain of entry names (one name
    without recursion), it names a regular file of the file system, and
    the classifier accepts it: what the batch hands to the reader and to
    [modify_image_datetime] is never a directory or a missing path. *)
Theorem discovered_paths_lead_to_files
        (folder : string) (recursive : bool) (w : world)
        (es : list (string * node)) (result : list string) (p : string) :
  lookup (fs w) folder = Done (Dir es) ->
  (if recursive then tree_ok (Dir es) = true else listing_ok es) ->
  fst (find_jpeg_files folder recursive w) = Ok result ->
  In p result ->
  is_jpeg_file p = true /\
  exists names f,
    names <> [] /\ Forall (fun n => entry_name_ok n = true) names /\
    (recursive = false -> List.length names = 1%nat) /\
    p = fold_left join names folder /\
    lookup (fs w) p = Done (File f).
Proof.
  intros Hl Hok Hres Hin.
  assert (Hperm : Permutation result
                    (filter is_jpeg_file (files_in recursive folder es))).
  { apply (find_jpeg_files_members folder recursive w es result Hl);
      [|exact Hres].
    intros ->. exact Hok. }
  apply (Permutation_in _ Hperm) in Hin. apply filter_In in Hin as [Hin Hj].
  split; [exact Hj|].
  destruct recursive; cbn [files_in] in Hin.
  - rewrite files_below_chains in Hin.
    apply in_map_iff in Hin as (names & <- & Hin).
    destruct (chains_below_ok _ Hok names Hin) as [Hne Hnames].
    destruct (chains_below_lookup (fs w) _ Hok folder Hl names Hin) as [f Hf].
    exists names, f. repeat split; try assumption. discriminate.
  - apply in_map_iff in Hin as (name & <- & Hin).
    destruct Hok as [Hnd Hnames].
    unfold filenames in Hin. apply in_map_iff in Hin as ([n child] & <- & Hin).
    apply filter_In in Hin as [Hin Hfile]. cbn [fst snd] in *.
    rewrite Forall_forall in Hnames. pose proof (Hnames _ Hin) as Hname.
    cbn [fst] in Hname.
    destruct child as [f|sub]; [|discriminate].
    exists [n], f. repeat split.
    + discriminate.
    + now repeat constructor.
    + cbn [fold_left]. rewrite (lookup_join (fs w) folder es n Hl Hname).
      now rewrite (assoc_In _ _ _ Hnd Hin).
Qed.

Lemma discovered_paths_lead_to_files_witness :
  is_jpeg_file "album/day1/deep/q.jpg" = true /\
  exists names f,
    names <> [] /\ Forall (fun n => entry_name_ok n = true) names /\
    (true = false -> List.length names = 1%nat) /\
    "album/day1/deep/q.jpg" = fold_left join names "album" /\
    lookup (fs second_world) "album/day1/deep/q.jpg" = Done (File f).
Proof.
  apply (discovered_paths_lead_to_files "album" true second_world
           [ ("z.jpg", jpeg_dated "2016:08:09 07:06:05");
             ("a.JPG", jpeg_dated "2015:01:02 03:04:05");
             ("day1", Dir [ ("m.jpeg", jpeg_dated "2014:12:31 23:59:59");
                            ("deep", Dir [ ("q.jpg", jpeg_undated) ]) ]);
             ("cover.png", corrupt_file) ]
           ["album/a.JPG"; "album/day1/deep/q.jpg"; "album/day1/m.jpeg";
            "album/z.jpg"]).
  - reflexivity.
  - reflexivity.
  - vm_compute. reflexivity.
  - right. left. reflexivity.
Defined.

Lemma files_below_direct top es name f :
  In (name, File f) es -> In (join top name) (files_below top (Dir es)).
Proof.
  intros Hin. rewrite files_below_Dir. apply in_flat_map.
  exists (name, File f). split; [exact Hin | now left].
Qed.

(** Recursion only adds. On the same folder, every path that discovery
    returns without recursion is returned with recursion as well, so the
    recursive result is at least as long. *)
Corollary recursion_finds_what_the_flat_search_finds
        (folder : string) (w : world) (es : list (string * node))
        (flat deep : list string) :
  lookup (fs w) folder = Done (Dir es) -> listing_ok es ->
  fst (find_jpeg_files folder false w) = Ok flat ->
  fst (find_jpeg_files folder true w) = Ok deep ->
  incl flat deep /\ len flat <= len deep.
Proof.
  intros Hl Hok Hflat Hdeep.
  pose proof (find_jpeg_files_members folder false w es flat Hl
                (fun _ => Hok) Hflat) as Pflat.
  assert (Pdeep : Permutation deep
                    (filter is_jpeg_file (files_in true folder es))).
  { apply (find_jpeg_files_members folder true w es deep Hl); [|exact Hdeep].
    discriminate. }
  assert (Hincl : incl flat deep).
  { intros p Hin. apply (Permutation_in _ Pflat) in Hin.
    apply (Permutation_in _ (Permutation_sym Pdeep)).
    apply filter_In in Hin as [Hin Hj]. apply filter_In. split; [|exact Hj].
    cbn [files_in] in *. apply in_map_iff in Hin as (name & <- & Hin).
    unfold filenames in Hin. apply in_map_iff in Hin as ([n child] & <- & Hin).
    apply filter_In in Hin as [Hin Hfile]. cbn [fst snd] in *.
    destruct child as [f|sub]; [|discriminate].
    now apply (files_below_direct folder es n f). }
  split; [exact Hincl|].
  assert (Hnd : NoDup flat).
  { apply (Permutation_NoDup (Permutation_sym Pflat)).
    apply NoDup_filter. now apply (files_in_NoDup false). }
  unfold len. apply inj_le. now apply NoDup_incl_length.
Qed.

Lemma recursion_finds_what_the_flat_search_finds_witness :
  incl ["album/a.JPG"; "album/z.jpg"]
       ["album/a.JPG"; "album/day1/deep/q.jpg"; "album/day1/m.jpeg";
        "album/z.jpg"] /\
  len ["album/a.JPG"; "album/z.jpg"]
  <= len ["album/a.JPG"; "album/day1/deep/q.jpg"; "album/day1/m.jpeg";
          "album/z.jpg"].
Proof.
  apply (recursion_finds_what_the_flat_search_finds "album" second_world
           [ ("z.jpg", jpeg_dated "2016:08:09 07:06:05");
             ("a.JPG", jpeg_dated "2015:01:02 03:04:05");
             ("day1", Dir [ ("m.jpeg", jpeg_dated "2014:12:31 23:59:59");
                            ("deep", Dir [ ("q.jpg", jpeg_undated) ]) ]);
             ("cover.png", corrupt_file) ]).
  - reflexivity.
  - apply listing_okb_sound. reflexivity.
  - vm_compute. reflexivity.
  - vm_compute. reflexivity.
Defined.

(* ------------------------------------------------------------------ *)

(** A sorted list is determined by its members. *)
Lemma StronglySorted_unique (l1 l2 : list string) :
  StronglySorted path_le l1 -> StronglySorted path_le l2 ->
  Permutation l1 l2 -> l1 = l2.
Proof.
  intros H1. revert l2. induction H1 as [|a l1 H1 IH Ha]; intros l2 H2 P.
  - apply Permutation_nil in P. now subst.
  - destruct H2 as [|b l2 H2 Hb].
    + apply Permutation_sym, Permutation_nil in P. discriminate.
    + rewrite Forall_forall in Ha, Hb.
      assert (a = b) as <-.
      { assert (Hab : In a (b :: l2))
          by (apply (Permutation_in _ P); now left).
        assert (Hba : In b (a :: l1))
          by (apply (Permutation_in _ (Permutation_sym P)); now left).
        destruct Hab as [-> | Hab]; [reflexivity|].
        destruct Hba as [-> | Hba]; [reflexivity|].
        apply String.leb_antisym; [now apply Ha | now apply Hb]. }
      f_equal. apply IH; [exact H2|]. now apply Permutation_cons_inv in P.
Qed.

Lemma sorted_unique l1 l2 : Permutation l1 l2 -> sorted l1 = sorted l2.
Proof.
  intros P. apply StronglySorted_unique; try apply sorted_StronglySorted.
  etransitivity; [symmetry; apply sorted_Permutation|].
  etransitivity; [exact P | apply sorted_Permutation].
Qed.

(** X25. The result of discovery does not depend on the order in which the
    file system lists a directory. Two file systems in which the folder
    holds the same files, listed in any order, give the same list: this
    is what the final [sorted] of [find_jpeg_files] is for. *)
Theorem discovery_does_not_depend_on_listing_order
        (folder : string) (recursive : bool) (w w' : world)
        (es es' : list (string * node)) :
  lookup (fs w) folder = Done (Dir es) ->
  lookup (fs w') folder = Done (Dir es') ->
  (recursive = false -> listing_ok es /\ listing_ok es') ->
  Permutation (files_in recursive folder es) (files_in recursive folder es') ->
  fst (find_jpeg_files folder recursive w)
  = fst (find_jpeg_files folder recursive w').
Proof.
  intros Hl Hl' Hok P.
  rewrite (find_jpeg_files_existing _ _ _ _ Hl),
          (find_jpeg_files_existing _ _ _ _ Hl').
  cbn [fst]. f_equal. apply sorted_unique.
  etransitivity;
    [apply (collected_files_spec w folder es recursive Hl);
     intros E; now destruct (Hok E)|].
  etransitivity;
    [|symmetry; apply (collected_files_spec w' folder es' recursive Hl');
      intros E; now destruct (Hok E)].
  clear - P. induction P; cbn [filter].
  - constructor.
  - destruct (is_jpeg_file x); [now constructor | assumption].
  - destruct (is_jpeg_file x), (is_jpeg_file y);
      try apply perm_swap; apply Permutation_refl.
  - etransitivity; eassumption.
Qed.

Lemma discovery_does_not_depend_on_listing_order_witness :
  fst (find_jpeg_files "leap" true example_world)
  = fst (find_jpeg_files "leap" true reordered_world).
Proof.
  apply (discovery_does_not_depend_on_listing_order "leap" true
           example_world reordered_world
           [ ("later.jpg", jpeg_dated "2021:03:05 09:30:00");
             ("feb29.jpg", jpeg_dated "2020:01:29 08:00:00") ]
           [ ("feb29.jpg", jpeg_dated "2020:01:29 08:00:00");
             ("later.jpg", jpeg_dated "2021:03:05 09:30:00") ]).
  - reflexivity.
  - reflexivity.
  - discriminate.
  - apply perm_swap.
Defined.

(* ================================================================== *)
(** ** What a run leaves alone *)

Lemma locate_resolve cs :
  forallb (fun c => negb (c =? "..")%string) cs = true ->
  forall up n,
    match locate cs (mkcursor up n) with
    | Done z => Done (here z)
    | Errno k => Errno k
    end = resolve cs n.
Proof.
  induction cs as [|c cs IH]; intros Hnd up n; [reflexivity|].
  cbn [forallb] in Hnd. apply andb_true_iff in Hnd as [Hc Hcs].
  apply negb_true_iff in Hc.
  cbn [locate resolve]. unfold step. cbn [here above].
  destruct n as [f|es]; [reflexivity|]. fold (noop_component c).
  destruct (noop_component c); [apply (IH Hcs)|].
  rewrite Hc. destruct (assoc c es) as [child|]; [apply (IH Hcs) | reflexivity].
Qed.

Lemma lookup_resolve root q :
  no_dotdot q = true ->
  lookup root q
  = if (q =? "")%string then Errno FileNotFoundError
    else resolve (split_slash q) root.
Proof.
  intros Hnd. unfold lookup. destruct (q =? "")%string; [reflexivity|].
  apply (locate_resolve _ Hnd).
Qed.

Lemma rebuild_put name x' cs :
  forallb (fun c => negb (c =? "..")%string) cs = true ->
  forall up n z es',
    locate cs (mkcursor up n) = Done z -> here z = Dir es' ->
    rebuild (above z) (Dir (set_assoc name x' es'))
    = rebuild up (put cs name x' n).
Proof.
  induction cs as [|c cs IH]; intros Hnd up n z es' Hloc Hz.
  - cbn in Hloc. injection Hloc as <-. cbn in *. now subst n.
  - cbn [forallb] in Hnd. apply andb_true_iff in Hnd as [Hc Hcs].
    apply negb_true_iff in Hc.
    cbn [locate] in Hloc. unfold step in Hloc. cbn [here above] in Hloc.
    destruct n as [f|es]; [discriminate|]. cbn [put].
    fold (noop_component c) in Hloc.
    destruct (noop_component c).
    + apply (IH Hcs _ _ _ _ Hloc Hz).
    + rewrite Hc in Hloc.
      destruct (assoc c es) as [child|]; [|discriminate].
      rewrite (IH Hcs _ _ _ _ Hloc Hz). reflexivity.
Qed.

Lemma assoc_set_assoc_other n name x es :
  n <> name -> assoc n (set_assoc name x es) = assoc n es.
Proof.
  intros Hne. induction es as [|[m y] es IH]; cbn.
  - destruct (name =? n)%string eqn:E; [|reflexivity].
    apply String.eqb_eq in E. congruence.
  - destruct (m =? name)%string eqn:E; cbn.
    + apply String.eqb_eq in E. subst m.
      destruct (name =? n)%string eqn:E'; [|reflexivity].
      apply String.eqb_eq in E'. congruence.
    + destruct (m =? n)%string; [reflexivity | exact IH].
Qed.

Lemma resolve_file_nil qs f g :
  resolve qs (File f) = Done (File g) -> qs = [].
Proof. destruct qs; [reflexivity | discriminate]. Qed.

(** A file that the components [qs] lead to is still there after the
    entry at [cs], [name] has been replaced by a file, when [qs] leads
    elsewhere. *)
Lemma resolve_put name f' :
  noop_component name = false ->
  forall cs x qs g,
    entry_not_dir cs name x ->
    resolve qs x = Done (File g) ->
    strip qs <> (strip cs ++ [name])%list ->
    resolve qs (put cs name (File f') x) = Done (File g).
Proof.
  intros Hname. induction cs as [|c cs IH]; intros x qs g Hnot Hres Hdiff.
  - destruct x as [f|es]; [exact Hres|]. cbn [put]. unfold strip in *.
    cbn [filter app] in *.
    revert Hres Hdiff. induction qs as [|q qs IHq]; intros Hres Hdiff;
      [discriminate|].
    cbn [resolve] in *. cbn [filter] in Hdiff.
    destruct (noop_component q) eqn:Hq; cbn [negb] in Hdiff.
    + now apply IHq.
    + destruct (String.eqb_spec q name) as [-> | Hne].
      * rewrite assoc_set_assoc.
        destruct (assoc name es) as [[f|sub]|] eqn:Ha; [| |discriminate].
        -- apply resolve_file_nil in Hres as Hqs. subst qs.
           exfalso. apply Hdiff. reflexivity.
        -- exfalso. apply (Hnot es sub eq_refl Ha).
      * now rewrite (assoc_set_assoc_other q name _ es Hne).
  - destruct x as [f|es]; [exact Hres|]. cbn [put].
    unfold strip in Hdiff. cbn [filter] in Hdiff.
    destruct (noop_component c) eqn:Hc; cbn [negb] in Hdiff.
    + apply IH; try assumption.
      intros es' sub Hr. apply (Hnot es' sub). cbn [resolve]. now rewrite Hc.
    + destruct (assoc c es) as [child|] eqn:Hac; [|exact Hres].
      assert (Hnot' : entry_not_dir cs name child).
      { intros es' sub Hr. apply (Hnot es' sub). cbn [resolve].
        now rewrite Hc, Hac. }
      unfold strip in *.
      revert Hres Hdiff. induction qs as [|q qs IHq]; intros Hres Hdiff;
        [discriminate|].
      cbn [resolve] in *. cbn [filter] in Hdiff.
      destruct (noop_component q) eqn:Hq; cbn [negb] in Hdiff.
      * now apply IHq.
      * destruct (String.eqb_spec q c) as [-> | Hne].
        -- rewrite assoc_set_assoc. rewrite Hac in Hres.
           apply IH; try assumption.
           intros E. apply Hdiff. cbn [app]. now rewrite E.
        -- now rewrite (assoc_set_assoc_other q c _ es Hne).
Qed.

Lemma strip_app l1 l2 : strip (l1 ++ l2) = (strip l1 ++ strip l2)%list.
Proof. apply filter_app. Qed.

Lemma kept_refl paths root : kept paths root root.
Proof. intros q g _ _ H. exact H. Qed.

Lemma kept_trans paths r1 r2 r3 :
  kept paths r1 r2 -> kept paths r2 r3 -> kept paths r1 r3.
Proof. intros H1 H2 q g Hq Hp Hl. apply H2, H1; assumption. Qed.

Lemma kept_weaken paths paths' r1 r2 :
  incl paths paths' -> kept paths r1 r2 -> kept paths' r1 r2.
Proof.
  intros Hi H q g Hq Hp Hl. apply H; try assumption.
  intros p Hin. apply Hp, Hi, Hin.
Qed.

(** A write at [path] keeps every file that [path] does not lead to. *)
Lemma kept_write_file root path change root' :
  no_dotdot path = true ->
  write_file root path change = Done root' ->
  kept [path] root root'.
Proof.
  intros Hnd Hw q g Hq Hdiff Hl.
  specialize (Hdiff path (or_introl eq_refl)).
  rewrite (lookup_resolve root _ Hq) in Hl. rewrite (lookup_resolve root' _ Hq).
  destruct (q =? "")%string; [discriminate|].
  unfold write_file in Hw. destruct (path =? "")%string; [discriminate|].
  unfold components in Hdiff.
  unfold no_dotdot in Hnd. rewrite split_slash_last in Hnd, Hdiff.
  destruct (split_last (split_slash path)) as [dir_cs name].
  cbn [fst snd] in *.
  apply forallb_app_inv in Hnd as [Hdirs _].
  destruct (plain_name name) eqn:Hplain; cbn [negb] in Hw; [|discriminate].
  assert (Hnoop : noop_component name = false).
  { unfold plain_name in Hplain. apply negb_true_iff in Hplain.
    apply orb_false_iff in Hplain as [H _]. exact H. }
  destruct (locate dir_cs (mkcursor [] root)) as [z|k] eqn:Hloc; [|discriminate].
  destruct (here z) as [f0|es] eqn:Hz; [discriminate|].
  pose proof (locate_resolve dir_cs Hdirs [] root) as Hres.
  rewrite Hloc, Hz in Hres.
  assert (Hput : forall f',
             rebuild (above z) (Dir (set_assoc name (File f') es))
             = put dir_cs name (File f') root).
  { intros f'. apply (rebuild_put name (File f') dir_cs Hdirs [] root z es Hloc Hz). }
  assert (Hentry : entry_not_dir dir_cs name root).
  { intros es' sub Hr. rewrite <- Hres in Hr. injection Hr as <-.
    intros Ha. rewrite Ha in Hw. discriminate. }
  assert (Hstrip : strip (split_slash q) <> (strip dir_cs ++ [name])%list).
  { intros E. apply Hdiff. rewrite strip_app, E. f_equal.
    unfold strip. cbn [filter]. now rewrite Hnoop. }
  destruct (assoc name es) as [[f|sub]|]; [| discriminate |].
  - destruct (change (Some f)) as [f'|k]; [|discriminate].
    injection Hw as <-. rewrite Hput.
    now apply resolve_put.
  - destruct (change None) as [f'|k]; [|discriminate].
    injection Hw as <-. rewrite Hput.
    now apply resolve_put.
Qed.

Lemma keeps_read_only A paths (m : M A) :
  read_only m -> keeps_files_outside paths m.
Proof.
  intros H w. destruct (H w) as (_ & Hf & _). rewrite Hf. apply kept_refl.
Qed.

Lemma keeps_weaken A paths paths' (m : M A) :
  incl paths paths' -> keeps_files_outside paths m ->
  keeps_files_outside paths' m.
Proof. intros Hi H w. eapply kept_weaken; [exact Hi | apply H]. Qed.

Lemma keeps_bind A B paths (m : M A) (k : A -> M B) :
  keeps_files_outside paths m -> (forall a, keeps_files_outside paths (k a)) ->
  keeps_files_outside paths (bind m k).
Proof.
  intros Hm Hk w. unfold bind. specialize (Hm w).
  destruct (m w) as [[a|e] w1]; cbn [snd] in *; [|assumption].
  eapply kept_trans; [eassumption | apply Hk].
Qed.

Lemma keeps_try_except A paths (body : M A) handlers :
  keeps_files_outside paths body ->
  (forall e h, handlers e = Some h -> keeps_files_outside paths h) ->
  keeps_files_outside paths (try_except body handlers).
Proof.
  intros Hb Hh w. unfold try_except. specialize (Hb w).
  destruct (body w) as [[a|e] w1]; cbn [snd] in *; [assumption|].
  destruct (handlers e) as [h|] eqn:E; [|assumption].
  eapply kept_trans; [eassumption | apply (Hh _ _ E)].
Qed.

Lemma keeps_for_fold A S paths (l : list A) (body : A -> S -> M S) :
  (forall x s, In x l -> keeps_files_outside paths (body x s)) ->
  forall s, keeps_files_outside paths (for_fold l s body).
Proof.
  induction l as [|x l IH]; intros Hb s; cbn [for_fold].
  - apply keeps_read_only, read_only_ret.
  - apply keeps_bind; [apply Hb; now left|].
    intros s'. apply IH. intros y s0 Hy. apply Hb. now right.
Qed.

Lemma keeps_writing_at path (change : platform -> option file -> io file) :
  no_dotdot path = true ->
  keeps_files_outside [path]
    (writing (fun mach root =>
                of_io path (write_file root path (change mach)))).
Proof.
  intros Hnd w. rewrite writing_run.
  destruct (write_file (fs w) path (change (machine w))) as [root'|k] eqn:E;
    cbn [of_io snd fs]; [|apply kept_refl].
  apply (kept_write_file _ _ _ _ Hnd E).
Qed.

Lemma keeps_Image_save path :
  no_dotdot path = true -> keeps_files_outside [path] (Image_save path).
Proof.
  intros Hnd. unfold Image_save.
  apply (keeps_writing_at path
           (fun mach old =>
              match old with
              | Some f =>
                  if can_write f
                  then Done (mkfile (can_read f) true
                               (Some (mkimage "JPEG" [] [])) (atime f) (clock mach))
                  else Errno PermissionError
              | None =>
                  Done (mkfile true true (Some (mkimage "JPEG" [] []))
                               (clock mach) (clock mach))
              end) Hnd).
Qed.

Lemma keeps_piexif_insert d path :
  no_dotdot path = true -> keeps_files_outside [path] (piexif_insert d path).
Proof.
  intros Hnd. unfold piexif_insert.
  apply (keeps_writing_at path
           (fun mach old =>
              match old with
              | Some f =>
                  if negb (can_read f && can_write f) then Errno PermissionError
                  else match content f with
                       | Some img =>
                           Done (mkfile (can_read f) (can_write f)
                                   (Some (mkimage (format img) (fst d) (snd d)))
                                   (atime f) (clock mach))
                       | None => Errno UnidentifiedImageError
                       end
              | None => Errno FileNotFoundError
              end) Hnd).
Qed.

Lemma keeps_os_utime path a m :
  no_dotdot path = true -> keeps_files_outside [path] (os_utime path a m).
Proof.
  intros Hnd w. unfold os_utime. rewrite writing_run.
  destruct (lookup (fs w) path) as [[f|es]|k]; cbn [snd fs];
    try apply kept_refl.
  destruct (write_file (fs w) path _) as [root'|k] eqn:E;
    cbn [of_io snd fs]; [|apply kept_refl].
  apply (kept_write_file _ _ _ _ Hnd E).
Qed.

Ltac keeps_step :=
  match goal with
  | |- keeps_files_outside _ (ret _) => apply keeps_read_only, read_only_ret
  | |- keeps_files_outside _ (raise _) => apply keeps_read_only, read_only_raise
  | |- keeps_files_outside _ (lift _) => apply keeps_read_only, read_only_lift
  | |- keeps_files_outside _ (reading _) =>
      apply keeps_read_only, read_only_reading
  | |- keeps_files_outside _ (print _) => apply keeps_read_only, read_only_print
  | |- keeps_files_outside _ (bind _ _) => apply keeps_bind; [|intros ?]
  | |- keeps_files_outside _ (try_except _ _) =>
      apply keeps_try_except;
      [| let e := fresh "e" in let h := fresh "h" in let E := fresh "E" in
         intros e h E;
         repeat match type of E with
                | (if ?c then _ else _) = Some _ => destruct c
                end;
         inversion E; subst; clear E ]
  | |- keeps_files_outside _ (if ?c then _ else _) => destruct c
  | |- keeps_files_outside _ (match ?x with Some _ => _ | None => _ end) =>
      destruct x
  | |- keeps_files_outside _ (match ?x with (_, _) => _ end) => destruct x
  end.

Lemma keeps_update_exif path t :
  no_dotdot path = true ->
  keeps_files_outside [path] (update_exif_with_piexif path t).
Proof.
  intros Hnd. unfold update_exif_with_piexif, piexif_load.
  repeat (keeps_step || apply (keeps_piexif_insert _ _ Hnd)).
Qed.

Lemma keeps_bind_returns A B paths (Q : A -> Prop) (m : M A) (k : A -> M B) :
  keeps_files_outside paths m -> returns_only Q m ->
  (forall a, Q a -> keeps_files_outside paths (k a)) ->
  keeps_files_outside paths (bind m k).
Proof.
  intros Hm HQ Hk w. unfold bind. specialize (Hm w). specialize (HQ w).
  destruct (m w) as [[a|e] w1]; cbn [fst snd] in *; [|assumption].
  eapply kept_trans; [eassumption | apply Hk, HQ; reflexivity].
Qed.

Lemma keeps_modify path Y M_ out :
  no_dotdot (match out with Some o => o | None => path end) = true ->
  keeps_files_outside [match out with Some o => o | None => path end]
    (modify_image_datetime path Y M_ out).
Proof.
  intros Hnd. unfold modify_image_datetime.
  set (target := match out with Some o => o | None => path end) in *.
  apply (keeps_bind_returns _ _ _
           (fun r => match r with Some (_, op) => op = target | None => True end)).
  - apply keeps_try_except.
    + apply keeps_bind; [apply keeps_read_only, read_only_Image_open|].
      intros image.
      apply keeps_bind;
        [apply keeps_read_only, read_only_current_datetime_of|].
      intros T.
      repeat (keeps_step || apply (keeps_Image_save _ Hnd)
              || apply (keeps_update_exif _ _ Hnd)).
    + intros e h E.
      destruct (is_OSError e || is_ValueError e); inversion E; subst.
      repeat keeps_step.
  - apply returns_only_try_except.
    + repeat (apply returns_only_bind; intros ?).
      now apply returns_only_ret.
    + intros e h E.
      destruct (is_OSError e || is_ValueError e); inversion E; subst.
      apply returns_only_bind. intros _. now apply returns_only_ret.
  - intros [[new_dt output_path]|] Hr; [|repeat keeps_step]. subst output_path.
    unfold datetime_timestamp.
    repeat (keeps_step || apply (keeps_os_utime _ _ _ Hnd)).
Qed.

(** X26. The file system after [modify_image_datetime] differs from the one
    before at most in the file written: the image itself, or the output
    path when one is given. Every other regular file is found as it
    was, with its content, its metadata and its times, whatever the
    outcome of the call. With an output path that does not lead to the
    image, the image itself is such a file: the original is kept. *)
Theorem modify_touches_only_its_target
        (path : string) (Y : Z) (M_ : option Z) (out : option string)
        (w : world) (q : string) (g : file) :
  let target := match out with Some o => o | None => path end in
  no_dotdot target = true -> no_dotdot q = true ->
  components target <> components q ->
  lookup (fs w) q = Done (File g) ->
  lookup (fs (snd (modify_image_datetime path Y M_ out w))) q = Done (File g).
Proof.
  cbv zeta. intros Hnd Hq Hdiff Hl.
  apply (keeps_modify path Y M_ out Hnd w q g Hq); [|exact Hl].
  intros p [<- | []]. exact Hdiff.
Qed.

Lemma modify_touches_only_its_target_witness :
  lookup (fs (snd (modify_image_datetime "album/z.jpg" 2023 None
                     (Some "album/copy.jpg") second_world))) "album/z.jpg"
  = Done (jpeg_dated "2016:08:09 07:06:05").
Proof.
  apply (modify_touches_only_its_target "album/z.jpg" 2023 None
           (Some "album/copy.jpg") second_world "album/z.jpg").
  - reflexivity.
  - reflexivity.
  - discriminate.
  - reflexivity.
Defined.

(* ------------------------------------------------------------------ *)

Lemma split_slash_join p n :
  entry_name_ok n = true ->
  exists cs,
    split_slash (join p n) = (cs ++ [n])%list /\
    (cs = [] /\ p = "" \/ split_slash p = cs \/ split_slash p = (cs ++ [""])%list).
Proof.
  intros Hok. apply entry_name_ok_inv in Hok as (Hplain & Hslash & Hstart).
  rewrite (join_dir_prefix p n Hstart). unfold dir_prefix.
  destruct (p =? "")%string eqn:Ep; cbn [orb].
  - apply String.eqb_eq in Ep. subst p. exists []. cbn [String.append app].
    split; [now apply split_slash_plain | now left].
  - destruct (endswith_slash p) eqn:Es.
    + destruct (endswith_slash_inv p Es) as [X ->].
      exists (split_slash X). rewrite string_app_assoc. cbn [String.append].
      rewrite !split_slash_app_slash, (split_slash_plain n Hslash).
      split; [reflexivity|]. right. right. reflexivity.
    + exists (split_slash p). rewrite string_app_assoc. cbn [String.append].
      rewrite split_slash_app_slash, (split_slash_plain n Hslash).
      split; [reflexivity|]. right. left. reflexivity.
Qed.

Lemma entry_name_ok_component n :
  entry_name_ok n = true ->
  noop_component n = false /\ (n =? "..")%string = false.
Proof.
  intros Hok. apply entry_name_ok_inv in Hok as (Hplain & _).
  unfold plain_name in Hplain. apply negb_true_iff in Hplain.
  apply orb_false_iff in Hplain as [H1 H2]. now split.
Qed.

Lemma no_dotdot_join p n :
  no_dotdot p = true -> entry_name_ok n = true -> no_dotdot (join p n) = true.
Proof.
  intros Hp Hn. destruct (split_slash_join p n Hn) as (cs & E & Hcs).
  destruct (entry_name_ok_component n Hn) as [_ Hdd].
  unfold no_dotdot in *. rewrite E, forallb_app. cbn [forallb].
  rewrite Hdd. cbn [negb andb]. rewrite andb_true_r.
  destruct Hcs as [[-> _] | [<- | E']]; [reflexivity | exact Hp |].
  rewrite E', forallb_app in Hp. now apply andb_true_iff in Hp as [H _].
Qed.

Lemma components_join p n :
  entry_name_ok n = true -> components (join p n) = (components p ++ [n])%list.
Proof.
  intros Hn. destruct (split_slash_join p n Hn) as (cs & E & Hcs).
  destruct (entry_name_ok_component n Hn) as [Hnoop _].
  unfold components. rewrite E, strip_app.
  assert (strip [n] = [n]) as -> by (unfold strip; cbn [filter]; now rewrite Hnoop).
  f_equal. destruct Hcs as [[-> ->] | [<- | E']]; [reflexivity | reflexivity |].
  rewrite E', strip_app. cbn. now rewrite app_nil_r.
Qed.

Lemma descend_paths names :
  Forall (fun n => entry_name_ok n = true) names ->
  forall folder,
    no_dotdot folder = true ->
    no_dotdot (fold_left join names folder) = true /\
    components (fold_left join names folder) = (components folder ++ names)%list.
Proof.
  induction 1 as [|n names Hn _ IH]; intros folder Hf; cbn [fold_left].
  - split; [exact Hf | now rewrite app_nil_r].
  - destruct (IH (join folder n) (no_dotdot_join _ _ Hf Hn)) as [H1 H2].
    split; [exact H1|]. rewrite H2, (components_join folder n Hn).
    now rewrite <- app_assoc.
Qed.

Lemma in_enumerate A (l : list A) :
  forall start i x, In (i, x) (enumerate l start) -> In x l.
Proof.
  induction l as [|y l IH]; intros start i x; cbn; [tauto|].
  intros [[= _ ->] | H]; [now left | right; eapply IH; eassumption].
Qed.

Lemma keeps_process_item files folder Y M_ recursive total i p counts :
  In p files -> no_dotdot p = true ->
  keeps_files_outside files
    (process_item folder Y M_ None recursive total (i, p) counts).
Proof.
  intros Hin Hnd. unfold process_item. destruct counts as [s e].
  apply keeps_bind; [apply keeps_read_only, read_only_print|]. intros _.
  apply keeps_try_except.
  - unfold output_path_for. cbn [truthy].
    apply (keeps_bind_returns _ _ _ (fun op => op = None));
      [apply keeps_read_only, read_only_ret | now apply returns_only_ret|].
    intros op ->. apply keeps_bind.
    + apply (keeps_weaken _ [p]); [intros x [<- | []]; exact Hin|].
      apply (keeps_modify p Y M_ None Hnd).
    + intros ok. repeat keeps_step.
  - intros ex h E. destruct (is_OSError ex || is_ValueError ex);
      inversion E; subst. repeat keeps_step.
Qed.

(** X27. A batch run in place touches only the files it has discovered. For
    a folder given by a path without [..], in a tree whose directories
    have distinct entry names, and without an output folder: every
    regular file of the file system that no discovered path leads to is
    found after [process_folder] as it was before, with its content, its
    metadata and its times, whatever happens to the discovered files.
    Files that are not JPEG files by their name, and files outside the
    folder, are never modified. *)
Theorem in_place_batch_touches_only_discovered_files
        (folder : string) (Y : Z) (M_ : option Z) (recursive dry : bool)
        (w : world) (es : list (string * node)) (files : list string)
        (q : string) (g : file) :
  lookup (fs w) folder = Done (Dir es) -> no_dotdot folder = true ->
  (if recursive then tree_ok (Dir es) = true else listing_ok es) ->
  fst (find_jpeg_files folder recursive w) = Ok files ->
  no_dotdot q = true ->
  (forall p, In p files -> components p <> components q) ->
  lookup (fs w) q = Done (File g) ->
  lookup (fs (snd (process_folder folder Y M_ None recursive dry w))) q
  = Done (File g).
Proof.
  intros Hl Hfolder Hok Hfiles Hq Hdiff Hlq.
  assert (Hnd : forall p, In p files -> no_dotdot p = true).
  { intros p Hin.
    destruct (find_jpeg_files_chains folder recursive w es files p Hl Hok
                Hfiles Hin) as (names & _ & Hnames & ->).
    now apply (descend_paths names Hnames folder Hfolder). }
  assert (Hfind : find_jpeg_files folder recursive w = (Ok files, w)).
  { rewrite (find_jpeg_files_existing _ _ _ _ Hl) in Hfiles |- *.
    cbn [fst] in Hfiles. congruence. }
  unfold process_folder. rewrite (bind_ok _ _ _ _ _ _ _ Hfind).
  match goal with
  | |- lookup (fs (snd (?m w))) q = _ =>
      assert (Hkeeps : keeps_files_outside files m)
  end.
  { destruct files as [|f0 files'] eqn:Ef; [repeat keeps_step|].
    rewrite <- Ef in *. clear Ef.
    apply keeps_bind; [apply keeps_read_only, read_only_print|]. intros _.
    apply keeps_bind; [destruct recursive; repeat keeps_step|]. intros _.
    destruct dry.
    - apply keeps_read_only.
      repeat (read_only_step || apply read_only_dry_run_item).
    - apply keeps_bind; [|intros [s e]; repeat keeps_step].
      apply keeps_for_fold. intros [i p] [s e] Hin.
      apply in_enumerate in Hin.
      apply keeps_process_item; [exact Hin | now apply Hnd]. }
  apply (Hkeeps w q g Hq Hdiff Hlq).
Qed.

Lemma in_place_batch_touches_only_discovered_files_witness :
  lookup (fs (snd (process_folder "photos" 2023 None None false false
                                  example_world))) "photos/notes.txt"
  = Done corrupt_file.
Proof.
  apply (in_place_batch_touches_only_discovered_files "photos" 2023 None
           false false example_world
           [ ("b.JPG", jpeg_dated "2018:07:04 12:00:00");
             ("notes.txt", corrupt_file);
             ("c.jpeg", jpeg_undated);
             ("e.Jpg", jpeg_undated);
             ("x.jpg", Dir []);
             ("sub", Dir [ ("d.jpg", jpeg_dated "2017:11:30 23:59:59");
                           ("readme.md", corrupt_file) ]) ]
           ["photos/b.JPG"; "photos/c.jpeg"]).
  - reflexivity.
  - reflexivity.
  - apply listing_okb_sound. reflexivity.
  - vm_compute. reflexivity.
  - reflexivity.
  - intros p [<- | [<- | []]]; discriminate.
  - reflexivity.
Defined.

(* ================================================================== *)
(** ** A batch run with an output folder *)

Lemma makedirs_from_mkd cs :
  forallb (fun c => negb (c =? "..")%string) cs = true ->
  forall up n r,
    makedirs_from cs (mkcursor up n) = Done r -> r = rebuild up (mkd cs n).
Proof.
  induction cs as [|c cs IH]; intros Hnd up n r H.
  - cbn in H. destruct n; [discriminate|]. now injection H as <-.
  - cbn [forallb] in Hnd. apply andb_true_iff in Hnd as [Hc Hcs].
    apply negb_true_iff in Hc.
    cbn [makedirs_from here above] in H. destruct n as [f|es]; [discriminate|].
    cbn [mkd]. fold (noop_component c) in H.
    destruct (noop_component c); [now apply (IH Hcs)|].
    rewrite Hc in H.
    destruct (assoc c es) as [child|]; apply (IH Hcs) in H; exact H.
Qed.

Lemma resolve_mkd cs :
  forall x qs g,
    resolve qs x = Done (File g) -> resolve qs (mkd cs x) = Done (File g).
Proof.
  induction cs as [|c cs IH]; intros x qs g Hres; [exact Hres|].
  destruct x as [f|es]; [exact Hres|]. cbn [mkd].
  destruct (noop_component c) eqn:Hc; [now apply IH|].
  destruct (assoc c es) as [child|] eqn:Hac.
  - revert Hres. induction qs as [|q qs IHq]; intros Hres; [discriminate|].
    cbn [resolve] in *.
    destruct (noop_component q) eqn:Hq; [now apply IHq|].
    destruct (String.eqb_spec q c) as [-> | Hne].
    + rewrite assoc_set_assoc. rewrite Hac in Hres. now apply IH.
    + now rewrite (assoc_set_assoc_other q c _ es Hne).
  - revert Hres. induction qs as [|q qs IHq]; intros Hres; [discriminate|].
    cbn [resolve] in *.
    destruct (noop_component q) eqn:Hq; [now apply IHq|].
    destruct (String.eqb_spec q c) as [-> | Hne].
    + rewrite Hac in Hres. discriminate.
    + now rewrite !(assoc_set_assoc_other q c) by exact Hne.
Qed.

(** [os.makedirs] changes no regular file. *)
Lemma kept_makedirs paths root p root' :
  no_dotdot p = true -> makedirs root p = Done root' -> kept paths root root'.
Proof.
  intros Hnd Hm q g Hq _ Hl. unfold makedirs in Hm.
  destruct (p =? "")%string; [discriminate|].
  apply (makedirs_from_mkd _ Hnd) in Hm. cbn [rebuild] in Hm. subst root'.
  rewrite (lookup_resolve root _ Hq) in Hl.
  rewrite (lookup_resolve _ _ Hq).
  destruct (q =? "")%string; [discriminate|]. now apply resolve_mkd.
Qed.

Lemma keeps_os_makedirs paths p :
  no_dotdot p = true -> keeps_files_outside paths (os_makedirs p).
Proof.
  intros Hnd w. unfold os_makedirs. rewrite writing_run.
  destruct (makedirs (fs w) p) as [root'|k] eqn:E; cbn [of_io snd fs];
    [|apply kept_refl].
  apply (kept_makedirs _ _ _ _ Hnd E).
Qed.

(* ------------------------------------------------------------------ *)

Lemma rfind_split c s :
  0 <= rfind c s ->
  exists a b, s = (a ++ String c b)%string /\ slen a = rfind c s.
Proof.
  induction s as [|x s IH]; cbn [rfind]; [lia|].
  destruct (0 <=? rfind c s) eqn:E.
  - apply Z.leb_le in E. destruct (IH E) as (a & b & -> & Ha). intros _.
    exists (String x a), b. split; [reflexivity|].
    unfold slen in *. cbn [String.length]. lia.
  - destruct (Ascii.eqb_spec x c) as [-> | Hne]; [|lia]. intros _.
    exists "", s. split; reflexivity.
Qed.

Lemma no_dotdot_app_slash a b :
  no_dotdot (a ++ String slash b) = true -> no_dotdot a = true.
Proof.
  unfold no_dotdot. rewrite split_slash_app_slash, forallb_app.
  intros H. now apply andb_true_iff in H as [H _].
Qed.

Lemma no_dotdot_snoc_slash a :
  no_dotdot a = true -> no_dotdot (a ++ "/") = true.
Proof.
  unfold no_dotdot. change (a ++ "/")%string with (a ++ String slash "")%string.
  rewrite split_slash_app_slash, forallb_app. intros ->. reflexivity.
Qed.

Lemma rstrip_slash_spec h :
  exists t, h = (rstrip_slash h ++ t)%string /\ all_slashes t = true.
Proof.
  induction h as [|a h (t & Eh & Ht)]; [now exists ""|].
  cbn [rstrip_slash]. destruct (rstrip_slash h) as [|r0 r] eqn:Er.
  - cbn [String.append] in Eh. subst t.
    destruct (Ascii.eqb a slash) eqn:Ea.
    + exists (String a h). split; [reflexivity|]. cbn [all_slashes].
      now rewrite Ea, Ht.
    + exists h. split; [reflexivity | exact Ht].
  - exists t. split; [|exact Ht]. rewrite Eh at 1. reflexivity.
Qed.

Lemma no_dotdot_rstrip h : no_dotdot h = true -> no_dotdot (rstrip_slash h) = true.
Proof.
  intros H. destruct (rstrip_slash_spec h) as (t & E & Ht).
  destruct t as [|x t]; [|].
  - assert (h = rstrip_slash h) as <-; [|exact H].
    rewrite E at 1. clear. induction (rstrip_slash h); cbn; congruence.
  - cbn [all_slashes] in Ht. apply andb_true_iff in Ht as [Hx _].
    apply Ascii.eqb_eq in Hx. subst x. rewrite E in H.
    now apply no_dotdot_app_slash in H.
Qed.

Lemma no_dotdot_dirname s : no_dotdot s = true -> no_dotdot (dirname s) = true.
Proof.
  intros H. unfold dirname.
  assert (Hhead : no_dotdot (str_take (Z.to_nat (rfind slash s + 1)) s) = true).
  { pose proof (rfind_bounds slash s) as Hb.
    destruct (Z.leb_spec 0 (rfind slash s)) as [Hr | Hr].
    - destruct (rfind_split slash s Hr) as (a & b & E & Ha).
      assert (Hk : Z.to_nat (rfind slash s + 1)
                   = String.length (a ++ String slash "")).
      { rewrite length_app. cbn [String.length]. unfold slen in Ha. lia. }
      rewrite Hk. clear Hk Ha Hb Hr. subst s.
      replace (a ++ String slash b)%string
        with ((a ++ String slash "") ++ b)%string
        by (now rewrite string_app_assoc).
      rewrite str_take_app.
      apply no_dotdot_app_slash in H. now apply no_dotdot_snoc_slash.
    - replace (rfind slash s + 1) with 0 by lia. reflexivity. }
  destruct (negb _ && negb _); [now apply no_dotdot_rstrip | exact Hhead].
Qed.

Lemma has_slash_endswith n : has_slash n = false -> endswith_slash n = false.
Proof.
  induction n as [|a n IH]; [reflexivity|]. cbn [has_slash endswith_slash].
  intros H. apply orb_false_iff in H as [Ha Hn].
  destruct n; [exact Ha | now apply IH].
Qed.

Lemma endswith_slash_app a c :
  c <> "" -> endswith_slash (a ++ c) = endswith_slash c.
Proof.
  intros Hc. induction a as [|x a IH]; [reflexivity|].
  cbn [String.append]. rewrite endswith_slash_cons; [exact IH|].
  destruct a; [exact Hc | discriminate].
Qed.

Lemma entry_relative n : entry_name_ok n = true -> relative_ok n.
Proof.
  intros Hok. apply entry_name_ok_inv in Hok as (Hplain & Hslash & Hstart).
  repeat split; [|exact Hstart | now apply has_slash_endswith].
  intros ->. discriminate.
Qed.

Lemma join_relative b c :
  relative_ok b -> entry_name_ok c = true ->
  join b c = (b ++ "/" ++ c)%string /\ relative_ok (join b c).
Proof.
  intros (Hb & Hs & He) Hc.
  destruct (entry_relative c Hc) as (Hc0 & Hcs & Hce).
  assert (E : join b c = (b ++ "/" ++ c)%string).
  { unfold join. rewrite Hcs, He.
    destruct b; [congruence | reflexivity]. }
  split; [exact E|]. rewrite E. repeat split.
  - destruct b; [congruence | discriminate].
  - now rewrite startswith_slash_app.
  - change (b ++ "/" ++ c)%string with (b ++ (String slash c))%string.
    rewrite endswith_slash_app by discriminate.
    rewrite endswith_slash_cons by exact Hc0. exact Hce.
Qed.

Lemma join_assoc a b c :
  relative_ok b -> entry_name_ok c = true ->
  join a (join b c) = join (join a b) c.
Proof.
  intros Hb Hc. destruct (join_relative b c Hb Hc) as [E (_ & Hs & _)].
  destruct Hb as (Hb0 & Hbs & Hbe).
  destruct (entry_relative c Hc) as (Hc0 & Hcs & Hce).
  rewrite (join_dir_prefix a (join b c) Hs), E.
  rewrite (join_dir_prefix (join a b) c Hcs), (join_dir_prefix a b Hbs).
  unfold dir_prefix at 2.
  assert (((dir_prefix a ++ b) =? "")%string = false) as ->.
  { apply String.eqb_neq. intros H. destruct (dir_prefix a); [|discriminate].
    cbn in H. congruence. }
  rewrite endswith_slash_app by exact Hb0. rewrite Hbe. cbn [orb].
  now rewrite !string_app_assoc.
Qed.

Lemma join_fold a names :
  Forall (fun n => entry_name_ok n = true) names ->
  forall b, relative_ok b ->
    join a (fold_left join names b) = fold_left join names (join a b).
Proof.
  induction 1 as [|n names Hn _ IH]; intros b Hb; [reflexivity|].
  cbn [fold_left].
  rewrite (IH (join b n) (proj2 (join_relative b n Hb Hn))).
  now rewrite (join_assoc a b n Hb Hn).
Qed.

(** The output path of a file below the folder is a path below the
    output folder. *)
Lemma output_path_for_below folder out (recursive : bool) names :
  out <> "" -> no_dotdot out = true -> names <> [] ->
  Forall (fun n => entry_name_ok n = true) names ->
  let file_path := fold_left join names folder in
  exists rest,
    let op := fold_left join rest out in
    Forall (fun n => entry_name_ok n = true) rest /\
    returns_only (fun r => r = Some op)
                 (output_path_for folder (Some out) recursive file_path) /\
    (forall paths,
       keeps_files_outside paths
         (output_path_for folder (Some out) recursive file_path)).
Proof.
  intros Hout Hnd Hne Hok. cbv zeta.
  assert (Ht : truthy (Some out) = Some out)
    by (destruct out; [congruence | reflexivity]).
  destruct recursive.
  - exists names. split; [exact Hok|].
    assert (Hrel : relpath (fold_left join names folder) folder
                   = Ok (fold_left join (tl names) (hd "" names)))
      by now apply relpath_descend.
    assert (Hop : join out (fold_left join (tl names) (hd "" names))
                  = fold_left join names out).
    { destruct names as [|n rest]; [congruence|]. cbn [tl hd fold_left].
      inversion Hok; subst. apply join_fold; [assumption|].
      now apply entry_relative. }
    unfold output_path_for. rewrite Ht, Hrel. split.
    + apply returns_only_bind. intros _.
      intros w r. unfold bind, lift. cbv zeta.
      destruct (os_makedirs _ w) as [[[]|e] w1]; cbn [fst ret]; [|discriminate].
      intros [= <-]. now rewrite Hop.
    + intros paths.
      apply keeps_bind; [now apply keeps_os_makedirs|]. intros _.
      apply (keeps_bind_returns _ _ _
               (fun rel => rel = fold_left join (tl names) (hd "" names))).
      * apply keeps_read_only, read_only_lift.
      * intros w r [= <-]. reflexivity.
      * intros rel ->. cbv zeta. rewrite Hop.
        apply keeps_bind; [|intros _; apply keeps_read_only, read_only_ret].
        apply keeps_os_makedirs, no_dotdot_dirname.
        now apply (descend_paths names Hok out Hnd).
  - exists [last names ""].
    assert (Hlast : entry_name_ok (last names "") = true).
    { destruct (exists_last Hne) as (ns & n & ->). rewrite last_last.
      apply Forall_app in Hok as [_ Hn]. now inversion Hn. }
    split; [now repeat constructor|].
    unfold output_path_for. rewrite Ht.
    rewrite (basename_descend folder names Hne Hok). cbn [fold_left]. split.
    + apply returns_only_bind. intros _. now apply returns_only_ret.
    + intros paths.
      apply keeps_bind; [now apply keeps_os_makedirs|]. intros _.
      apply keeps_read_only, read_only_ret.
Qed.

Lemma keeps_process_item_output folder out Y M_ recursive total i names counts :
  out <> "" -> no_dotdot out = true -> names <> [] ->
  Forall (fun n => entry_name_ok n = true) names ->
  exists rest,
    Forall (fun n => entry_name_ok n = true) rest /\
    keeps_files_outside [fold_left join rest out]
      (process_item folder Y M_ (Some out) recursive total
                    (i, fold_left join names folder) counts).
Proof.
  intros Hout Hnd Hne Hok.
  destruct (output_path_for_below folder out recursive names Hout Hnd Hne Hok)
    as (rest & Hrest & Hret & Hkeeps).
  exists rest. split; [exact Hrest|].
  unfold process_item. destruct counts as [s e].
  apply keeps_bind; [apply keeps_read_only, read_only_print|]. intros _.
  apply keeps_try_except.
  - apply (keeps_bind_returns _ _ _ _ _ _ (Hkeeps _) Hret).
    intros op ->. apply keeps_bind.
    + apply (keeps_modify _ Y M_ (Some (fold_left join rest out))).
      now apply (descend_paths rest Hrest out Hnd).
    + intros ok. repeat keeps_step.
  - intros ex h E. destruct (is_OSError ex || is_ValueError ex);
      inversion E; subst. repeat keeps_step.
Qed.


Lemma keeps_file_outside A paths q (m : M A) :
  keeps_files_outside paths m -> no_dotdot q = true ->
  (forall p, In p paths -> components p <> components q) ->
  keeps_file q m.
Proof. intros H Hq Hdiff w g Hl. now apply (H w q g). Qed.

Lemma keeps_file_read_only A q (m : M A) : read_only m -> keeps_file q m.
Proof. intros H w g Hl. destruct (H w) as (_ & Hf & _). now rewrite Hf. Qed.

Lemma keeps_file_bind A B q (m : M A) (k : A -> M B) :
  keeps_file q m -> (forall a, keeps_file q (k a)) -> keeps_file q (bind m k).
Proof.
  intros Hm Hk w g Hl. unfold bind. specialize (Hm w g Hl).
  destruct (m w) as [[a|e] w1]; cbn [snd] in *; [|assumption].
  now apply Hk.
Qed.

Lemma keeps_file_for_fold A S q (l : list A) (body : A -> S -> M S) :
  (forall x s, In x l -> keeps_file q (body x s)) ->
  forall s, keeps_file q (for_fold l s body).
Proof.
  induction l as [|x l IH]; intros Hb s; cbn [for_fold].
  - apply keeps_file_read_only, read_only_ret.
  - apply keeps_file_bind; [apply Hb; now left|].
    intros s'. apply IH. intros y s0 Hy. apply Hb. now right.
Qed.

(** X28. A batch run with an output folder changes no file outside the
    output folder. For an output folder given by a path without [..],
    in a tree whose directories have distinct entry names: every regular
    file that does not lie below the output folder is found after
    [process_folder] as it was before, with its content, its metadata
    and its times, in both modes and whatever happens to each file. So
    the originals are kept whenever the folder processed is not inside
    the output folder. *)
Theorem batch_with_output_folder_changes_nothing_outside_it
        (folder out : string) (Y : Z) (M_ : option Z) (recursive dry : bool)
        (w : world) (es : list (string * node)) (files : list string)
        (q : string) (g : file) :
  lookup (fs w) folder = Done (Dir es) ->
  (if recursive then tree_ok (Dir es) = true else listing_ok es) ->
  out <> "" -> no_dotdot out = true ->
  fst (find_jpeg_files folder recursive w) = Ok files ->
  no_dotdot q = true ->
  (forall rest, components q <> (components out ++ rest)%list) ->
  lookup (fs w) q = Done (File g) ->
  lookup (fs (snd (process_folder folder Y M_ (Some out) recursive dry w))) q
  = Done (File g).
Proof.
  intros Hl Hok Hout Hnd Hfiles Hq Hdiff Hlq.
  assert (Hfind : find_jpeg_files folder recursive w = (Ok files, w)).
  { rewrite (find_jpeg_files_existing _ _ _ _ Hl) in Hfiles |- *.
    cbn [fst] in Hfiles. congruence. }
  assert (Hitem : forall i p counts,
            In p files ->
            keeps_file q (process_item folder Y M_ (Some out) recursive
                                       (len files) (i, p) counts)).
  { intros i p counts Hin.
    destruct (find_jpeg_files_chains folder recursive w es files p Hl Hok
                Hfiles Hin) as (names & Hne & Hnames & ->).
    destruct (keeps_process_item_output folder out Y M_ recursive (len files)
                i names counts Hout Hnd Hne Hnames) as (rest & Hrest & Hk).
    apply (keeps_file_outside _ _ _ _ Hk Hq).
    intros p [<- | []] E. apply (Hdiff rest). rewrite <- E.
    now apply (descend_paths rest Hrest out Hnd). }
  unfold process_folder. rewrite (bind_ok _ _ _ _ _ _ _ Hfind).
  match goal with
  | |- lookup (fs (snd (?m w))) q = _ => assert (Hkeeps : keeps_file q m)
  end.
  { destruct files as [|f0 files'] eqn:Ef.
    { apply keeps_file_read_only. repeat read_only_step. }
    rewrite <- Ef in *. clear Ef.
    apply keeps_file_bind; [apply keeps_file_read_only, read_only_print|].
    intros _.
    apply keeps_file_bind;
      [apply keeps_file_read_only; destruct recursive; repeat read_only_step|].
    intros _. destruct dry.
    - apply keeps_file_read_only.
      repeat (read_only_step || apply read_only_dry_run_item).
    - apply keeps_file_bind.
      + apply keeps_file_for_fold. intros [i p] counts Hin.
        apply in_enumerate in Hin. now apply Hitem.
      + intros [s e]. apply keeps_file_read_only. repeat read_only_step. }
  apply (Hkeeps w g Hlq).
Qed.

Lemma batch_with_output_folder_changes_nothing_outside_it_witness :
  lookup (fs (snd (process_folder "album" 2023 None (Some "out") true false
                                  second_world))) "album/day1/m.jpeg"
  = Done (jpeg_dated "2014:12:31 23:59:59").
Proof.
  apply (batch_with_output_folder_changes_nothing_outside_it "album" "out"
           2023 None true false second_world
           [ ("z.jpg", jpeg_dated "2016:08:09 07:06:05");
             ("a.JPG", jpeg_dated "2015:01:02 03:04:05");
             ("day1", Dir [ ("m.jpeg", jpeg_dated "2014:12:31 23:59:59");
                            ("deep", Dir [ ("q.jpg", jpeg_undated) ]) ]);
             ("cover.png", corrupt_file) ]
           ["album/a.JPG"; "album/day1/deep/q.jpg"; "album/day1/m.jpeg";
            "album/z.jpg"]).
  - reflexivity.
  - reflexivity.
  - discriminate.
  - reflexivity.
  - vm_compute. reflexivity.
  - reflexivity.
  - intros rest. discriminate.
  - reflexivity.
Defined.

(* ================================================================== *)
(** ** A batch run in place that succeeds *)










(* ================================================================== *)
(** ** The metadata writer on its own *)

Lemma dict_get_set k key v d :
  dict_get k (dict_set key v d) = if k =? key then Some v else dict_get k d.
Proof.
  unfold dict_get. induction d as [|[k0 v0] d IH]; cbn [dict_set find fst].
  - rewrite (Z.eqb_sym key k). now destruct (k =? key).
  - destruct (Z.eqb_spec k0 key) as [-> | Hne]; cbn [find fst].
    + rewrite (Z.eqb_sym key k). now destruct (k =? key).
    + destruct (Z.eqb_spec k0 k) as [-> | Hne'].
      * destruct (Z.eqb_spec k key); [congruence | reflexivity].
      * exact IH.
Qed.

(** X30. [update_exif_with_piexif] on a JPEG file that can be read and
    written, on a machine with piexif: it returns after printing that
    the metadata was updated; the file then carries the text of the date
    under the three date tags ([DateTime] in the main directory,
    [DateTimeOriginal] and [DateTimeDigitized] in the Exif directory)
    and every other tag of the two directories with the value it had.
    The file is rewritten: its modification time is the time of the
    call, its access time is kept. *)
Theorem update_exif_sets_the_three_date_tags_only
        (path : string) (t : datetime) (w : world) (f : file) (img : image) :
  lookup (fs w) path = Done (File f) -> no_dotdot path = true ->
  can_read f = true -> can_write f = true -> content f = Some img ->
  format img = "JPEG" -> piexif_installed (machine w) = true ->
  exists w' img',
    update_exif_with_piexif path t w = (Ok tt, w') /\
    stdout w' = (stdout w ++ [ExifUpdated])%list /\
    lookup (fs w') path
    = Done (File (mkfile true true (Some img') (atime f) (clock (machine w)))) /\
    format img' = "JPEG" /\
    (forall k, dict_get k (exif_0th img')
               = if k =? 306 then Some (strftime t)
                 else dict_get k (exif_0th img)) /\
    (forall k, dict_get k (exif_Exif img')
               = if (k =? 36867) || (k =? 36868) then Some (strftime t)
                 else dict_get k (exif_Exif img)).
Proof.
  intros Hl Hnd Hr Hw Hc Hf Hp.
  destruct (update_exif_run path t w f img Hl Hnd Hr Hw Hc Hf Hp)
    as (root' & Hrun & Hlook).
  eexists _, _. split; [exact Hrun|]. cbn [stdout printed fs].
  split; [reflexivity|]. split; [exact Hlook|]. cbn [format exif_0th exif_Exif].
  split; [reflexivity|]. split; intros k.
  - apply dict_get_set.
  - rewrite !dict_get_set.
    destruct (k =? 36868), (k =? 36867); reflexivity.
Qed.

Lemma update_exif_sets_the_three_date_tags_only_witness :
  exists w' img',
    update_exif_with_piexif "a.jpg" (mkdatetime 2023 12 17 10 0 0 0)
                            example_world = (Ok tt, w') /\
    stdout w' = (stdout example_world ++ [ExifUpdated])%list /\
    lookup (fs w') "a.jpg"
    = Done (File (mkfile true true (Some img') 1558087200000000
                         1700000000000000)) /\
    format img' = "JPEG" /\
    (forall k, dict_get k (exif_0th img')
               = if k =? 306 then Some "2023:12:17 10:00:00"
                 else dict_get k [(271, "Canon"); (306, "2019:05:17 10:00:00")]) /\
    (forall k, dict_get k (exif_Exif img')
               = if (k =? 36867) || (k =? 36868)
                 then Some "2023:12:17 10:00:00"
                 else dict_get k [(36867, "2019:05:17 10:00:00")]).
Proof.
  apply (update_exif_sets_the_three_date_tags_only "a.jpg"
           (mkdatetime 2023 12 17 10 0 0 0) example_world
           (mkfile true true
              (Some (mkimage "JPEG" [(271, "Canon"); (306, "2019:05:17 10:00:00")]
                             [(36867, "2019:05:17 10:00:00")]))
              1558087200000000 1558087200000000)
           (mkimage "JPEG" [(271, "Canon"); (306, "2019:05:17 10:00:00")]
                    [(36867, "2019:05:17 10:00:00")]));
    reflexivity.
Defined.

(* ================================================================== *)
(** ** The exit status for one file *)

(** The command on one file, run for real. For an existing file with a
    JPEG name and accepted arguments, without [--show-current] and
    [--dry-run], [main] ends by the outcome of [modify_image_datetime]:
    normally (status 0) after [True], with exit status 1 after [False].
    No exception of the file system or of the date transform reaches
    the user; the one exception that does is the [ValueError] of
    [timestamp], on a machine that has no timestamp for the new date. *)
Corollary single_file_exit_status (args : arguments) (w : world) (f : file) :
  lookup (fs w) (arg_path args) = Done (File f) ->
  month_ok args -> year_ok args ->
  is_jpeg_file (arg_path args) = true ->
  arg_show_current args = false -> arg_dry_run args = false ->
  main args w
  = match modify_image_datetime (arg_path args) (arg_new_year args)
                                (arg_new_month args) (arg_output args) w with
    | (Ok true, w') => (Ok tt, printed w' [ModifiedSuccessfully])
    | (Ok false, w') => (Raise (SystemExit 1), printed w' [FailedToModify])
    | (Raise e, w') => (Raise e, w')
    end /\
  forall e,
    fst (modify_image_datetime (arg_path args) (arg_new_year args)
                               (arg_new_month args) (arg_output args) w)
    = Raise e ->
    is_ValueError e = true.
Proof.
  intros Hl Hm Hy Hj Hs Hd. split.
  - rewrite (main_checks_pass args w _ Hl Hm Hy). cbv zeta.
    rewrite Hs, Hd, Hj. cbn [negb]. unfold bind at 1. cbn [ret].
    unfold bind at 1.
    destruct (modify_image_datetime _ _ _ _ w) as [[[|]|e] w']; reflexivity.
  - destruct (accepted_arguments_fit args Hm Hy) as [HcY HcM].
    apply (raises_only_modify_image_datetime_fits _ _ _ _ HcY HcM).
Qed.

Lemma single_file_exit_status_witness :
  main (mkarguments "broken.jpg" 2023 None None false false false)
       example_world
  = (Raise (SystemExit 1),
     printed example_world
       [ErrorModifyingImageDatetime (OSError UnidentifiedImageError "broken.jpg");
        FailedToModify]).
Proof.
  refine (eq_trans
            (proj1 (single_file_exit_status
                      (mkarguments "broken.jpg" 2023 None None false false false)
                      example_world
                      (mkfile true true None 1558087200000000 1558087200000000)
                      eq_refl I _ eq_refl eq_refl eq_refl)) _).
  - cbv. split; discriminate.
  - reflexivity.
Defined.
